(** * mcp-dev-env-setup: the tool-installation orchestration core

    A shallow embedding of [utils/shell.ts], [core/package-manager.ts],
    [core/tool-config.ts], [validators/environment-validator.ts] and
    [installers/unified-installer.ts], followed by the properties the
    specification states about them.

    Asynchronous functions are embedded as programs of a small free monad
    [Prog] whose effects are the primitives the code consumes from
    below: the promisified [exec] of [child_process], and [readFile],
    [appendFile] and [writeFile] of [fs/promises].  A program is run against
    a [World]: the files on disk are concrete, the behaviour of the operating
    system on a shell command is a parameter.

    Strings are kept in their UTF-8 encoding.  A property read on an object
    literal sees, besides the entries of the literal, the members that
    every object inherits from [Object.prototype]. *)

From Stdlib Require Import Ascii String NArith.
From stdpp Require Import gmap strings list fin_maps.

Open Scope string_scope.
Open Scope list_scope.

(** ** JavaScript strings *)

Module JsString.

(** [s.includes(sub)] *)
Fixpoint includes (s sub : string) : bool :=
  if String.prefix sub s then true
  else match s with
       | EmptyString => false
       | String _ s' => includes s' sub
       end.

(** [s] holds a copy of [sub]. *)
Definition contains (sub s : string) : Prop :=
  exists pre post, s = pre +:+ sub +:+ post.

(** The number of positions of [s] at which a copy of [sub] starts. *)
Fixpoint occurrences (sub s : string) : nat :=
  (if String.prefix sub s then 1 else 0) +
  match s with
  | EmptyString => 0
  | String _ s' => occurrences sub s'
  end.

(** A string stands for a JavaScript string through its UTF-8 encoding: a
    character outside the ASCII range is the two or three bytes that encode
    it. *)
Definition utf8 (bytes : list nat) : string :=
  fold_right (fun b s => String (ascii_of_nat b) s) EmptyString bytes.

(** The characters that [String.prototype.trim] removes, the [WhiteSpace]
    and [LineTerminator] of ECMAScript, each in its encoding: U+0009 to
    U+000D, U+0020, U+00A0, U+1680, U+2000 to U+200A, U+2028, U+2029,
    U+202F, U+205F, U+3000 and U+FEFF. *)
Definition white_space : list string :=
  [utf8 [9]; utf8 [10]; utf8 [11]; utf8 [12]; utf8 [13]; utf8 [32];
   utf8 [194; 160];
   utf8 [225; 154; 128];
   utf8 [226; 128; 128]; utf8 [226; 128; 129]; utf8 [226; 128; 130];
   utf8 [226; 128; 131]; utf8 [226; 128; 132]; utf8 [226; 128; 133];
   utf8 [226; 128; 134]; utf8 [226; 128; 135]; utf8 [226; 128; 136];
   utf8 [226; 128; 137]; utf8 [226; 128; 138];
   utf8 [226; 128; 168]; utf8 [226; 128; 169]; utf8 [226; 128; 175];
   utf8 [226; 129; 159];
   utf8 [227; 128; 128];
   utf8 [239; 187; 191]].

(** The number of bytes of the white-space character that [s] starts with,
    0 when it starts with none. *)
Definition space_width (s : string) : nat :=
  match List.find (fun t => String.prefix t s) white_space with
  | Some t => String.length t
  | None => 0
  end.

(** [trimStart], with [skip] bytes of a white-space character still to be
    dropped. *)
Fixpoint strip (skip : nat) (s : string) : string :=
  match s with
  | EmptyString => EmptyString
  | String _ s' =>
      match skip with
      | S k => strip k s'
      | 0 =>
          match space_width s with
          | 0 => s
          | S k => strip k s'
          end
      end
  end.

Definition trimStart (s : string) : string := strip 0 s.

(** [s] is white space from end to end. *)
Definition all_space (s : string) : bool := String.eqb (trimStart s) EmptyString.

Fixpoint trimEnd (s : string) : string :=
  match s with
  | EmptyString => EmptyString
  | String c s' => if all_space s then EmptyString else String c (trimEnd s')
  end.

Definition trim (s : string) : string := trimEnd (trimStart s).

(** [s.split('\n')[0]] *)
Fixpoint first_line (s : string) : string :=
  match s with
  | EmptyString => EmptyString
  | String c s' =>
      if Ascii.eqb c "010"%char then EmptyString else String c (first_line s')
  end.

(** What a template literal makes of [undefined]. *)
Definition undefined : string := "undefined".

(** Truthiness of a possibly undefined string: [undefined] and [''] are
    falsy. *)
Definition truthy (o : option string) : bool :=
  match o with
  | Some s => negb (String.eqb s EmptyString)
  | None => false
  end.

(** Truthiness of a possibly undefined object. *)
Definition defined {A : Type} (o : option A) : bool :=
  match o with
  | Some _ => true
  | None => false
  end.

(** [a || b] where [a] is a possibly undefined string. *)
Definition or_else (a : option string) (b : string) : string :=
  match a with
  | Some s => if String.eqb s EmptyString then b else s
  | None => b
  end.

End JsString.

Import JsString.

(** ** Effects and programs *)

(** What the promisified [exec] settles to: resolved with the two captured
    streams, or rejected with an error object that carries a message and,
    when the process ran, the streams. *)
Inductive ExecOutcome : Type :=
| ExecResolved (out err : string)
| ExecRejected (out err : option string) (message : string).

Inductive FsResult (A : Type) : Type :=
| FsOk (a : A)
| FsError (message : string).
Arguments FsOk {A} a.
Arguments FsError {A} message.

Inductive Eff : Type -> Type :=
| ExecAsync (command : string) (timeout : N) : Eff ExecOutcome
| ReadFile (path : string) : Eff (FsResult string)
| AppendFile (path data : string) : Eff (FsResult unit)
| WriteFile (path data : string) : Eff (FsResult unit).

(** A program either returns, throws an error (kept as its message), or
    awaits an effect and continues with its answer. *)
Inductive Prog (A : Type) : Type :=
| Ret (a : A)
| Throw (message : string)
| Vis {X : Type} (e : Eff X) (k : X -> Prog A).
Arguments Ret {A} a.
Arguments Throw {A} message.
Arguments Vis {A X} e k.

Fixpoint bind {A B : Type} (p : Prog A) (f : A -> Prog B) : Prog B :=
  match p with
  | Ret a => f a
  | Throw m => Throw m
  | Vis e k => Vis e (fun x => bind (k x) f)
  end.

(** [try { p } catch (error) { h error.message }] *)
Fixpoint try_catch {A : Type} (p : Prog A) (h : string -> Prog A) : Prog A :=
  match p with
  | Ret a => Ret a
  | Throw m => h m
  | Vis e k => Vis e (fun x => try_catch (k x) h)
  end.

Notation "x <- p ;; k" := (bind p (fun x => k))
  (at level 20, p at level 99, k at level 200, only parsing).
Notation "' pat <- p ;; k" := (bind p (fun x => match x with pat => k end))
  (at level 20, pat pattern, p at level 99, k at level 200, only parsing).

(** A program none of whose paths ends in [Throw]. *)
Inductive never_throws {A : Type} : Prog A -> Prop :=
| nt_ret (a : A) : never_throws (Ret a)
| nt_vis {X : Type} (e : Eff X) (k : X -> Prog A) :
    (forall x, never_throws (k x)) -> never_throws (Vis e k).

Definition trigger {X : Type} (e : Eff X) : Prog X := Vis e Ret.

(** The [fs/promises] calls reject on failure. *)
Definition lift_fs {A : Type} (e : Eff (FsResult A)) : Prog A :=
  r <- trigger e ;;
  match r with
  | FsOk a => Ret a
  | FsError m => Throw m
  end.

Definition readFile (path : string) : Prog string := lift_fs (ReadFile path).
Definition appendFile (path data : string) : Prog unit := lift_fs (AppendFile path data).
Definition writeFile (path data : string) : Prog unit := lift_fs (WriteFile path data).

(** ** Worlds, runs and traces *)

Inductive Event : Type :=
| EvExec (command : string) (timeout : N) (o : ExecOutcome)
| EvRead (path : string) (r : FsResult string)
| EvAppend (path data : string) (r : FsResult unit)
| EvWrite (path data : string) (r : FsResult unit).

Definition event_of {X : Type} (e : Eff X) : X -> Event :=
  match e in Eff X return X -> Event with
  | ExecAsync c t => EvExec c t
  | ReadFile p => EvRead p
  | AppendFile p d => EvAppend p d
  | WriteFile p d => EvWrite p d
  end.

Inductive Outcome (A : Type) : Type :=
| Returned (a : A)
| Thrown (message : string).
Arguments Returned {A} a.
Arguments Thrown {A} message.

(** The files on disk, the paths that refuse a write, the paths that refuse
    a read, and the rest of the machine. *)
Record World (Sys : Type) : Type := mkWorld {
  files : gmap string string;
  write_protected : gset string;
  read_protected : gset string;
  sys : Sys;
}.
Arguments mkWorld {Sys} files write_protected read_protected sys.
Arguments files {Sys} w.
Arguments write_protected {Sys} w.
Arguments read_protected {Sys} w.
Arguments sys {Sys} w.

(** The value of an outcome, when there is one. *)
Definition outcome_value {A : Type} (o : Outcome A) : option A :=
  match o with
  | Returned a => Some a
  | Thrown _ => None
  end.

Section Run.

Context {Sys : Type}.

(** What the operating system does with a shell command given a timeout in
    milliseconds: any function of the whole world. *)
Variable os_exec : string -> N -> World Sys -> ExecOutcome * World Sys.

Definition set_file (path content : string) (w : World Sys) : World Sys :=
  mkWorld (<[path := content]> (files w)) (write_protected w) (read_protected w) (sys w).

(** A read fails for a file that is not there and for one that may not be
    read; appending and writing need no permission to read. *)
Definition handle {X : Type} (e : Eff X) : World Sys -> X * World Sys :=
  match e in Eff X return World Sys -> X * World Sys with
  | ExecAsync c t => os_exec c t
  | ReadFile p => fun w =>
      match files w !! p with
      | Some content =>
          if decide (p ∈ read_protected w)
          then (FsError ("EACCES: permission denied, open '" +:+ p +:+ "'"), w)
          else (FsOk content, w)
      | None => (FsError ("ENOENT: no such file or directory, open '" +:+ p +:+ "'"), w)
      end
  | AppendFile p d => fun w =>
      if decide (p ∈ write_protected w)
      then (FsError ("EACCES: permission denied, open '" +:+ p +:+ "'"), w)
      else (FsOk tt, set_file p (default EmptyString (files w !! p) +:+ d) w)
  | WriteFile p d => fun w =>
      if decide (p ∈ write_protected w)
      then (FsError ("EACCES: permission denied, open '" +:+ p +:+ "'"), w)
      else (FsOk tt, set_file p d w)
  end.

(** One sequential run: the outcome, the world it leaves and the effects
    performed, oldest first. *)
Fixpoint run {A : Type} (p : Prog A) (w : World Sys)
  : Outcome A * World Sys * list Event :=
  match p with
  | Ret a => (Returned a, w, [])
  | Throw m => (Thrown m, w, [])
  | Vis e k =>
      let '(x, w1) := handle e w in
      let '(o, w2, tr) := run (k x) w1 in
      (o, w2, event_of e x :: tr)
  end.

Definition outcome {A : Type} (p : Prog A) (w : World Sys) : Outcome A :=
  (run p w).1.1.
Definition world_after {A : Type} (p : Prog A) (w : World Sys) : World Sys :=
  (run p w).1.2.
Definition trace {A : Type} (p : Prog A) (w : World Sys) : list Event :=
  (run p w).2.

End Run.

(** ** The process environment

    [process.platform] and the environment variables the code reads. *)
Record Process : Type := mkProcess {
  platform : string;
  env_SHELL : option string;
  env_HOME : option string;
  env_USERPROFILE : option string;
  env_NVM_DIR : option string;
}.

Definition nl : string := String "010"%char EmptyString.
Definition dquote : string := String (ascii_of_nat 34) EmptyString.

(** ** utils/shell.ts *)

Module Shell.

Record CommandResult : Type := mkCommandResult {
  stdout : string;
  stderr : string;
  success : bool;
  error : option string;
}.

(** [options?.timeout || 60000] *)
Definition timeout_or_default (timeout : option N) : N :=
  match timeout with
  | Some t => if N.eqb t 0 then 60000%N else t
  | None => 60000%N
  end.

(** No caller passes [options.cwd]; the option is left out. *)
Definition executeCommand (command : string) (timeout : option N)
  : Prog CommandResult :=
  o <- trigger (ExecAsync command (timeout_or_default timeout)) ;;
  match o with
  | ExecResolved out err =>
      Ret {| stdout := trim out; stderr := trim err; success := true;
             error := None |}
  | ExecRejected out err message =>
      Ret {| stdout := or_else (trim <$> out) EmptyString;
             stderr := or_else (trim <$> err) EmptyString;
             success := false;
             error := Some message |}
  end.

Definition commandExists (command : string) : Prog bool :=
  result <- executeCommand ("which " +:+ command) None ;;
  Ret (success result && Nat.ltb 0 (String.length (stdout result))).

Definition getCommandVersion (command versionFlag : string)
  : Prog (option string) :=
  result <- executeCommand (command +:+ " " +:+ versionFlag) None ;;
  if success result then Ret (Some (first_line (stdout result)))
  else Ret None.

Section WithProcess.

Variable proc : Process.

Definition isMacOS : bool := String.eqb (platform proc) "darwin".
Definition isLinux : bool := String.eqb (platform proc) "linux".
Definition isWindows : bool := String.eqb (platform proc) "win32".
Definition isSupported : bool := isMacOS || isLinux.

Definition getHomeDirectory : string :=
  or_else (env_HOME proc) (or_else (env_USERPROFILE proc) "~").

Definition getShellConfigPath : string :=
  let shell := or_else (env_SHELL proc) EmptyString in
  let home := getHomeDirectory in
  if includes shell "zsh" then home +:+ "/.zshrc"
  else if includes shell "bash" then
    if isMacOS then home +:+ "/.bash_profile"
    else home +:+ "/.bashrc"
  else home +:+ "/.profile".

End WithProcess.

End Shell.

(** ** core/package-manager.ts *)

Module PackageMgr.

Import Shell.

Inductive OperatingSystem : Type := MACOS | LINUX | WINDOWS | UNKNOWN_OS.

Inductive PackageManager : Type :=
  HOMEBREW | APT | DNF | YUM | PACMAN | ZYPPER | UNKNOWN.

(** The string value of each member of the enum. *)
Definition PackageManager_value (m : PackageManager) : string :=
  match m with
  | HOMEBREW => "homebrew"
  | APT => "apt"
  | DNF => "dnf"
  | YUM => "yum"
  | PACMAN => "pacman"
  | ZYPPER => "zypper"
  | UNKNOWN => "unknown"
  end.

Record PackageManagerInfo : Type := mkPackageManagerInfo {
  name : PackageManager;
  command : string;
  installCmd : string;
  updateCmd : string;
  searchCmd : string;
  available : bool;
}.

Definition set_available (b : bool) (m : PackageManagerInfo) : PackageManagerInfo :=
  {| name := name m; command := command m; installCmd := installCmd m;
     updateCmd := updateCmd m; searchCmd := searchCmd m; available := b |}.

Definition detectOS (proc : Process) : OperatingSystem :=
  let platform := platform proc in
  if String.eqb platform "darwin" then MACOS
  else if String.eqb platform "linux" then LINUX
  else if String.eqb platform "win32" then WINDOWS
  else UNKNOWN_OS.

Definition checkPackageManager (manager : PackageManager) (command : string)
  : Prog bool :=
  commandExists command.

(** The table local to [detectPackageManager]. *)
Definition managers : gmap string PackageManagerInfo :=
  list_to_map [
    ("homebrew", {| name := HOMEBREW; command := "brew";
                    installCmd := "brew install";
                    updateCmd := "brew update && brew upgrade";
                    searchCmd := "brew search"; available := false |});
    ("apt", {| name := APT; command := "apt-get";
               installCmd := "sudo apt-get install -y";
               updateCmd := "sudo apt-get update && sudo apt-get upgrade -y";
               searchCmd := "apt-cache search"; available := false |});
    ("dnf", {| name := DNF; command := "dnf";
               installCmd := "sudo dnf install -y";
               updateCmd := "sudo dnf update -y";
               searchCmd := "dnf search"; available := false |});
    ("yum", {| name := YUM; command := "yum";
               installCmd := "sudo yum install -y";
               updateCmd := "sudo yum update -y";
               searchCmd := "yum search"; available := false |});
    ("pacman", {| name := PACMAN; command := "pacman";
                  installCmd := "sudo pacman -S --noconfirm";
                  updateCmd := "sudo pacman -Syu --noconfirm";
                  searchCmd := "pacman -Ss"; available := false |});
    ("zypper", {| name := ZYPPER; command := "zypper";
                  installCmd := "sudo zypper install -y";
                  updateCmd := "sudo zypper update -y";
                  searchCmd := "zypper search"; available := false |})
  ].

Definition checkOrder (os : OperatingSystem) : list string :=
  match os with
  | MACOS => ["homebrew"]
  | LINUX => ["apt"; "dnf"; "yum"; "pacman"; "zypper"]
  | _ => []
  end.

(** The [for (const managerName of checkOrder)] loop.  Reading a field of
    an entry the table does not have is a [TypeError]. *)
Fixpoint detect_loop (order : list string) : Prog (option PackageManagerInfo) :=
  match order with
  | [] => Ret None
  | managerName :: rest =>
      match managers !! managerName with
      | None => Throw "Cannot read properties of undefined (reading 'name')"
      | Some manager =>
          available <- checkPackageManager (name manager) (command manager) ;;
          if available then Ret (Some (set_available true manager))
          else detect_loop rest
      end
  end.

Definition detectPackageManager (proc : Process)
  : Prog (option PackageManagerInfo) :=
  let os := detectOS proc in
  detect_loop (checkOrder os).

Definition needsPackageManagerInstall (os : OperatingSystem) : bool :=
  match os with MACOS => true | _ => false end.

Definition getPackageManagerInstallCommand (os : OperatingSystem)
  : option string :=
  match os with
  | MACOS =>
      Some ("/bin/bash -c " +:+ dquote +:+
            "$(curl -fsSL https://raw.githubusercontent.com/Homebrew/install/HEAD/install.sh)"
            +:+ dquote)
  | _ => None
  end.

(** The object that [installPackage] returns. *)
Module PackageResult.
Record t : Type := mk {
  success : bool;
  message : string;
  details : option string;
}.
End PackageResult.

(** [packageManager || (await detectPackageManager())] *)
Definition installPackage (proc : Process) (packageName : string)
    (packageManager : option PackageManagerInfo) : Prog PackageResult.t :=
  pm <- match packageManager with
        | Some pm => Ret (Some pm)
        | None => detectPackageManager proc
        end ;;
  match pm with
  | None =>
      Ret {| PackageResult.success := false;
             PackageResult.message := "No package manager detected on this system";
             PackageResult.details := None |}
  | Some pm =>
      let command := installCmd pm +:+ " " +:+ packageName in
      result <- executeCommand command (Some 600000%N) ;;
      Ret {| PackageResult.success := success result;
             PackageResult.message :=
               if success result
               then "Successfully installed " +:+ packageName +:+ " using "
                    +:+ PackageManager_value (name pm)
               else "Failed to install " +:+ packageName;
             PackageResult.details :=
               if success result then Some (stdout result)
               else Some (or_else (error result) (stderr result)) |}
  end.

End PackageMgr.

(** ** core/tool-config.ts *)

Module ToolCfg.

Import PackageMgr.

Inductive ToolCategory : Type :=
  LANGUAGE | RUNTIME | SDK | PACKAGE_MANAGER | VERSION_MANAGER.

Record InstallMethod : Type := mkInstallMethod {
  packageManager : PackageManager;
  packageName : string;
  alternativeCommands : option (list string);
  postInstallSteps : option (list string);
}.

Record ToolConfig : Type := mkToolConfig {
  name : string;
  displayName : string;
  category : ToolCategory;
  description : string;
  commandToCheck : string;
  versionFlag : string;
  installMethods : gmap string InstallMethod;
  manualInstallUrl : option string;
  envVars : option (list (string * string));
  shellConfig : option string;
}.

(** A [Record<string, ToolConfig>] written as an object literal: its
    entries in definition order, no key twice. *)
Abbreviation Catalog := (list (string * ToolConfig)).

Definition plain (pm : PackageManager) (pkg : string) : InstallMethod :=
  mkInstallMethod pm pkg None None.
Definition with_alternatives (pm : PackageManager) (pkg : string)
    (alts : list string) : InstallMethod :=
  mkInstallMethod pm pkg (Some alts) None.
Definition with_post_install (pm : PackageManager) (pkg : string)
    (steps : list string) : InstallMethod :=
  mkInstallMethod pm pkg None (Some steps).

Definition docker_steps : list string :=
  ["sudo systemctl start docker"; "sudo systemctl enable docker";
   "sudo usermod -aG docker $USER"].

Definition flutter_clone : list string :=
  ["git clone https://github.com/flutter/flutter.git -b stable $HOME/development/flutter"].

Definition TOOL_CONFIGS : Catalog := [
  ("python",
   {| name := "python"; displayName := "Python"; category := LANGUAGE;
      description := "Python programming language";
      commandToCheck := "python3"; versionFlag := "--version";
      installMethods := list_to_map [
        ("homebrew", with_post_install HOMEBREW "python@3"
                       ["python3 -m ensurepip --upgrade"]);
        ("apt", plain APT "python3 python3-pip python3-venv");
        ("dnf", plain DNF "python3 python3-pip");
        ("yum", plain YUM "python3 python3-pip");
        ("pacman", plain PACMAN "python python-pip");
        ("zypper", plain ZYPPER "python3 python3-pip")];
      manualInstallUrl := None; envVars := None; shellConfig := None |});
  ("nodejs",
   {| name := "nodejs"; displayName := "Node.js"; category := RUNTIME;
      description := "JavaScript runtime";
      commandToCheck := "node"; versionFlag := "--version";
      installMethods := list_to_map [
        ("homebrew", plain HOMEBREW "node");
        ("apt", with_alternatives APT "nodejs npm"
                  ["curl -fsSL https://deb.nodesource.com/setup_lts.x | sudo -E bash -";
                   "sudo apt-get install -y nodejs"]);
        ("dnf", plain DNF "nodejs npm");
        ("yum", with_alternatives YUM "nodejs npm"
                  ["curl -fsSL https://rpm.nodesource.com/setup_lts.x | sudo bash -";
                   "sudo yum install -y nodejs"]);
        ("pacman", plain PACMAN "nodejs npm");
        ("zypper", plain ZYPPER "nodejs npm")];
      manualInstallUrl := None; envVars := None; shellConfig := None |});
  ("git",
   {| name := "git"; displayName := "Git"; category := PACKAGE_MANAGER;
      description := "Version control system";
      commandToCheck := "git"; versionFlag := "--version";
      installMethods := list_to_map [
        ("homebrew", plain HOMEBREW "git");
        ("apt", plain APT "git");
        ("dnf", plain DNF "git");
        ("yum", plain YUM "git");
        ("pacman", plain PACMAN "git");
        ("zypper", plain ZYPPER "git")];
      manualInstallUrl := None; envVars := None; shellConfig := None |});
  ("docker",
   {| name := "docker"; displayName := "Docker"; category := RUNTIME;
      description := "Container platform";
      commandToCheck := "docker"; versionFlag := "--version";
      installMethods := list_to_map [
        ("homebrew", plain HOMEBREW "--cask docker");
        ("apt", with_post_install APT "docker.io docker-compose" docker_steps);
        ("dnf", with_post_install DNF "docker docker-compose" docker_steps);
        ("yum", with_post_install YUM "docker docker-compose" docker_steps);
        ("pacman", with_post_install PACMAN "docker docker-compose" docker_steps);
        ("zypper", with_post_install ZYPPER "docker docker-compose" docker_steps)];
      manualInstallUrl := Some "https://docs.docker.com/engine/install/";
      envVars := None; shellConfig := None |});
  ("java",
   {| name := "java"; displayName := "Java"; category := LANGUAGE;
      description := "Java Development Kit";
      commandToCheck := "java"; versionFlag := "-version";
      installMethods := list_to_map [
        ("homebrew", with_post_install HOMEBREW "openjdk@17"
           ["sudo ln -sfn /opt/homebrew/opt/openjdk@17/libexec/openjdk.jdk /Library/Java/JavaVirtualMachines/openjdk-17.jdk"]);
        ("apt", plain APT "openjdk-17-jdk");
        ("dnf", plain DNF "java-17-openjdk-devel");
        ("yum", plain YUM "java-17-openjdk-devel");
        ("pacman", plain PACMAN "jdk17-openjdk");
        ("zypper", plain ZYPPER "java-17-openjdk-devel")];
      manualInstallUrl := None;
      envVars := Some [("JAVA_HOME", "/usr/lib/jvm/java-17-openjdk")];
      shellConfig := None |});
  ("go",
   {| name := "go"; displayName := "Go"; category := LANGUAGE;
      description := "Go programming language";
      commandToCheck := "go"; versionFlag := "version";
      installMethods := list_to_map [
        ("homebrew", plain HOMEBREW "go");
        ("apt", plain APT "golang");
        ("dnf", plain DNF "golang");
        ("yum", plain YUM "golang");
        ("pacman", plain PACMAN "go");
        ("zypper", plain ZYPPER "go")];
      manualInstallUrl := None;
      envVars := Some [("GOPATH", "$HOME/go"); ("PATH", "$PATH:$GOPATH/bin")];
      shellConfig := None |});
  ("rust",
   {| name := "rust"; displayName := "Rust"; category := LANGUAGE;
      description := "Rust programming language";
      commandToCheck := "rustc"; versionFlag := "--version";
      installMethods := list_to_map [
        ("homebrew", plain HOMEBREW "rust");
        ("apt", with_alternatives APT "curl build-essential"
                  ["curl --proto " +:+ dquote +:+ "=https" +:+ dquote +:+
                   " --tlsv1.2 -sSf https://sh.rustup.rs | sh -s -- -y"]);
        ("dnf", plain DNF "rust cargo");
        ("yum", plain YUM "rust cargo");
        ("pacman", plain PACMAN "rust");
        ("zypper", plain ZYPPER "rust cargo")];
      manualInstallUrl := None; envVars := None;
      shellConfig := Some "source $HOME/.cargo/env" |});
  ("flutter",
   {| name := "flutter"; displayName := "Flutter"; category := SDK;
      description := "Flutter SDK for mobile development";
      commandToCheck := "flutter"; versionFlag := "--version";
      installMethods := list_to_map [
        ("homebrew", plain HOMEBREW "--cask flutter");
        ("apt", with_alternatives APT "git curl unzip" flutter_clone);
        ("dnf", with_alternatives DNF "git curl unzip" flutter_clone);
        ("yum", with_alternatives YUM "git curl unzip" flutter_clone);
        ("pacman", plain PACMAN "flutter");
        ("zypper", with_alternatives ZYPPER "git curl unzip" flutter_clone)];
      manualInstallUrl := Some "https://flutter.dev/docs/get-started/install";
      envVars := Some [("PATH", "$PATH:$HOME/development/flutter/bin")];
      shellConfig := None |})
].

(** What reading a property of the catalog finds: an entry of the object
    literal, or a member that every object inherits from
    [Object.prototype].  Such a member has none of the fields of a tool but
    [name], which the code reads: the name of the function, and nothing
    for [__proto__], whose value is the prototype itself. *)
Inductive Property : Type :=
| Own (config : ToolConfig)
| Inherited (fname : option string).

(** The members of [Object.prototype], each with the [name] of its
    value. *)
Definition Object_prototype : list (string * option string) :=
  [("constructor", Some "Object");
   ("__defineGetter__", Some "__defineGetter__");
   ("__defineSetter__", Some "__defineSetter__");
   ("hasOwnProperty", Some "hasOwnProperty");
   ("__lookupGetter__", Some "__lookupGetter__");
   ("__lookupSetter__", Some "__lookupSetter__");
   ("isPrototypeOf", Some "isPrototypeOf");
   ("propertyIsEnumerable", Some "propertyIsEnumerable");
   ("toString", Some "toString");
   ("valueOf", Some "valueOf");
   ("__proto__", None);
   ("toLocaleString", Some "toLocaleString")].

(** The entry of the object literal under a key. *)
Fixpoint own_property (catalog : Catalog) (key : string) : option ToolConfig :=
  match catalog with
  | [] => None
  | (k, config) :: rest =>
      if String.eqb k key then Some config
      else own_property rest key
  end.

Definition inherited (key : string) : option (option string) :=
  snd <$> List.find (fun member => String.eqb (fst member) key) Object_prototype.

(** [catalog[toolName]]: the own entry first, then the prototype. *)
Definition getToolConfig (catalog : Catalog) (toolName : string)
  : option Property :=
  match own_property catalog toolName with
  | Some config => Some (Own config)
  | None => Inherited <$> inherited toolName
  end.

(** The name is found, but only through the prototype. *)
Definition finds_inherited (catalog : Catalog) (toolName : string) : bool :=
  match getToolConfig catalog toolName with
  | Some (Inherited _) => true
  | _ => false
  end.

(** [Object.keys(catalog)] *)
Definition getAllToolNames (catalog : Catalog) : list string :=
  fst <$> catalog.

Definition ToolCategory_eqb (a b : ToolCategory) : bool :=
  match a, b with
  | LANGUAGE, LANGUAGE | RUNTIME, RUNTIME | SDK, SDK
  | PACKAGE_MANAGER, PACKAGE_MANAGER | VERSION_MANAGER, VERSION_MANAGER => true
  | _, _ => false
  end.

(** [Object.values(catalog).filter(...)] *)
Definition getToolsByCategory (catalog : Catalog) (c : ToolCategory)
  : list ToolConfig :=
  filter (fun tool => ToolCategory_eqb (category tool) c = true) (snd <$> catalog).

End ToolCfg.

(** ** Promise.all

    The promises of a list of asynchronous calls that are all in flight.
    Each call has run up to its first pending effect; a schedule names, one
    at a time, the call whose pending effect completes next (an index that
    names no pending call is skipped).  Results are kept by position. *)

Module Promise.

Section All.

Context {Sys : Type} {A : Type}.
Variable os_exec : string -> N -> World Sys -> ExecOutcome * World Sys.

Record Pool : Type := mkPool {
  tasks : list (Prog A);
  rejection : option string;
  world : World Sys;
  events : list Event;
}.

Definition thrown (p : Prog A) : option string :=
  match p with
  | Throw m => Some m
  | _ => None
  end.

Fixpoint first_thrown (ts : list (Prog A)) : option string :=
  match ts with
  | [] => None
  | t :: rest =>
      match thrown t with
      | Some m => Some m
      | None => first_thrown rest
      end
  end.

(** The array of values, once every promise is fulfilled. *)
Fixpoint fulfilled (ts : list (Prog A)) : option (list A) :=
  match ts with
  | [] => Some []
  | Ret a :: rest => cons a <$> fulfilled rest
  | _ :: _ => None
  end.

Definition settle (pool : Pool) (i : nat) : Pool :=
  match tasks pool !! i with
  | Some (Vis e k) =>
      let '(x, w1) := handle os_exec e (world pool) in
      let t := k x in
      {| tasks := <[i := t]> (tasks pool);
         rejection := match rejection pool with
                      | Some m => Some m
                      | None => thrown t
                      end;
         world := w1;
         events := events pool ++ [event_of e x] |}
  | _ => pool
  end.

Definition start (ts : list (Prog A)) (w : World Sys) : Pool :=
  {| tasks := ts; rejection := first_thrown ts; world := w; events := [] |}.

(** [Some] once the combined promise is settled: rejected with the first
    rejection, or fulfilled with every value in input order. *)
Definition settled (pool : Pool) : option (Outcome (list A)) :=
  match rejection pool with
  | Some m => Some (Thrown m)
  | None => Returned <$> fulfilled (tasks pool)
  end.

Definition all (ts : list (Prog A)) (schedule : list nat) (w : World Sys)
  : option (Outcome (list A)) * World Sys * list Event :=
  let pool := fold_left settle schedule (start ts w) in
  (settled pool, world pool, events pool).

End All.

End Promise.

(** ** Schedules and budgets *)

(** How many times index [i] is named by a schedule. *)
Fixpoint turns (i : nat) (schedule : list nat) : nat :=
  match schedule with
  | [] => 0
  | j :: rest => (if Nat.eqb i j then 1 else 0) + turns i rest
  end.

(** Whatever the answers, the program returns a value that satisfies [P]
    after at most [n] effects, and never throws. *)
Fixpoint yields {A : Type} (P : A -> Prop) (n : nat) (p : Prog A) {struct p} : Prop :=
  match p with
  | Ret a => P a
  | Throw _ => False
  | Vis e k =>
      match n with
      | 0 => False
      | S n' => forall x, yields P n' (k x)
      end
  end.

(** ** validators/environment-validator.ts *)

Module Validator.

Import Shell ToolCfg.

(** A status built from an inherited member has no display name and, for
    [__proto__], no name. *)
Record ToolStatus : Type := mkToolStatus {
  name : option string;
  displayName : option string;
  installed : bool;
  version : option string;
  path : option string;
}.

Section WithCatalog.

Variable catalog : Catalog.

Definition checkToolInstalled (toolName : string) : Prog ToolStatus :=
  match getToolConfig catalog toolName with
  | None =>
      Ret {| name := Some toolName; displayName := Some toolName; installed := false;
             version := None; path := None |}
  | Some (Own toolConfig) =>
      installed <- commandExists (commandToCheck toolConfig) ;;
      version <- (if installed
                  then getCommandVersion (commandToCheck toolConfig)
                                         (versionFlag toolConfig)
                  else Ret None) ;;
      Ret {| name := Some (ToolCfg.name toolConfig);
             displayName := Some (ToolCfg.displayName toolConfig);
             installed := installed;
             version := if truthy version then version else None;
             path := None |}
  | Some (Inherited fname) =>
      (* [commandToCheck] and [versionFlag] are undefined: the probe is of
         the word the template makes of it, the flag is the default *)
      installed <- commandExists undefined ;;
      version <- (if installed
                  then getCommandVersion undefined "--version"
                  else Ret None) ;;
      Ret {| name := fname;
             displayName := None;
             installed := installed;
             version := if truthy version then version else None;
             path := None |}
  end.

Section Concurrent.

Context {Sys : Type}.
Variable os_exec : string -> N -> World Sys -> ExecOutcome * World Sys.

(** [await Promise.all(toolNames.map((name) => checkToolInstalled(name)))] *)
Definition checkMultipleTools (toolNames : list string) (schedule : list nat)
    (w : World Sys) : option (Outcome (list ToolStatus)) * World Sys * list Event :=
  Promise.all os_exec (checkToolInstalled <$> toolNames) schedule w.

Definition checkAllTools (schedule : list nat) (w : World Sys)
  : option (Outcome (list ToolStatus)) * World Sys * list Event :=
  let toolNames := getAllToolNames catalog in
  checkMultipleTools toolNames schedule w.

End Concurrent.

End WithCatalog.

(** *** Aggregate questions *)

Module PackageManagerSummary.
Record t : Type := mk {
  name : PackageMgr.PackageManager;
  available : bool;
}.
End PackageManagerSummary.

(** [process.arch], which nothing else reads, is a field of the status
    only; it is passed to [getSystemStatus]. *)
Module SystemStatus.
Record t : Type := mk {
  os : PackageMgr.OperatingSystem;
  platform : string;
  arch : string;
  packageManager : option PackageManagerSummary.t;
  tools : list ToolStatus;
}.
End SystemStatus.

Module SystemReady.
Record t : Type := mk {
  ready : bool;
  missing : list (option string);
  installed : list (option string);
}.
End SystemReady.

(** The loop of [isSystemReady] over the statuses, from the two lists
    collected so far. *)
Fixpoint sort_statuses (toolStatuses : list ToolStatus)
    (installed_names missing_names : list (option string))
  : list (option string) * list (option string) :=
  match toolStatuses with
  | [] => (installed_names, missing_names)
  | status :: rest =>
      if installed status
      then sort_statuses rest (installed_names ++ [name status]) missing_names
      else sort_statuses rest installed_names (missing_names ++ [name status])
  end.

Definition readiness (toolStatuses : list ToolStatus) : SystemReady.t :=
  let '(installed_names, missing_names) := sort_statuses toolStatuses [] [] in
  {| SystemReady.ready := Nat.eqb (length missing_names) 0;
     SystemReady.missing := missing_names;
     SystemReady.installed := installed_names |}.

(** [notInstalled.some((t) => t.name === toolName)] *)
Definition some_named (toolName : string) (notInstalled : list ToolStatus) : bool :=
  existsb (fun t => match name t with
                    | Some n => String.eqb n toolName
                    | None => false
                    end) notInstalled.

Definition getRecommendations (status : SystemStatus.t) : list string :=
  let recommendations := [] in
  let recommendations :=
    if defined (SystemStatus.packageManager status) then recommendations
    else recommendations
           ++ ["Install a package manager to easily manage development tools"] in
  let notInstalled :=
    List.filter (fun tool => negb (installed tool)) (SystemStatus.tools status) in
  let recommendations :=
    if some_named "git" notInstalled
    then recommendations ++ ["Install Git for version control"]
    else recommendations in
  let recommendations :=
    if some_named "python" notInstalled
    then recommendations ++ ["Install Python for Python development"]
    else recommendations in
  let recommendations :=
    if some_named "nodejs" notInstalled
    then recommendations ++ ["Install Node.js for JavaScript/TypeScript development"]
    else recommendations in
  let recommendations :=
    if some_named "docker" notInstalled
    then recommendations ++ ["Install Docker for containerized development"]
    else recommendations in
  let recommendations :=
    if some_named "java" notInstalled
    then recommendations ++ ["Install Java for Java/Android development"]
    else recommendations in
  recommendations.

Section Aggregate.

Context {Sys : Type}.
Variable os_exec : string -> N -> World Sys -> ExecOutcome * World Sys.
Variable catalog : Catalog.
Variable proc : Process.

(** What awaiting a [Promise.all] gives to the code after it: the value,
    the error, or nothing yet. *)
Definition after_all {A B : Type} (f : A -> B)
    (r : option (Outcome A) * World Sys * list Event)
  : option (Outcome B) * World Sys * list Event :=
  match r with
  | (Some (Returned a), w, t) => (Some (Returned (f a)), w, t)
  | (Some (Thrown m), w, t) => (Some (Thrown m), w, t)
  | (None, w, t) => (None, w, t)
  end.

Definition isSystemReady (requiredTools : list string) (schedule : list nat)
    (w : World Sys) : option (Outcome SystemReady.t) * World Sys * list Event :=
  after_all readiness (checkMultipleTools catalog os_exec requiredTools schedule w).

(** [detectPackageManager] is awaited before the checks start. *)
Definition getSystemStatus (arch : string) (schedule : list nat) (w : World Sys)
  : option (Outcome SystemStatus.t) * World Sys * list Event :=
  let os := PackageMgr.detectOS proc in
  match run os_exec (PackageMgr.detectPackageManager proc) w with
  | (Thrown m, w1, t1) => (Some (Thrown m), w1, t1)
  | (Returned packageManager, w1, t1) =>
      let '(r, w2, t2) :=
        after_all
          (fun tools =>
             {| SystemStatus.os := os;
                SystemStatus.platform := platform proc;
                SystemStatus.arch := arch;
                SystemStatus.packageManager :=
                  match packageManager with
                  | Some pm =>
                      Some {| PackageManagerSummary.name := PackageMgr.name pm;
                              PackageManagerSummary.available := PackageMgr.available pm |}
                  | None => None
                  end;
                SystemStatus.tools := tools |})
          (checkAllTools catalog os_exec schedule w1) in
      (r, w2, t1 ++ t2)
  end.

End Aggregate.

End Validator.

(** ** installers/unified-installer.ts *)

Module Installer.

Import Shell PackageMgr ToolCfg.

Record InstallResult : Type := mkInstallResult {
  success : bool;
  message : string;
  details : option string;
  needsRestart : option bool;
}.

Section WithCatalog.

Variable catalog : Catalog.
Variable proc : Process.

(** The outer handler logs the error to the console and returns false. *)
Definition configureShellEnvironment (toolConfig : ToolConfig) : Prog bool :=
  let shellConfigPath := getShellConfigPath proc in
  let configContent := EmptyString in
  let configContent :=
    match envVars toolConfig with
    | Some vars =>
        fold_left
          (fun acc '(key, value) =>
             acc +:+ "export " +:+ key +:+ "=" +:+ dquote +:+ value +:+ dquote +:+ nl)
          vars
          (configContent +:+ nl +:+ "# " +:+ displayName toolConfig
             +:+ " Configuration" +:+ nl)
    | None => configContent
    end in
  let configContent :=
    if truthy (shellConfig toolConfig)
    then configContent +:+ or_else (shellConfig toolConfig) EmptyString +:+ nl
    else configContent in
  if String.eqb configContent EmptyString then Ret false
  else
    try_catch
      (existingContent <-
         try_catch (readFile shellConfigPath) (fun _ => Ret EmptyString) ;;
       if includes existingContent
            ("# " +:+ displayName toolConfig +:+ " Configuration")
       then Ret false
       else
         _ <- appendFile shellConfigPath configContent ;;
         Ret true)
      (fun _ => Ret false).

(** The loop over [installMethod.alternativeCommands], from
    [installSuccess = false] and [installDetails = '']. *)
Fixpoint try_alternatives (alts : list string) : Prog (bool * string) :=
  match alts with
  | [] => Ret (false, EmptyString)
  | altCmd :: rest =>
      altResult <- executeCommand altCmd (Some 600000%N) ;;
      if Shell.success altResult then Ret (true, stdout altResult)
      else try_alternatives rest
  end.

(** The loop over [installMethod.postInstallSteps]. *)
Fixpoint run_steps (steps : list string) : Prog unit :=
  match steps with
  | [] => Ret tt
  | step :: rest =>
      _ <- executeCommand step (Some 120000%N) ;;
      run_steps rest
  end.

Definition installTool (toolName : string) (options : option (option string))
  : Prog InstallResult :=
  match getToolConfig catalog toolName with
  | None =>
      Ret {| success := false; message := "Unknown tool: " +:+ toolName;
             details := None; needsRestart := None |}
  | Some (Inherited _) =>
    (* every field the code reads of such a value is undefined, and reading
       an install method of the undefined [installMethods] throws, before
       the [try] is entered *)
    alreadyInstalled <- commandExists undefined ;;
    if alreadyInstalled then
      Ret {| success := true;
             message := undefined +:+ " is already installed";
             details := None; needsRestart := None |}
    else
    packageManager <- detectPackageManager proc ;;
    match packageManager with
    | None =>
        Ret {| success := false;
               message := "No package manager available. Please install a package manager first.";
               details := None; needsRestart := None |}
    | Some packageManager =>
        Throw ("Cannot read properties of undefined (reading '"
               +:+ PackageManager_value (PackageMgr.name packageManager) +:+ "')")
    end
  | Some (Own toolConfig) =>
    alreadyInstalled <- commandExists (commandToCheck toolConfig) ;;
    if alreadyInstalled then
      Ret {| success := true;
             message := displayName toolConfig +:+ " is already installed";
             details := None; needsRestart := None |}
    else
    packageManager <- detectPackageManager proc ;;
    match packageManager with
    | None =>
        Ret {| success := false;
               message := "No package manager available. Please install a package manager first.";
               details := None; needsRestart := None |}
    | Some packageManager =>
      match installMethods toolConfig
              !! PackageManager_value (PackageMgr.name packageManager) with
      | None =>
          Ret {| success := false;
                 message := displayName toolConfig
                            +:+ " installation not supported on "
                            +:+ PackageManager_value (PackageMgr.name packageManager);
                 details := if truthy (manualInstallUrl toolConfig)
                            then Some ("Please install manually: "
                                       +:+ or_else (manualInstallUrl toolConfig) EmptyString)
                            else None;
                 needsRestart := None |}
      | Some installMethod =>
        try_catch
          (let packageCmd :=
             installCmd packageManager +:+ " " +:+ packageName installMethod in
           packageResult <- executeCommand packageCmd (Some 600000%N) ;;
           '(installSuccess, installDetails) <-
             (if Shell.success packageResult
              then Ret (true, stdout packageResult)
              else match alternativeCommands installMethod with
                   | Some alts => try_alternatives alts
                   | None => Ret (false, EmptyString)
                   end) ;;
           if negb installSuccess then
             Ret {| success := false;
                    message := "Failed to install " +:+ displayName toolConfig;
                    details := Some (or_else (error packageResult)
                                             (stderr packageResult));
                    needsRestart := None |}
           else
           _ <- match postInstallSteps installMethod with
                | Some steps => run_steps steps
                | None => Ret tt
                end ;;
           needsRestart <-
             (if truthy (shellConfig toolConfig) || defined (envVars toolConfig)
              then configureShellEnvironment toolConfig
              else Ret false) ;;
           verified <- commandExists (commandToCheck toolConfig) ;;
           if verified || needsRestart then
             Ret {| success := true;
                    message := displayName toolConfig +:+ " installed successfully";
                    details := Some installDetails;
                    needsRestart := Some needsRestart |}
           else
             Ret {| success := false;
                    message := displayName toolConfig
                               +:+ " installation completed but verification failed";
                    details := Some "The tool may require a shell restart to be available";
                    needsRestart := Some true |})
          (fun error_message =>
             Ret {| success := false;
                    message := "Error installing " +:+ displayName toolConfig
                               +:+ ": " +:+ error_message;
                    details := None; needsRestart := None |})
      end
    end
  end.

(** [results[key] = value] on an object that started as [{}], kept as the
    map of its own properties: the assignment adds or replaces the own
    property, except under the key [__proto__], where it replaces the
    prototype of the object and gives it no property. *)
Definition set_property (key : string) (value : InstallResult)
    (results : gmap string InstallResult) : gmap string InstallResult :=
  if String.eqb key "__proto__" then results else <[key := value]> results.

(** The loop of [installMultipleTools] from the results collected so
    far.  There is no [try] around the call: when [installTool] throws, the
    loop ends there and the whole call rejects. *)
Fixpoint install_loop (toolNames : list string)
    (results : gmap string InstallResult) : Prog (gmap string InstallResult) :=
  match toolNames with
  | [] => Ret results
  | toolName :: rest =>
      r <- installTool toolName None ;;
      install_loop rest (set_property toolName r results)
  end.

Definition installMultipleTools (toolNames : list string)
  : Prog (gmap string InstallResult) :=
  install_loop toolNames ∅.

Definition nvmConfig : string :=
  nl +:+ "# NVM Configuration" +:+ nl +:+
  "export NVM_DIR=" +:+ dquote +:+ "$HOME/.nvm" +:+ dquote +:+ nl +:+
  "[ -s " +:+ dquote +:+ "$NVM_DIR/nvm.sh" +:+ dquote +:+ " ] && \. "
    +:+ dquote +:+ "$NVM_DIR/nvm.sh" +:+ dquote +:+ nl +:+
  "[ -s " +:+ dquote +:+ "$NVM_DIR/bash_completion" +:+ dquote +:+ " ] && \. "
    +:+ dquote +:+ "$NVM_DIR/bash_completion" +:+ dquote +:+ nl.

Definition installNvm : Prog InstallResult :=
  nvmExists <- commandExists "nvm" ;;
  if nvmExists then
    Ret {| success := true; message := "nvm is already installed";
           details := None; needsRestart := None |}
  else
  let installCommand :=
    "curl -o- https://raw.githubusercontent.com/nvm-sh/nvm/v0.39.7/install.sh | bash" in
  result <- executeCommand installCommand (Some 120000%N) ;;
  let shellConfig := getShellConfigPath proc in
  _ <- try_catch
         (content <- readFile shellConfig ;;
          if negb (includes content "NVM_DIR")
          then appendFile shellConfig nvmConfig
          else Ret tt)
         (fun _ => writeFile shellConfig nvmConfig) ;;
  Ret {| success := true; message := "nvm installed successfully";
         details := Some (stdout result); needsRestart := Some true |}.

(** [installNodeViaTarget] with the program of its fallback branch
    ([return await installTool('nodejs')]) left open. *)
Definition installNodeViaTarget_with (fallback : Prog InstallResult)
    (version : option string) : Prog InstallResult :=
  let version := default "lts" version in
  nodeExists <- commandExists "node" ;;
  if nodeExists then
    Ret {| success := true; message := "Node.js is already installed";
           details := None; needsRestart := None |}
  else
  nvmExists <- commandExists "nvm" ;;
  let via_nvm :=
    let nvmDir := or_else (env_NVM_DIR proc) (getHomeDirectory proc +:+ "/.nvm") in
    let installCommand :=
      "bash -c " +:+ dquote +:+ "source " +:+ nvmDir +:+ "/nvm.sh && nvm install "
        +:+ version +:+ " && nvm use " +:+ version +:+ dquote in
    result <- executeCommand installCommand (Some 300000%N) ;;
    ok <- (if Shell.success result then Ret true else commandExists "node") ;;
    if ok then
      Ret {| success := true;
             message := "Node.js " +:+ version +:+ " installed successfully via nvm";
             details := Some (stdout result); needsRestart := None |}
    else
      Ret {| success := false; message := "Failed to install Node.js via nvm";
             details := Some (or_else (error result) (stderr result));
             needsRestart := None |} in
  if negb nvmExists then
    nvmResult <- installNvm ;;
    if negb (success nvmResult) then fallback else via_nvm
  else via_nvm.

Definition installNodeViaTarget (version : option string) : Prog InstallResult :=
  installNodeViaTarget_with (installTool "nodejs" None) version.

Definition installPackageManager : Prog InstallResult :=
  let os := detectOS proc in
  if negb (needsPackageManagerInstall os) then
    pm <- detectPackageManager proc ;;
    match pm with
    | Some pm =>
        Ret {| success := true;
               message := "Package manager " +:+ PackageManager_value (PackageMgr.name pm)
                          +:+ " is already available";
               details := None; needsRestart := None |}
    | None =>
        Ret {| success := false;
               message := "No package manager detected and none can be auto-installed for this OS";
               details := None; needsRestart := None |}
    end
  else
    existingPM <- detectPackageManager proc ;;
    match existingPM with
    | Some existingPM =>
        Ret {| success := true;
               message := PackageManager_value (PackageMgr.name existingPM)
                          +:+ " is already installed";
               details := None; needsRestart := None |}
    | None =>
        let installCmd := getPackageManagerInstallCommand os in
        if negb (truthy installCmd) then
          Ret {| success := false;
                 message := "Cannot determine package manager installation command";
                 details := None; needsRestart := None |}
        else
          result <- executeCommand (or_else installCmd EmptyString) (Some 600000%N) ;;
          pm <- detectPackageManager proc ;;
          match pm with
          | Some pm =>
              Ret {| success := true;
                     message := PackageManager_value (PackageMgr.name pm)
                                +:+ " installed successfully";
                     details := Some (stdout result);
                     needsRestart := Some true |}
          | None =>
              Ret {| success := false;
                     message := "Failed to install package manager";
                     details := Some (or_else (error result) (stderr result));
                     needsRestart := None |}
          end
    end.

Definition androidConfig : string :=
  nl +:+ "# Android Configuration" +:+ nl +:+
  "export ANDROID_HOME=$HOME/Library/Android/sdk" +:+ nl +:+
  "export PATH=$PATH:$ANDROID_HOME/emulator" +:+ nl +:+
  "export PATH=$PATH:$ANDROID_HOME/platform-tools" +:+ nl +:+
  "export PATH=$PATH:$ANDROID_HOME/cmdline-tools/latest/bin" +:+ nl.

(** The end of [installAndroidStudio], from the install command on. *)
Definition install_android_package (installCmd : string) : Prog InstallResult :=
  result <- executeCommand installCmd (Some 600000%N) ;;
  if negb (Shell.success result) then
    Ret {| success := false; message := "Failed to install Android Studio";
           details := Some (or_else (error result) (stderr result));
           needsRestart := None |}
  else
  let shellConfig := getShellConfigPath proc in
  _ <- try_catch
         (content <- readFile shellConfig ;;
          if negb (includes content "ANDROID_HOME")
          then appendFile shellConfig androidConfig
          else Ret tt)
         (fun _ => writeFile shellConfig androidConfig) ;;
  Ret {| success := true;
         message := "Android Studio installed successfully. Please:" +:+ nl +:+
                    "1. Open Android Studio" +:+ nl +:+
                    "2. Complete the setup wizard" +:+ nl +:+
                    "3. Install Android SDK via Android Studio";
         details := Some (stdout result);
         needsRestart := Some true |}.

(** [installAndroidStudio] after the Java prerequisite: the choice of the
    install command by operating system. *)
Definition choose_android_command (packageManager : PackageManagerInfo)
  : Prog InstallResult :=
  match detectOS proc with
  | MACOS =>
      install_android_package (installCmd packageManager +:+ " --cask android-studio")
  | LINUX =>
      snapExists <- commandExists "snap" ;;
      if snapExists
      then install_android_package "sudo snap install android-studio --classic"
      else
        Ret {| success := false;
               message := "Android Studio installation requires manual setup on this Linux distribution";
               details := Some "Please visit: https://developer.android.com/studio";
               needsRestart := None |}
  | _ => install_android_package EmptyString
  end.

Definition installAndroidStudio : Prog InstallResult :=
  packageManager <- detectPackageManager proc ;;
  match packageManager with
  | None =>
      Ret {| success := false; message := "No package manager available";
             details := None; needsRestart := None |}
  | Some packageManager =>
      javaInstalled <- commandExists "java" ;;
      if negb javaInstalled then
        javaResult <- installTool "java" None ;;
        if negb (success javaResult) then
          Ret {| success := false;
                 message := "Failed to install Java (required for Android development)";
                 details := details javaResult;
                 needsRestart := None |}
        else choose_android_command packageManager
      else choose_android_command packageManager
  end.

End WithCatalog.

End Installer.

(** ** Observing a run *)

Section Observations.

Context {Sys : Type}.
Variable os_exec : string -> N -> World Sys -> ExecOutcome * World Sys.

Import Shell.

(** The [CommandResult] that [executeCommand] builds from what [exec]
    settled to. *)
Definition command_result (o : ExecOutcome) : CommandResult :=
  match o with
  | ExecResolved out err =>
      {| stdout := trim out; stderr := trim err; success := true; error := None |}
  | ExecRejected out err message =>
      {| stdout := or_else (trim <$> out) EmptyString;
         stderr := or_else (trim <$> err) EmptyString;
         success := false; error := Some message |}
  end.

(** What [commandExists] answers from what [which] settled to. *)
Definition found (o : ExecOutcome) : bool :=
  success (command_result o) && Nat.ltb 0 (String.length (stdout (command_result o))).

Definition exec_outcome (command : string) (timeout : option N) (w : World Sys)
  : ExecOutcome :=
  (os_exec command (timeout_or_default timeout) w).1.
Definition exec_result (command : string) (timeout : option N) (w : World Sys)
  : CommandResult :=
  command_result (exec_outcome command timeout w).
Definition exec_world (command : string) (timeout : option N) (w : World Sys)
  : World Sys :=
  (os_exec command (timeout_or_default timeout) w).2.
Definition exec_event (command : string) (timeout : option N) (w : World Sys)
  : Event :=
  EvExec command (timeout_or_default timeout) (exec_outcome command timeout w).

Definition probe (command : string) (w : World Sys) : bool :=
  found (exec_outcome ("which " +:+ command) None w).
Definition probe_world (command : string) (w : World Sys) : World Sys :=
  exec_world ("which " +:+ command) None w.
Definition probe_event (command : string) (w : World Sys) : Event :=
  exec_event ("which " +:+ command) None w.


End Observations.

(** ** The steps of [installTool]

    Names for the worlds [installTool] passes through and for what its
    steps did, used to state what the whole call returns. *)

Section InstallSteps.

Context {Sys : Type}.
Variable os_exec : string -> N -> World Sys -> ExecOutcome * World Sys.
Variable catalog : ToolCfg.Catalog.
Variable proc : Process.

Import Shell PackageMgr ToolCfg.

(** The world after the commands of a list have run in order. *)
Definition after_commands (commands : list string) (timeout : option N)
    (w : World Sys) : World Sys :=
  fold_left (fun w c => exec_world os_exec c timeout w) commands w.

(** Every command of the list, run in order, fails. *)
Fixpoint alternates_fail (alts : list string) (w : World Sys) : Prop :=
  match alts with
  | [] => True
  | altCmd :: rest =>
      success (exec_result os_exec altCmd (Some 600000%N) w) = false /\
      alternates_fail rest (exec_world os_exec altCmd (Some 600000%N) w)
  end.

(** The call gets as far as its install commands: the tool is in the
    catalog, the first probe does not find it, a package manager is
    detected, and the tool has an install method for that manager. *)
Definition reaches_install (toolName : string) (w : World Sys)
    (toolConfig : ToolConfig) (packageManager : PackageManagerInfo)
    (installMethod : InstallMethod) : Prop :=
  getToolConfig catalog toolName = Some (Own toolConfig) /\
  probe os_exec (commandToCheck toolConfig) w = false /\
  outcome os_exec (detectPackageManager proc)
    (probe_world os_exec (commandToCheck toolConfig) w) = Returned (Some packageManager) /\
  installMethods toolConfig !! PackageManager_value (PackageMgr.name packageManager)
    = Some installMethod.

(** The world in which the primary install command is run. *)
Definition before_install (toolConfig : ToolConfig) (w : World Sys) : World Sys :=
  world_after os_exec (detectPackageManager proc)
    (probe_world os_exec (commandToCheck toolConfig) w).

Definition packageCmd (packageManager : PackageManagerInfo)
    (installMethod : InstallMethod) : string :=
  installCmd packageManager +:+ " " +:+ packageName installMethod.

(** The install commands succeed from [w], with captured output [d], and
    leave [w']: either the primary command succeeds, or it fails and an
    alternate succeeds after every alternate before it has failed. *)
Definition install_succeeds (packageManager : PackageManagerInfo)
    (installMethod : InstallMethod) (w : World Sys) (d : string) (w' : World Sys)
  : Prop :=
  let primary := packageCmd packageManager installMethod in
  let w1 := exec_world os_exec primary (Some 600000%N) w in
  (success (exec_result os_exec primary (Some 600000%N) w) = true /\
   d = stdout (exec_result os_exec primary (Some 600000%N) w) /\ w' = w1) \/
  (success (exec_result os_exec primary (Some 600000%N) w) = false /\
   exists pre alt post,
     alternativeCommands installMethod = Some (pre ++ alt :: post) /\
     alternates_fail pre w1 /\
     let w2 := after_commands pre (Some 600000%N) w1 in
     success (exec_result os_exec alt (Some 600000%N) w2) = true /\
     d = stdout (exec_result os_exec alt (Some 600000%N) w2) /\
     w' = exec_world os_exec alt (Some 600000%N) w2).

(** The world after the post-install steps, run from [w]. *)
Definition after_post_install (installMethod : InstallMethod) (w : World Sys)
  : World Sys :=
  after_commands (default [] (postInstallSteps installMethod)) (Some 120000%N) w.

(** The shell configuration step of [installTool]. *)
Definition configure_if_needed (toolConfig : ToolConfig) : Prog bool :=
  if truthy (shellConfig toolConfig) || defined (envVars toolConfig)
  then Installer.configureShellEnvironment proc toolConfig
  else Ret false.

(** What [installTool] returns once its install commands have succeeded
    with output [d]: decided by the final probe and the restart flag. *)
Definition verification_result (toolConfig : ToolConfig) (d : string)
    (verified needsRestart : bool) : Installer.InstallResult :=
  if verified || needsRestart then
    {| Installer.success := true;
       Installer.message := displayName toolConfig +:+ " installed successfully";
       Installer.details := Some d;
       Installer.needsRestart := Some needsRestart |}
  else
    {| Installer.success := false;
       Installer.message := displayName toolConfig
                            +:+ " installation completed but verification failed";
       Installer.details := Some "The tool may require a shell restart to be available";
       Installer.needsRestart := Some true |}.

(** What [installTool] returns when an install command failed outright. *)
Definition hard_failure (toolConfig : ToolConfig) (packageResult : CommandResult)
  : Installer.InstallResult :=
  {| Installer.success := false;
     Installer.message := "Failed to install " +:+ displayName toolConfig;
     Installer.details := Some (or_else (error packageResult) (stderr packageResult));
     Installer.needsRestart := None |}.

(** The end of the [try] block of [installTool], from the post-install
    steps on. *)
Definition finish_install (toolConfig : ToolConfig) (installMethod : InstallMethod)
    (installDetails : string) : Prog Installer.InstallResult :=
  _ <- match postInstallSteps installMethod with
       | Some steps => Installer.run_steps steps
       | None => Ret tt
       end ;;
  needsRestart <- configure_if_needed toolConfig ;;
  verified <- commandExists (commandToCheck toolConfig) ;;
  if verified || needsRestart then
    Ret {| Installer.success := true;
           Installer.message := displayName toolConfig +:+ " installed successfully";
           Installer.details := Some installDetails;
           Installer.needsRestart := Some needsRestart |}
  else
    Ret {| Installer.success := false;
           Installer.message := displayName toolConfig
                                +:+ " installation completed but verification failed";
           Installer.details := Some "The tool may require a shell restart to be available";
           Installer.needsRestart := Some true |}.

(** The whole [try] block of [installTool]. *)
Definition install_body (toolConfig : ToolConfig) (packageManager : PackageManagerInfo)
    (installMethod : InstallMethod) : Prog Installer.InstallResult :=
  packageResult <- executeCommand (packageCmd packageManager installMethod)
                     (Some 600000%N) ;;
  '(installSuccess, installDetails) <-
    (if success packageResult
     then Ret (true, stdout packageResult)
     else match alternativeCommands installMethod with
          | Some alts => Installer.try_alternatives alts
          | None => Ret (false, EmptyString)
          end) ;;
  if negb installSuccess then
    Ret {| Installer.success := false;
           Installer.message := "Failed to install " +:+ displayName toolConfig;
           Installer.details := Some (or_else (error packageResult)
                                              (stderr packageResult));
           Installer.needsRestart := None |}
  else finish_install toolConfig installMethod installDetails.

(** The marker line that [configureShellEnvironment] looks for. *)
Definition marker (toolConfig : ToolConfig) : string :=
  "# " +:+ displayName toolConfig +:+ " Configuration".

(** The block that [configureShellEnvironment] builds for a tool. *)
Definition profile_block (toolConfig : ToolConfig) : string :=
  let configContent := EmptyString in
  let configContent :=
    match envVars toolConfig with
    | Some vars =>
        fold_left
          (fun acc '(key, value) =>
             acc +:+ "export " +:+ key +:+ "=" +:+ dquote +:+ value +:+ dquote +:+ nl)
          vars
          (configContent +:+ nl +:+ "# " +:+ displayName toolConfig
             +:+ " Configuration" +:+ nl)
    | None => configContent
    end in
  if truthy (shellConfig toolConfig)
  then configContent +:+ or_else (shellConfig toolConfig) EmptyString +:+ nl
  else configContent.

(** The command that installs homebrew. *)
Definition brew_bootstrap : string :=
  "/bin/bash -c " +:+ dquote +:+
  "$(curl -fsSL https://raw.githubusercontent.com/Homebrew/install/HEAD/install.sh)"
  +:+ dquote.

(** The bootstrap command of [installNvm]. *)
Definition nvm_bootstrap : string :=
  "curl -o- https://raw.githubusercontent.com/nvm-sh/nvm/v0.39.7/install.sh | bash".

(** The [try]/[catch] of [installNvm] that adds nvm to the shell profile:
    the only place where [installNvm] can throw. *)
Definition nvm_profile_step : Prog unit :=
  let shellConfig := getShellConfigPath proc in
  try_catch
    (content <- readFile shellConfig ;;
     if negb (includes content "NVM_DIR")
     then appendFile shellConfig Installer.nvmConfig
     else Ret tt)
    (fun _ => writeFile shellConfig Installer.nvmConfig).

(** The command by which [installNodeViaTarget] installs a version of
    Node.js through nvm. *)
Definition nvm_install_command (version : string) : string :=
  "bash -c " +:+ dquote +:+ "source "
    +:+ or_else (env_NVM_DIR proc) (getHomeDirectory proc +:+ "/.nvm")
    +:+ "/nvm.sh && nvm install " +:+ version +:+ " && nvm use " +:+ version +:+ dquote.

End InstallSteps.

(** ** Reading traces and strings *)

(** The shell commands of a trace, oldest first, with their timeouts. *)
Definition exec_commands (t : list Event) : list (string * N) :=
  omap (fun ev => match ev with
                  | EvExec c timeout _ => Some (c, timeout)
                  | _ => None
                  end) t.

(** The paths a trace wrote to, by [appendFile] or [writeFile], successfully
    or not. *)
Definition written_paths (t : list Event) : list string :=
  omap (fun ev => match ev with
                  | EvAppend p _ _ | EvWrite p _ _ => Some p
                  | _ => None
                  end) t.

(** [s] starts, or ends, with a white-space character. *)
Definition starts_with_space (s : string) : Prop :=
  exists t post, t ∈ white_space /\ s = t +:+ post.

Definition ends_with_space (s : string) : Prop :=
  exists pre t, t ∈ white_space /\ s = pre +:+ t.

(** [s] is made of white-space characters only. *)
Inductive blank : string -> Prop :=
| blank_nil : blank EmptyString
| blank_cons (t s : string) : t ∈ white_space -> blank s -> blank (t +:+ s).

(** Whenever [p] returns, the value and the world it leaves satisfy [Q]. *)
Definition ensures {Sys A : Type}
    (os_exec : string -> N -> World Sys -> ExecOutcome * World Sys)
    (p : Prog A) (Q : A -> World Sys -> Prop) : Prop :=
  forall w a, outcome os_exec p w = Returned a -> Q a (world_after os_exec p w).

(** The content of a file, empty when the file does not exist. *)
Definition file_content {Sys : Type} (path : string) (w : World Sys) : string :=
  default EmptyString (files w !! path).

(** What a reader takes the file to hold when it treats every failed read
    as an empty file: nothing for a file that is missing or may not be
    read. *)
Definition seen_content {Sys : Type} (path : string) (w : World Sys) : string :=
  if decide (path ∈ read_protected w) then EmptyString else file_content path w.

(** The [try]/[catch] by which the special-case installers put a block into
    the shell profile unless the profile already holds its token. *)
Definition ensure_block (path token block : string) : Prog unit :=
  try_catch
    (content <- readFile path ;;
     if negb (includes content token)
     then appendFile path block
     else Ret tt)
    (fun _ => writeFile path block).

(** The name that a status check reports for a requested name: the name
    itself when nothing is found, the [name] field of what is found
    otherwise. *)
Definition reported_name (catalog : ToolCfg.Catalog) (toolName : string)
  : option string :=
  match ToolCfg.getToolConfig catalog toolName with
  | None => Some toolName
  | Some (ToolCfg.Own toolConfig) => Some (ToolCfg.name toolConfig)
  | Some (ToolCfg.Inherited fname) => fname
  end.

(** Names that are read and written as plain keys: none is found through
    the prototype only, none is [__proto__]. *)
Definition plain_names (catalog : ToolCfg.Catalog) (toolNames : list string) : Prop :=
  Forall (fun n => ToolCfg.finds_inherited catalog n = false /\ n <> "__proto__")
    toolNames.

(** A trace that holds nothing but existence probes. *)
Definition probes_only (t : list Event) : Prop :=
  Forall (fun ev => exists c o, ev = EvExec ("which " +:+ c) 60000%N o) t.

(** A catalog for examples: one tool that only homebrew can install, with a
    manual install page. *)
Definition brew_only_catalog : list (string * ToolCfg.ToolConfig) :=
  [("xcodes",
    {| ToolCfg.name := "xcodes"; ToolCfg.displayName := "Xcodes";
       ToolCfg.category := ToolCfg.SDK;
       ToolCfg.description := "Xcode version manager";
       ToolCfg.commandToCheck := "xcodes"; ToolCfg.versionFlag := "version";
       ToolCfg.installMethods :=
         list_to_map [("homebrew", ToolCfg.plain PackageMgr.HOMEBREW "xcodes")];
       ToolCfg.manualInstallUrl := Some "https://github.com/XcodesOrg/xcodes";
       ToolCfg.envVars := None; ToolCfg.shellConfig := None |})].

(** ** A scripted machine

    A concrete operating system for examples: [which c] finds exactly the
    commands on the list; a scripted command settles as the script says and
    puts further commands on the list; any other command fails and changes
    nothing. *)

Module Sim.

Record Machine : Type := mkMachine {
  on_path : list string;
  script : list (string * (ExecOutcome * list string));
}.

Fixpoint scripted (command : string)
    (s : list (string * (ExecOutcome * list string)))
  : option (ExecOutcome * list string) :=
  match s with
  | [] => None
  | (c, r) :: rest => if String.eqb c command then Some r else scripted command rest
  end.

Definition failed (command : string) : ExecOutcome :=
  ExecRejected (Some EmptyString) (Some EmptyString) ("Command failed: " +:+ command).

Definition exec (command : string) (timeout : N) (w : World Machine)
  : ExecOutcome * World Machine :=
  match scripted command (script (sys w)) with
  | Some (o, adds) =>
      (o, mkWorld (files w) (write_protected w) (read_protected w)
            (mkMachine (on_path (sys w) ++ adds) (script (sys w))))
  | None =>
      if String.prefix "which " command then
        let c := String.substring 6 (String.length command - 6) command in
        if existsb (String.eqb c) (on_path (sys w))
        then (ExecResolved ("/usr/bin/" +:+ c +:+ nl) EmptyString, w)
        else (failed command, w)
      else (failed command, w)
  end.

Definition machine (on_path : list string)
    (script : list (string * (ExecOutcome * list string))) : World Machine :=
  mkWorld ∅ ∅ ∅ (mkMachine on_path script).

Definition zsh_on_linux : Process :=
  mkProcess "linux" (Some "/bin/zsh") (Some "/home/dev") None None.
Definition bash_on_mac : Process :=
  mkProcess "darwin" (Some "/bin/bash") (Some "/Users/dev") None None.

(** An apt machine on which [apt-get install] of git works. *)
Definition apt_with_git_package : World Machine :=
  machine ["apt-get"]
    [("sudo apt-get install -y git",
      (ExecResolved ("Setting up git (1:2.43.0) ..." +:+ nl) EmptyString, ["git"]))].

(** An apt machine without a nodejs package, on which the second alternate
    command of the catalog installs node. *)
Definition apt_with_nodesource : World Machine :=
  machine ["apt-get"]
    [("sudo apt-get install -y nodejs",
      (ExecResolved ("Setting up nodejs (20.11.0) ..." +:+ nl) EmptyString, ["node"]))].

(** The same, but the installed binary does not land on the path. *)
Definition apt_with_nodesource_off_path : World Machine :=
  machine ["apt-get"]
    [("sudo apt-get install -y nodejs",
      (ExecResolved ("Setting up nodejs (20.11.0) ..." +:+ nl) EmptyString, []))].

(** An apt machine on which nothing can be installed. *)
Definition apt_offline : World Machine := machine ["apt-get"] [].

(** A machine with nothing on it. *)
Definition bare : World Machine := machine [] [].

(** A mac on which [brew install rust] works; the compiler lands in
    [~/.cargo/bin], which is not on the path of the running process. *)
Definition mac_with_rust_formula : World Machine :=
  machine ["brew"]
    [("brew install rust", (ExecResolved ("Pouring rust--1.75.0" +:+ nl) EmptyString, []))].

Definition sh_on_solaris : Process :=
  mkProcess "sunos" (Some "/bin/sh") (Some "/export/home/dev") None None.

(** A mac without homebrew on which the bootstrap script exits with an
    error after it has put [brew] on the path. *)
Definition mac_bootstrap_complains : World Machine :=
  machine []
    [("/bin/bash -c " +:+ dquote +:+
      "$(curl -fsSL https://raw.githubusercontent.com/Homebrew/install/HEAD/install.sh)"
      +:+ dquote,
      (ExecRejected (Some EmptyString) (Some "Warning: /opt/homebrew/bin is not in your PATH.")
         "Command failed", ["brew"]))].

(** An apt machine with java and snap on which the snap of Android Studio
    installs. *)
Definition apt_with_snap : World Machine :=
  machine ["apt-get"; "java"; "snap"]
    [("sudo snap install android-studio --classic",
      (ExecResolved "android-studio installed" EmptyString, []))].

(** A machine on which git is installed and answers its version. *)
Definition with_git_version : World Machine :=
  machine ["git"]
    [("git --version", (ExecResolved ("git version 2.43.0" +:+ nl) EmptyString, []))].

(** A machine with nvm on which the install of the long-term-support
    version puts node on the path. *)
Definition with_nvm : World Machine :=
  machine ["nvm"]
    [("bash -c " +:+ dquote +:+
      "source /home/dev/.nvm/nvm.sh && nvm install lts && nvm use lts" +:+ dquote,
      (ExecResolved ("Now using node v20.11.0" +:+ nl) EmptyString, ["node"]))].

(** A machine whose shell profile already sets up nvm and may be written
    but not read. *)
Definition hidden_profile : World Machine :=
  mkWorld {["/home/dev/.zshrc" := "export NVM_DIR=/opt/nvm" +:+ nl]} ∅
    {["/home/dev/.zshrc"]} (mkMachine [] []).

(** A machine whose shell profile does not exist and cannot be created. *)
Definition locked_profile : World Machine :=
  mkWorld ∅ {["/home/dev/.zshrc"]} ∅ (mkMachine [] []).

End Sim.

(** * Properties *)

(** ** Running programs *)

Section RunFacts.

Context {Sys : Type}.
Variable os_exec : string -> N -> World Sys -> ExecOutcome * World Sys.

Lemma run_bind {A B : Type} (p : Prog A) (f : A -> Prog B) (w : World Sys) :
  run os_exec (bind p f) w =
  match run os_exec p w with
  | (Returned a, w1, t1) =>
      let '(o, w2, t2) := run os_exec (f a) w1 in (o, w2, t1 ++ t2)
  | (Thrown m, w1, t1) => (Thrown m, w1, t1)
  end.
Proof.
  revert w. induction p as [a | m | X e k IH]; intros w; simpl.
  - destruct (run os_exec (f a) w) as [[o w2] t2]. reflexivity.
  - reflexivity.
  - destruct (handle os_exec e w) as [x w1]. rewrite IH.
    destruct (run os_exec (k x) w1) as [[[a | m] w2] t1]; [|reflexivity].
    destruct (run os_exec (f a) w2) as [[o w3] t2]. reflexivity.
Qed.

Lemma run_try_catch {A : Type} (p : Prog A) (h : string -> Prog A) (w : World Sys) :
  run os_exec (try_catch p h) w =
  match run os_exec p w with
  | (Returned a, w1, t1) => (Returned a, w1, t1)
  | (Thrown m, w1, t1) =>
      let '(o, w2, t2) := run os_exec (h m) w1 in (o, w2, t1 ++ t2)
  end.
Proof.
  revert w. induction p as [a | m | X e k IH]; intros w; simpl.
  - reflexivity.
  - destruct (run os_exec (h m) w) as [[o w2] t2]. reflexivity.
  - destruct (handle os_exec e w) as [x w1]. rewrite IH.
    destruct (run os_exec (k x) w1) as [[[a | m] w2] t1]; [reflexivity|].
    destruct (run os_exec (h m) w2) as [[o w3] t2]. reflexivity.
Qed.

Import Shell.

Lemma run_executeCommand (command : string) (timeout : option N) (w : World Sys) :
  run os_exec (executeCommand command timeout) w =
  (Returned (exec_result os_exec command timeout w),
   exec_world os_exec command timeout w,
   [exec_event os_exec command timeout w]).
Proof.
  unfold exec_result, exec_world, exec_event, exec_outcome. simpl.
  destruct (os_exec command (timeout_or_default timeout) w) as [[out err | out err m] w1];
    reflexivity.
Qed.

Lemma run_commandExists (command : string) (w : World Sys) :
  run os_exec (commandExists command) w =
  (Returned (probe os_exec command w), probe_world os_exec command w,
   [probe_event os_exec command w]).
Proof.
  unfold commandExists. rewrite run_bind, run_executeCommand. reflexivity.
Qed.

End RunFacts.

(** ** Strings *)

Section StringFacts.

Lemma append_cons (c : ascii) (s t : string) :
  String c s +:+ t = String c (s +:+ t).
Proof. reflexivity. Qed.

Lemma append_nil_l (s : string) : EmptyString +:+ s = s.
Proof. reflexivity. Qed.

Lemma prefix_spec (sub s : string) :
  String.prefix sub s = true <-> exists post, s = sub +:+ post.
Proof.
  revert s. induction sub as [| a sub IH]; intros s; simpl.
  - destruct s; split; eauto.
  - destruct s as [| b s]; simpl.
    + split; [discriminate | intros [post H]; discriminate].
    + destruct (ascii_dec a b) as [-> | Hne].
      * rewrite IH. split; intros [post H]; exists post;
          rewrite append_cons in *; congruence.
      * split; [discriminate | intros [post H]; rewrite append_cons in H; congruence].
Qed.

Lemma includes_unfold (s sub : string) :
  includes s sub =
  String.prefix sub s ||
  match s with
  | EmptyString => false
  | String _ s' => includes s' sub
  end.
Proof. destruct s; unfold includes; fold includes; destruct (String.prefix sub _); reflexivity. Qed.

Lemma includes_spec (s sub : string) :
  includes s sub = true <-> contains sub s.
Proof.
  unfold contains. induction s as [| c s IH];
    rewrite includes_unfold, orb_true_iff, prefix_spec.
  - split.
    + intros [[post H] | H]; [| discriminate]. exists EmptyString, post. exact H.
    + intros (pre & post & H). left. destruct pre; [| discriminate]. eauto.
  - rewrite IH. split.
    + intros [[post H] | (pre & post & ->)].
      * exists EmptyString, post. exact H.
      * exists (String c pre), post. reflexivity.
    + intros (pre & post & H). destruct pre as [| c' pre].
      * left. eauto.
      * right. rewrite append_cons in H. injection H as _ H. eauto.
Qed.

Lemma includes_false (s sub : string) :
  includes s sub = false <-> ~ contains sub s.
Proof.
  rewrite <- includes_spec. destruct (includes s sub); split; congruence.
Qed.

End StringFacts.

(** ** The shell profile path *)

Section ShellProfilePath.

Import Shell.

(** C9.  [getShellConfigPath] is a function of the process environment
    alone (it is no program: it performs no effect), and of it reads only
    the shell name, the home directory and the platform.  A shell name
    that contains "zsh" gives [.zshrc] under the home directory; otherwise
    one that contains "bash" gives [.bash_profile] on macOS and [.bashrc]
    elsewhere; every other shell name, an unset one included, gives
    [.profile]. *)
Theorem getShellConfigPath_by_shell_and_os (proc : Process) :
  let shell := or_else (env_SHELL proc) EmptyString in
  let home := getHomeDirectory proc in
  (contains "zsh" shell -> getShellConfigPath proc = home +:+ "/.zshrc") /\
  (~ contains "zsh" shell -> contains "bash" shell ->
     (platform proc = "darwin" -> getShellConfigPath proc = home +:+ "/.bash_profile") /\
     (platform proc <> "darwin" -> getShellConfigPath proc = home +:+ "/.bashrc")) /\
  (~ contains "zsh" shell -> ~ contains "bash" shell ->
     getShellConfigPath proc = home +:+ "/.profile") /\
  (forall proc' : Process,
     or_else (env_SHELL proc') EmptyString = shell ->
     getHomeDirectory proc' = home ->
     isMacOS proc' = isMacOS proc ->
     getShellConfigPath proc' = getShellConfigPath proc).
Proof.
  intros shell home. unfold getShellConfigPath. fold shell home.
  repeat split.
  - intros H. apply includes_spec in H. rewrite H. reflexivity.
  - intros Hmac. apply includes_false in H. apply includes_spec in H0.
    rewrite H, H0. unfold isMacOS. rewrite Hmac. reflexivity.
  - intros Hmac. apply includes_false in H. apply includes_spec in H0.
    rewrite H, H0. unfold isMacOS.
    destruct (String.eqb_spec (platform proc) "darwin"); [contradiction | reflexivity].
  - intros Hz Hb. apply includes_false in Hz, Hb. rewrite Hz, Hb. reflexivity.
  - intros proc' Hs Hh Hm. rewrite Hs, Hh, Hm. reflexivity.
Qed.

Lemma getShellConfigPath_by_shell_and_os_witness :
  getShellConfigPath Sim.bash_on_mac = "/Users/dev/.bash_profile".
Proof.
  destruct (getShellConfigPath_by_shell_and_os Sim.bash_on_mac) as (_ & Hbash & _).
  apply Hbash.
  - apply includes_false. reflexivity.
  - apply includes_spec. reflexivity.
  - reflexivity.
Defined.

End ShellProfilePath.


(** ** Catalog lookup *)

Section CatalogFacts.

Import ToolCfg.

Lemma own_property_None (catalog : Catalog) (toolName : string) :
  toolName ∉ getAllToolNames catalog -> own_property catalog toolName = None.
Proof.
  induction catalog as [| [key config] rest IH]; simpl; intros H; [reflexivity |].
  apply not_elem_of_cons in H as [Hne Hrest].
  destruct (String.eqb_spec key toolName) as [-> | _]; [contradiction | auto].
Qed.

Lemma own_property_Some (catalog : Catalog) (toolName : string) (config : ToolConfig) :
  own_property catalog toolName = Some config -> (toolName, config) ∈ catalog.
Proof.
  induction catalog as [| [key c] rest IH]; simpl; [discriminate |].
  destruct (String.eqb_spec key toolName) as [-> | _].
  - intros [= ->]. apply elem_of_cons. left. reflexivity.
  - intros H. apply elem_of_cons. right. auto.
Qed.

Lemma own_property_unlisted (catalog : Catalog) (toolName : string) :
  own_property catalog toolName = None -> toolName ∉ getAllToolNames catalog.
Proof.
  induction catalog as [| [key config] rest IH]; simpl; intros H.
  - apply not_elem_of_nil.
  - destruct (String.eqb_spec key toolName) as [| Hne]; [discriminate |].
    apply not_elem_of_cons. split; [congruence | auto].
Qed.

(** An own entry is found as such, whether or not the prototype has a
    member of that name. *)
Lemma getToolConfig_Own (catalog : Catalog) (toolName : string) (config : ToolConfig) :
  getToolConfig catalog toolName = Some (Own config) <->
  own_property catalog toolName = Some config.
Proof.
  unfold getToolConfig. destruct (own_property catalog toolName) as [c |].
  - split; intros [= ->]; reflexivity.
  - destruct (inherited toolName); split; discriminate.
Qed.

(** Nothing is found only for a name that is neither a key of the catalog
    nor a member of the prototype. *)
Lemma getToolConfig_None (catalog : Catalog) (toolName : string) :
  toolName ∉ getAllToolNames catalog -> inherited toolName = None ->
  getToolConfig catalog toolName = None.
Proof.
  intros H Hproto. unfold getToolConfig.
  rewrite (own_property_None catalog toolName H), Hproto. reflexivity.
Qed.

Lemma getToolConfig_Some (catalog : Catalog) (toolName : string) (config : ToolConfig) :
  getToolConfig catalog toolName = Some (Own config) -> (toolName, config) ∈ catalog.
Proof. rewrite getToolConfig_Own. apply own_property_Some. Qed.

Lemma unknown_name_not_listed (toolName : string) (names : list string) :
  forallb (fun n => negb (String.eqb n toolName)) names = true -> toolName ∉ names.
Proof.
  induction names as [| n names IH]; simpl; intros H.
  - apply not_elem_of_nil.
  - apply andb_true_iff in H as [Hn Hrest]. apply not_elem_of_cons. split; [| auto].
    intros ->. rewrite String.eqb_refl in Hn. discriminate.
Qed.

End CatalogFacts.

(** ** Names that are not in the catalog; tools that are already there *)

Section Resolve.

Context {Sys : Type}.
Variable os_exec : string -> N -> World Sys -> ExecOutcome * World Sys.
Variable catalog : ToolCfg.Catalog.
Variable proc : Process.

Import Shell ToolCfg.

(** X25.  For a name that is neither a key of the catalog nor a member of
    [Object.prototype], [installTool] returns a failed result and
    [checkToolInstalled] returns a status that is not installed and carries
    the requested name as name and display name.  Neither throws, neither
    performs an effect (the trace is empty: no shell command is run), and
    the world is left as it was. *)
Theorem unknown_tool_is_refused (toolName : string) (options : option (option string))
    (w : World Sys) :
  toolName ∉ getAllToolNames catalog ->
  inherited toolName = None ->
  run os_exec (Installer.installTool catalog proc toolName options) w =
    (Returned {| Installer.success := false;
                 Installer.message := "Unknown tool: " +:+ toolName;
                 Installer.details := None;
                 Installer.needsRestart := None |}, w, []) /\
  run os_exec (Validator.checkToolInstalled catalog toolName) w =
    (Returned {| Validator.name := Some toolName;
                 Validator.displayName := Some toolName;
                 Validator.installed := false;
                 Validator.version := None;
                 Validator.path := None |}, w, []).
Proof.
  intros H Hproto. pose proof (getToolConfig_None catalog toolName H Hproto) as Hnone.
  unfold Installer.installTool, Validator.checkToolInstalled. rewrite Hnone.
  split; reflexivity.
Qed.

(** C5 fails on a name that the catalog does not list but every object
    inherits, such as [constructor]: the lookup finds the inherited member
    and the name is taken for a tool.  [checkToolInstalled] probes the word
    [undefined] and returns a status under the name of the member, without
    a display name.  [installTool] runs the same probe; when that does not
    find anything it goes on to detect a package manager and, when one is
    found, throws the [TypeError] of reading an install method of nothing,
    outside its [try]: the call runs shell commands and returns no
    result. *)
Theorem inherited_name_is_taken_for_a_tool (toolName : string) (fname : option string)
    (options : option (option string)) (packageManager : PackageMgr.PackageManagerInfo)
    (w : World Sys) :
  getToolConfig catalog toolName = Some (Inherited fname) ->
  probe os_exec undefined w = false ->
  outcome os_exec (PackageMgr.detectPackageManager proc)
    (probe_world os_exec undefined w) = Returned (Some packageManager) ->
  (toolName ∉ getAllToolNames catalog) /\
  outcome os_exec (Installer.installTool catalog proc toolName options) w =
    Thrown ("Cannot read properties of undefined (reading '"
            +:+ PackageMgr.PackageManager_value (PackageMgr.name packageManager)
            +:+ "')") /\
  trace os_exec (Installer.installTool catalog proc toolName options) w =
    EvExec "which undefined" 60000%N
      (exec_outcome os_exec "which undefined" None w) ::
    trace os_exec (PackageMgr.detectPackageManager proc)
      (probe_world os_exec undefined w) /\
  run os_exec (Validator.checkToolInstalled catalog toolName) w =
    (Returned {| Validator.name := fname;
                 Validator.displayName := None;
                 Validator.installed := false;
                 Validator.version := None;
                 Validator.path := None |},
     probe_world os_exec undefined w,
     [EvExec "which undefined" 60000%N
        (exec_outcome os_exec "which undefined" None w)]).
Proof.
  intros Hfound Hprobe Hdetect.
  assert (run os_exec (Installer.installTool catalog proc toolName options) w =
            (Thrown ("Cannot read properties of undefined (reading '"
                     +:+ PackageMgr.PackageManager_value (PackageMgr.name packageManager)
                     +:+ "')"),
             world_after os_exec (PackageMgr.detectPackageManager proc)
               (probe_world os_exec undefined w),
             probe_event os_exec undefined w ::
             trace os_exec (PackageMgr.detectPackageManager proc)
               (probe_world os_exec undefined w))) as Hrun.
  { unfold Installer.installTool. rewrite Hfound, run_bind, run_commandExists, Hprobe.
    cbv beta iota. rewrite run_bind. unfold outcome, world_after, trace in *.
    destruct (run os_exec (PackageMgr.detectPackageManager proc) _) as [[o w1] t].
    simpl in Hdetect |- *. subst o. simpl. rewrite app_nil_r. reflexivity. }
  split; [| split; [| split]].
  - apply own_property_unlisted. unfold getToolConfig in Hfound.
    destruct (own_property catalog toolName); [discriminate | reflexivity].
  - unfold outcome. rewrite Hrun. reflexivity.
  - unfold trace at 1. rewrite Hrun. reflexivity.
  - unfold Validator.checkToolInstalled. rewrite Hfound.
    rewrite run_bind, run_commandExists, Hprobe. reflexivity.
Qed.

(** C3.  For a tool of the catalog whose existence probe answers true,
    [installTool] returns success, and the only effect of the whole call is
    that one probe, [which] of the tool's command: no install command is
    run. *)
Theorem installed_tool_is_not_reinstalled (toolName : string) (toolConfig : ToolConfig)
    (options : option (option string)) (w : World Sys) :
  getToolConfig catalog toolName = Some (Own toolConfig) ->
  outcome os_exec (commandExists (commandToCheck toolConfig)) w = Returned true ->
  outcome os_exec (Installer.installTool catalog proc toolName options) w =
    Returned {| Installer.success := true;
                Installer.message := displayName toolConfig +:+ " is already installed";
                Installer.details := None;
                Installer.needsRestart := None |} /\
  trace os_exec (Installer.installTool catalog proc toolName options) w =
    [EvExec ("which " +:+ commandToCheck toolConfig) 60000%N
            (exec_outcome os_exec ("which " +:+ commandToCheck toolConfig) None w)] /\
  world_after os_exec (Installer.installTool catalog proc toolName options) w =
    world_after os_exec (commandExists (commandToCheck toolConfig)) w.
Proof.
  unfold outcome, trace, world_after. intros Hcfg.
  unfold Installer.installTool. rewrite Hcfg, run_bind, run_commandExists. simpl.
  intros [= ->]. simpl. auto.
Qed.

End Resolve.

Lemma unknown_tool_is_refused_witness :
  outcome Sim.exec
    (Installer.installTool ToolCfg.TOOL_CONFIGS Sim.zsh_on_linux "cobol" None)
    (Sim.machine ["apt-get"] []) =
  Returned {| Installer.success := false;
              Installer.message := "Unknown tool: cobol";
              Installer.details := None;
              Installer.needsRestart := None |}.
Proof.
  unfold outcome.
  rewrite (proj1 (unknown_tool_is_refused Sim.exec ToolCfg.TOOL_CONFIGS Sim.zsh_on_linux
                    "cobol" None (Sim.machine ["apt-get"] [])
                    (unknown_name_not_listed "cobol"
                       (ToolCfg.getAllToolNames ToolCfg.TOOL_CONFIGS) eq_refl)
                    eq_refl)).
  reflexivity.
Defined.

(** [constructor] on an apt machine: two shell commands, then the
    [TypeError]; the status check answers under the name [Object]. *)
Lemma inherited_name_is_taken_for_a_tool_witness :
  ("constructor" ∉ ToolCfg.getAllToolNames ToolCfg.TOOL_CONFIGS) /\
  outcome Sim.exec
    (Installer.installTool ToolCfg.TOOL_CONFIGS Sim.zsh_on_linux "constructor" None)
    Sim.apt_offline =
    Thrown "Cannot read properties of undefined (reading 'apt')" /\
  exec_commands
    (trace Sim.exec
       (Installer.installTool ToolCfg.TOOL_CONFIGS Sim.zsh_on_linux "constructor" None)
       Sim.apt_offline) =
    [("which undefined", 60000%N); ("which apt-get", 60000%N)] /\
  outcome Sim.exec (Validator.checkToolInstalled ToolCfg.TOOL_CONFIGS "constructor")
    Sim.apt_offline =
    Returned {| Validator.name := Some "Object";
                Validator.displayName := None;
                Validator.installed := false;
                Validator.version := None;
                Validator.path := None |}.
Proof.
  edestruct (fun pm =>
               inherited_name_is_taken_for_a_tool Sim.exec ToolCfg.TOOL_CONFIGS
                 Sim.zsh_on_linux "constructor" (Some "Object") None pm Sim.apt_offline)
    as (Hunlisted & Ho & Ht & Hcheck); [reflexivity | reflexivity | reflexivity |].
  split; [exact Hunlisted |]. split; [exact Ho |]. split.
  - rewrite Ht. reflexivity.
  - unfold outcome. rewrite Hcheck. reflexivity.
Defined.

Lemma installed_tool_is_not_reinstalled_witness :
  trace Sim.exec
    (Installer.installTool ToolCfg.TOOL_CONFIGS Sim.zsh_on_linux "git" None)
    (Sim.machine ["apt-get"; "git"] []) =
  [EvExec "which git" 60000%N (ExecResolved ("/usr/bin/git" +:+ nl) EmptyString)].
Proof.
  destruct (installed_tool_is_not_reinstalled Sim.exec ToolCfg.TOOL_CONFIGS Sim.zsh_on_linux
              "git" _ None (Sim.machine ["apt-get"; "git"] []) eq_refl eq_refl)
    as (_ & Htrace & _).
  exact Htrace.
Defined.

(** ** Package manager detection *)

Section Detection.

Context {Sys : Type}.
Variable os_exec : string -> N -> World Sys -> ExecOutcome * World Sys.

Import Shell PackageMgr.




End Detection.

(** ** Outcomes of composed programs *)

Section OutcomeFacts.

Context {Sys : Type}.
Variable os_exec : string -> N -> World Sys -> ExecOutcome * World Sys.

Import Shell.

Lemma run_eta {A : Type} (p : Prog A) (w : World Sys) :
  run os_exec p w = (outcome os_exec p w, world_after os_exec p w, trace os_exec p w).
Proof. unfold outcome, world_after, trace. destruct (run os_exec p w) as [[o w1] t]. reflexivity. Qed.

Lemma outcome_bind {A B : Type} (p : Prog A) (f : A -> Prog B) (w : World Sys) :
  outcome os_exec (bind p f) w =
  match outcome os_exec p w with
  | Returned a => outcome os_exec (f a) (world_after os_exec p w)
  | Thrown m => Thrown m
  end.
Proof.
  unfold outcome, world_after. rewrite run_bind.
  destruct (run os_exec p w) as [[[a | m] w1] t1]; [| reflexivity]. simpl.
  destruct (run os_exec (f a) w1) as [[o w2] t2]. reflexivity.
Qed.

Lemma world_after_bind {A B : Type} (p : Prog A) (f : A -> Prog B) (w : World Sys) :
  world_after os_exec (bind p f) w =
  match outcome os_exec p w with
  | Returned a => world_after os_exec (f a) (world_after os_exec p w)
  | Thrown m => world_after os_exec p w
  end.
Proof.
  unfold outcome, world_after. rewrite run_bind.
  destruct (run os_exec p w) as [[[a | m] w1] t1]; [| reflexivity]. simpl.
  destruct (run os_exec (f a) w1) as [[o w2] t2]. reflexivity.
Qed.

Lemma trace_bind {A B : Type} (p : Prog A) (f : A -> Prog B) (w : World Sys) :
  trace os_exec (bind p f) w =
  match outcome os_exec p w with
  | Returned a => trace os_exec p w ++ trace os_exec (f a) (world_after os_exec p w)
  | Thrown m => trace os_exec p w
  end.
Proof.
  unfold outcome, world_after, trace. rewrite run_bind.
  destruct (run os_exec p w) as [[[a | m] w1] t1]; [| reflexivity]. simpl.
  destruct (run os_exec (f a) w1) as [[o w2] t2]. reflexivity.
Qed.

Lemma never_throws_returns {A : Type} (p : Prog A) :
  never_throws p -> forall w, exists a, outcome os_exec p w = Returned a.
Proof.
  unfold outcome. induction 1 as [a | X e k _ IH]; intros w; simpl.
  - eauto.
  - destruct (handle os_exec e w) as [x w1]. destruct (IH x w1) as [a Ha].
    exists a. destruct (run os_exec (k x) w1) as [[o w2] t]. exact Ha.
Qed.

Lemma never_throws_bind {A B : Type} (p : Prog A) (f : A -> Prog B) :
  never_throws p -> (forall a, never_throws (f a)) -> never_throws (bind p f).
Proof.
  intros Hp Hf. induction Hp as [a | X e k _ IH]; simpl; [apply Hf |].
  constructor. exact IH.
Qed.

Lemma never_throws_try_catch {A : Type} (p : Prog A) (h : string -> Prog A) :
  (forall m, never_throws (h m)) -> never_throws (try_catch p h).
Proof.
  intros Hh. induction p as [a | m | X e k IH]; simpl.
  - constructor.
  - apply Hh.
  - constructor. exact IH.
Qed.

(** A handler is dead code around a program that never throws. *)
Lemma run_try_catch_never_throws {A : Type} (p : Prog A) (h : string -> Prog A) :
  never_throws p -> forall w, run os_exec (try_catch p h) w = run os_exec p w.
Proof.
  induction 1 as [a | X e k _ IH]; intros w; simpl; [reflexivity |].
  destruct (handle os_exec e w) as [x w1]. rewrite IH. reflexivity.
Qed.

Lemma outcome_try_catch_never_throws {A : Type} (p : Prog A) (h : string -> Prog A)
    (w : World Sys) :
  never_throws p -> outcome os_exec (try_catch p h) w = outcome os_exec p w.
Proof. intros H. unfold outcome. rewrite run_try_catch_never_throws; auto. Qed.

End OutcomeFacts.

(** ** Which programs never throw *)

Create HintDb total discriminated.

Ltac never_throws_step :=
  match goal with
  | |- never_throws (Ret _) => constructor
  | |- never_throws (Vis _ _) => constructor; intros ?
  | |- never_throws (trigger _) => constructor; intros ?
  | |- never_throws (bind _ _) => apply never_throws_bind; [| intros ?]
  | |- never_throws (try_catch _ _) => apply never_throws_try_catch; intros ?
  | |- never_throws (let '(_, _) := ?x in _) => destruct x
  | |- never_throws (match ?x with _ => _ end) => destruct x
  | |- never_throws _ => solve [auto with total]
  end.

Ltac never_throws_auto := repeat never_throws_step.

Section Totality.

Import Shell PackageMgr ToolCfg.

Lemma never_throws_executeCommand (command : string) (timeout : option N) :
  never_throws (executeCommand command timeout).
Proof. unfold executeCommand. never_throws_auto. Qed.
#[local] Hint Resolve never_throws_executeCommand : total.

Lemma never_throws_commandExists (command : string) :
  never_throws (commandExists command).
Proof. unfold commandExists. never_throws_auto. Qed.
#[local] Hint Resolve never_throws_commandExists : total.

Lemma never_throws_getCommandVersion (command versionFlag : string) :
  never_throws (getCommandVersion command versionFlag).
Proof. unfold getCommandVersion. never_throws_auto. Qed.
#[local] Hint Resolve never_throws_getCommandVersion : total.

Lemma never_throws_detect_loop (order : list string) :
  Forall (fun n => is_Some (managers !! n)) order -> never_throws (detect_loop order).
Proof.
  induction 1 as [| n order [m Hm] _ IH]; simpl; [constructor |].
  rewrite Hm. unfold checkPackageManager. never_throws_auto.
Qed.

Lemma never_throws_detectPackageManager (proc : Process) :
  never_throws (detectPackageManager proc).
Proof.
  unfold detectPackageManager. apply never_throws_detect_loop.
  destruct (detectOS proc); simpl; repeat constructor; eexists; reflexivity.
Qed.
#[local] Hint Resolve never_throws_detectPackageManager : total.

Lemma never_throws_checkToolInstalled (catalog : Catalog) (toolName : string) :
  never_throws (Validator.checkToolInstalled catalog toolName).
Proof. unfold Validator.checkToolInstalled. never_throws_auto. Qed.

Lemma never_throws_configureShellEnvironment (proc : Process) (toolConfig : ToolConfig) :
  never_throws (Installer.configureShellEnvironment proc toolConfig).
Proof. unfold Installer.configureShellEnvironment. never_throws_auto. Qed.
#[local] Hint Resolve never_throws_configureShellEnvironment : total.

Lemma never_throws_try_alternatives (alts : list string) :
  never_throws (Installer.try_alternatives alts).
Proof. induction alts as [| altCmd rest IH]; simpl; never_throws_auto. Qed.
#[local] Hint Resolve never_throws_try_alternatives : total.

Lemma never_throws_run_steps (steps : list string) :
  never_throws (Installer.run_steps steps).
Proof. induction steps as [| step rest IH]; simpl; never_throws_auto. Qed.
#[local] Hint Resolve never_throws_run_steps : total.

(** [installTool] reports every failure as a returned result. *)
Lemma never_throws_installTool (catalog : Catalog) (proc : Process)
    (toolName : string) (options : option (option string)) :
  finds_inherited catalog toolName = false ->
  never_throws (Installer.installTool catalog proc toolName options).
Proof.
  unfold finds_inherited, Installer.installTool.
  destruct (getToolConfig catalog toolName) as [[toolConfig | fname] |];
    [intros _ | discriminate | intros _]; never_throws_auto.
Qed.

End Totality.

(** ** The install commands and the final verification *)

Section InstallFacts.

Context {Sys : Type}.
Variable os_exec : string -> N -> World Sys -> ExecOutcome * World Sys.
Variable catalog : ToolCfg.Catalog.
Variable proc : Process.

Import Shell PackageMgr ToolCfg.

Lemma outcome_executeCommand (command : string) (timeout : option N) (w : World Sys) :
  outcome os_exec (executeCommand command timeout) w =
  Returned (exec_result os_exec command timeout w).
Proof. unfold outcome. rewrite run_executeCommand. reflexivity. Qed.

Lemma world_after_executeCommand (command : string) (timeout : option N) (w : World Sys) :
  world_after os_exec (executeCommand command timeout) w =
  exec_world os_exec command timeout w.
Proof. unfold world_after. rewrite run_executeCommand. reflexivity. Qed.

Lemma outcome_commandExists (command : string) (w : World Sys) :
  outcome os_exec (commandExists command) w = Returned (probe os_exec command w).
Proof. unfold outcome. rewrite run_commandExists. reflexivity. Qed.

Lemma world_after_commandExists (command : string) (w : World Sys) :
  world_after os_exec (commandExists command) w = probe_world os_exec command w.
Proof. unfold world_after. rewrite run_commandExists. reflexivity. Qed.

Lemma try_alternatives_cons (altCmd : string) (rest : list string) :
  Installer.try_alternatives (altCmd :: rest) =
  bind (executeCommand altCmd (Some 600000%N))
    (fun altResult =>
       if success altResult then Ret (true, stdout altResult)
       else Installer.try_alternatives rest).
Proof. reflexivity. Qed.

Lemma run_steps_cons (step : string) (rest : list string) :
  Installer.run_steps (step :: rest) =
  bind (executeCommand step (Some 120000%N)) (fun _ => Installer.run_steps rest).
Proof. reflexivity. Qed.

(** When every alternate fails the loop ends with the flag unset, having run
    them all. *)
Lemma try_alternatives_all_fail (alts : list string) (w : World Sys) :
  alternates_fail os_exec alts w ->
  outcome os_exec (Installer.try_alternatives alts) w = Returned (false, EmptyString) /\
  world_after os_exec (Installer.try_alternatives alts) w =
    after_commands os_exec alts (Some 600000%N) w.
Proof.
  revert w. induction alts as [| altCmd rest IH]; intros w H.
  - split; reflexivity.
  - destruct H as [Hfail Hrest]. rewrite try_alternatives_cons.
    rewrite outcome_bind, world_after_bind, outcome_executeCommand,
      world_after_executeCommand, Hfail.
    apply IH. exact Hrest.
Qed.

(** The loop stops at the first alternate that succeeds and keeps its
    output; the alternates after it are not run. *)
Lemma try_alternatives_first_success (pre : list string) (alt : string)
    (post : list string) (w : World Sys) :
  alternates_fail os_exec pre w ->
  success (exec_result os_exec alt (Some 600000%N)
             (after_commands os_exec pre (Some 600000%N) w)) = true ->
  outcome os_exec (Installer.try_alternatives (pre ++ alt :: post)) w =
    Returned (true, stdout (exec_result os_exec alt (Some 600000%N)
                              (after_commands os_exec pre (Some 600000%N) w))) /\
  world_after os_exec (Installer.try_alternatives (pre ++ alt :: post)) w =
    exec_world os_exec alt (Some 600000%N) (after_commands os_exec pre (Some 600000%N) w).
Proof.
  revert w. induction pre as [| altCmd rest IH]; intros w Hpre Halt; simpl app.
  - rewrite try_alternatives_cons.
    rewrite outcome_bind, world_after_bind, outcome_executeCommand,
      world_after_executeCommand.
    simpl in Halt. rewrite Halt. split; reflexivity.
  - destruct Hpre as [Hfail Hrest]. rewrite try_alternatives_cons.
    rewrite outcome_bind, world_after_bind, outcome_executeCommand,
      world_after_executeCommand, Hfail.
    apply IH; assumption.
Qed.

(** The post-install steps all run, whatever each of them answers. *)
Lemma run_steps_all (steps : list string) (w : World Sys) :
  outcome os_exec (Installer.run_steps steps) w = Returned tt /\
  world_after os_exec (Installer.run_steps steps) w =
    after_commands os_exec steps (Some 120000%N) w.
Proof.
  revert w. induction steps as [| step rest IH]; intros w.
  - split; reflexivity.
  - rewrite run_steps_cons.
    rewrite outcome_bind, world_after_bind, outcome_executeCommand,
      world_after_executeCommand.
    apply IH.
Qed.

#[local] Hint Resolve never_throws_executeCommand never_throws_commandExists
  never_throws_configureShellEnvironment never_throws_try_alternatives
  never_throws_run_steps : total.

Lemma never_throws_finish_install (toolConfig : ToolConfig)
    (installMethod : InstallMethod) (installDetails : string) :
  never_throws (finish_install proc toolConfig installMethod installDetails).
Proof. unfold finish_install, configure_if_needed. never_throws_auto. Qed.

Lemma never_throws_install_body (toolConfig : ToolConfig)
    (packageManager : PackageManagerInfo) (installMethod : InstallMethod) :
  never_throws (install_body proc toolConfig packageManager installMethod).
Proof.
  unfold install_body. never_throws_auto. apply never_throws_finish_install.
Qed.

(** Steps 1 to 4 passed, [installTool] is its [try] block. *)
Lemma installTool_reaches (toolName : string) (options : option (option string))
    (w : World Sys) (toolConfig : ToolConfig) (packageManager : PackageManagerInfo)
    (installMethod : InstallMethod) :
  reaches_install os_exec catalog proc toolName w toolConfig packageManager installMethod ->
  outcome os_exec (Installer.installTool catalog proc toolName options) w =
  outcome os_exec (install_body proc toolConfig packageManager installMethod)
    (before_install os_exec proc toolConfig w).
Proof.
  intros (Hcfg & Hprobe & Hdetect & Hmethod).
  unfold Installer.installTool. rewrite Hcfg.
  rewrite outcome_bind, outcome_commandExists, Hprobe, world_after_commandExists.
  rewrite outcome_bind, Hdetect, Hmethod.
  rewrite outcome_try_catch_never_throws;
    [reflexivity | apply never_throws_install_body].
Qed.

Lemma outcome_finish_install (toolConfig : ToolConfig) (installMethod : InstallMethod)
    (d : string) (w : World Sys) :
  let w1 := after_post_install os_exec installMethod w in
  exists restart,
    outcome os_exec (configure_if_needed proc toolConfig) w1 = Returned restart /\
    outcome os_exec (finish_install proc toolConfig installMethod d) w =
    Returned (verification_result toolConfig d
                (probe os_exec (commandToCheck toolConfig)
                   (world_after os_exec (configure_if_needed proc toolConfig) w1))
                restart).
Proof.
  intros w1.
  assert (never_throws (configure_if_needed proc toolConfig)) as Hnt
    by (unfold configure_if_needed; never_throws_auto).
  destruct (never_throws_returns os_exec _ Hnt w1) as [restart Hrestart].
  exists restart. split; [exact Hrestart |].
  assert (outcome os_exec
            match postInstallSteps installMethod with
            | Some steps => Installer.run_steps steps
            | None => Ret tt
            end w = Returned tt /\
          world_after os_exec
            match postInstallSteps installMethod with
            | Some steps => Installer.run_steps steps
            | None => Ret tt
            end w = w1) as [Ho Hw].
  { unfold w1, after_post_install.
    destruct (postInstallSteps installMethod) as [steps |]; simpl default.
    - apply run_steps_all.
    - split; reflexivity. }
  unfold finish_install. rewrite outcome_bind, Ho, Hw.
  rewrite outcome_bind, Hrestart.
  rewrite outcome_bind, outcome_commandExists. unfold verification_result.
  destruct (probe os_exec (commandToCheck toolConfig) _ || restart); reflexivity.
Qed.

Lemma install_body_succeeds (toolConfig : ToolConfig)
    (packageManager : PackageManagerInfo) (installMethod : InstallMethod)
    (w : World Sys) (d : string) (w' : World Sys) :
  install_succeeds os_exec packageManager installMethod w d w' ->
  outcome os_exec (install_body proc toolConfig packageManager installMethod) w =
  outcome os_exec (finish_install proc toolConfig installMethod d) w'.
Proof.
  intros H. unfold install_body.
  rewrite outcome_bind, outcome_executeCommand, world_after_executeCommand.
  destruct H as [(Hok & -> & ->) | (Hfail & pre & alt & post & Halts & Hpre & Halt & -> & ->)].
  - rewrite Hok. rewrite outcome_bind. reflexivity.
  - rewrite Hfail, Halts.
    destruct (try_alternatives_first_success pre alt post _ Hpre Halt) as [Ho Hw].
    rewrite outcome_bind, Ho, Hw. reflexivity.
Qed.

Lemma install_body_fails (toolConfig : ToolConfig)
    (packageManager : PackageManagerInfo) (installMethod : InstallMethod)
    (w : World Sys) :
  let primary := packageCmd packageManager installMethod in
  success (exec_result os_exec primary (Some 600000%N) w) = false ->
  match alternativeCommands installMethod with
  | Some alts => alternates_fail os_exec alts (exec_world os_exec primary (Some 600000%N) w)
  | None => True
  end ->
  outcome os_exec (install_body proc toolConfig packageManager installMethod) w =
  Returned (hard_failure toolConfig (exec_result os_exec primary (Some 600000%N) w)).
Proof.
  intros primary Hfail Halts. unfold install_body. fold primary.
  rewrite outcome_bind, outcome_executeCommand, world_after_executeCommand, Hfail.
  destruct (alternativeCommands installMethod) as [alts |].
  - destruct (try_alternatives_all_fail _ _ Halts) as [Ho _].
    rewrite outcome_bind, Ho. reflexivity.
  - rewrite outcome_bind. reflexivity.
Qed.

End InstallFacts.

(** ** What [installTool] returns after its install commands *)

Section InstallClaims.

Context {Sys : Type}.
Variable os_exec : string -> N -> World Sys -> ExecOutcome * World Sys.
Variable catalog : ToolCfg.Catalog.
Variable proc : Process.

Import Shell PackageMgr ToolCfg.

Lemma string_length_append (a b : string) :
  String.length (a +:+ b) = String.length a + String.length b.
Proof.
  induction a as [| c a IH]; [reflexivity |].
  rewrite append_cons. simpl. rewrite IH. reflexivity.
Qed.

(** The message of a verification failure is never the message of a failed
    install command. *)
Lemma soft_failure_message_differs (d : string) :
  d +:+ " installation completed but verification failed" <> "Failed to install " +:+ d.
Proof.
  intros H. apply (f_equal String.length) in H.
  rewrite !string_length_append in H. simpl in H. lia.
Qed.

(** C7.  Once the install commands have succeeded with output [d], the
    post-install steps run, the shell configuration step answers whether it
    wrote the profile ([restart]) and the tool is probed again
    ([verified]).  If [verified] or [restart] holds the result is a success
    with [d] as details and [restart] as restart flag.  Otherwise the result
    is a failure whose message says that installation completed but
    verification failed, which is not the message of a failed install
    command, with details pointing at a shell restart. *)
Theorem final_verification_decides (toolName : string) (options : option (option string))
    (w : World Sys) (toolConfig : ToolConfig) (packageManager : PackageManagerInfo)
    (installMethod : InstallMethod) (d : string) (w' : World Sys) :
  reaches_install os_exec catalog proc toolName w toolConfig packageManager installMethod ->
  install_succeeds os_exec packageManager installMethod
    (before_install os_exec proc toolConfig w) d w' ->
  let w1 := after_post_install os_exec installMethod w' in
  let verified :=
    probe os_exec (commandToCheck toolConfig)
      (world_after os_exec (configure_if_needed proc toolConfig) w1) in
  exists restart r,
    outcome os_exec (configure_if_needed proc toolConfig) w1 = Returned restart /\
    outcome os_exec (Installer.installTool catalog proc toolName options) w = Returned r /\
    (verified || restart = true ->
       Installer.success r = true /\
       Installer.message r = displayName toolConfig +:+ " installed successfully" /\
       Installer.details r = Some d /\
       Installer.needsRestart r = Some restart) /\
    (verified || restart = false ->
       Installer.success r = false /\
       Installer.message r =
         displayName toolConfig +:+ " installation completed but verification failed" /\
       Installer.message r <> "Failed to install " +:+ displayName toolConfig /\
       Installer.details r = Some "The tool may require a shell restart to be available" /\
       Installer.needsRestart r = Some true).
Proof.
  intros Hreach Hinstall w1 verified.
  destruct (outcome_finish_install os_exec proc toolConfig installMethod d w')
    as (restart & Hrestart & Hfinish).
  exists restart, (verification_result toolConfig d verified restart).
  split; [exact Hrestart |]. split.
  - rewrite (installTool_reaches _ _ _ _ _ _ _ _ _ Hreach).
    rewrite (install_body_succeeds _ _ _ _ _ _ _ _ Hinstall). exact Hfinish.
  - unfold verification_result.
    split; intros ->; simpl; repeat split; auto using soft_failure_message_differs.
Qed.

(** C2, as the code has it.  Let the primary install command fail.  If an
    alternate succeeds after every alternate before it has failed, the
    alternates after it are not run and the call goes on to post-install,
    shell configuration and verification with that alternate's captured
    standard output as install details: the returned result is a success
    that carries them when the final probe or the restart flag holds, and
    the verification failure otherwise.  If there is no alternate or every
    alternate fails, the returned result is the failure of the install
    commands, whose details are the primary attempt's error message, or its
    standard error when the message is empty: never an alternate's. *)
Theorem fallback_to_alternates (toolName : string) (options : option (option string))
    (w : World Sys) (toolConfig : ToolConfig) (packageManager : PackageManagerInfo)
    (installMethod : InstallMethod) :
  reaches_install os_exec catalog proc toolName w toolConfig packageManager installMethod ->
  let w0 := before_install os_exec proc toolConfig w in
  let primary := packageCmd packageManager installMethod in
  let packageResult := exec_result os_exec primary (Some 600000%N) w0 in
  let w1 := exec_world os_exec primary (Some 600000%N) w0 in
  success packageResult = false ->
  (forall (pre : list string) (alt : string) (post : list string),
     alternativeCommands installMethod = Some (pre ++ alt :: post) ->
     alternates_fail os_exec pre w1 ->
     let w2 := after_commands os_exec pre (Some 600000%N) w1 in
     let altResult := exec_result os_exec alt (Some 600000%N) w2 in
     success altResult = true ->
     let w3 := after_post_install os_exec installMethod
                 (exec_world os_exec alt (Some 600000%N) w2) in
     let verified :=
       probe os_exec (commandToCheck toolConfig)
         (world_after os_exec (configure_if_needed proc toolConfig) w3) in
     exists restart r,
       outcome os_exec (configure_if_needed proc toolConfig) w3 = Returned restart /\
       outcome os_exec (Installer.installTool catalog proc toolName options) w
         = Returned r /\
       (verified || restart = true ->
          Installer.success r = true /\
          Installer.details r = Some (stdout altResult)) /\
       (verified || restart = false ->
          Installer.success r = false /\
          Installer.message r =
            displayName toolConfig +:+ " installation completed but verification failed")) /\
  (match alternativeCommands installMethod with
   | Some alts => alternates_fail os_exec alts w1
   | None => True
   end ->
   outcome os_exec (Installer.installTool catalog proc toolName options) w =
     Returned {| Installer.success := false;
                 Installer.message := "Failed to install " +:+ displayName toolConfig;
                 Installer.details := Some (or_else (error packageResult)
                                                    (stderr packageResult));
                 Installer.needsRestart := None |}).
Proof.
  intros Hreach w0 primary packageResult w1 Hfail. split.
  - intros pre alt post Halts Hpre w2 altResult Halt w3 verified.
    destruct (outcome_finish_install os_exec proc toolConfig installMethod
                (stdout altResult) (exec_world os_exec alt (Some 600000%N) w2))
      as (restart & Hrestart & Hfinish).
    exists restart, (verification_result toolConfig (stdout altResult) verified restart).
    split; [exact Hrestart |]. split.
    + rewrite (installTool_reaches _ _ _ _ _ _ _ _ _ Hreach). fold w0.
      rewrite (install_body_succeeds os_exec proc toolConfig packageManager installMethod
                 w0 (stdout altResult) (exec_world os_exec alt (Some 600000%N) w2)).
      * exact Hfinish.
      * right. split; [exact Hfail |]. exists pre, alt, post. repeat split; assumption.
    + unfold verification_result. split; intros ->; simpl; auto.
  - intros Halts. rewrite (installTool_reaches _ _ _ _ _ _ _ _ _ Hreach).
    apply (install_body_fails os_exec proc toolConfig packageManager installMethod w0 Hfail Halts).
Qed.

End InstallClaims.

Section InstallExamples.

Import Shell PackageMgr ToolCfg.

Lemma final_verification_decides_witness :
  exists r,
    outcome Sim.exec
      (Installer.installTool TOOL_CONFIGS Sim.zsh_on_linux "git" None)
      Sim.apt_with_git_package = Returned r /\
    Installer.success r = true /\
    Installer.details r = Some "Setting up git (1:2.43.0) ...".
Proof.
  edestruct (final_verification_decides Sim.exec TOOL_CONFIGS Sim.zsh_on_linux
               "git" None Sim.apt_with_git_package)
    as (restart & r & Hrestart & Hr & Hyes & _).
  - repeat split; reflexivity.
  - left. repeat split; reflexivity.
  - exists r. split; [exact Hr |].
    destruct Hyes as (Hs & _ & Hd & _); [reflexivity |]. split; [exact Hs | exact Hd].
Defined.

Lemma fallback_to_alternates_witness :
  exists r,
    outcome Sim.exec
      (Installer.installTool TOOL_CONFIGS Sim.zsh_on_linux "nodejs" None)
      Sim.apt_with_nodesource = Returned r /\
    Installer.success r = true /\
    Installer.details r = Some "Setting up nodejs (20.11.0) ...".
Proof.
  edestruct (fun tc pm im Hreach Hfail =>
               proj1 (fallback_to_alternates Sim.exec TOOL_CONFIGS Sim.zsh_on_linux
                        "nodejs" None Sim.apt_with_nodesource tc pm im Hreach Hfail)
                 ["curl -fsSL https://deb.nodesource.com/setup_lts.x | sudo -E bash -"]
                 "sudo apt-get install -y nodejs" [])
    as (restart & r & Hrestart & Hr & Hyes & _).
  - repeat split; reflexivity.
  - reflexivity.
  - reflexivity.
  - repeat split; reflexivity.
  - reflexivity.
  - exists r. split; [exact Hr |]. apply Hyes. reflexivity.
Defined.

(** When every install command fails, the details are the primary's. *)
Example fallback_exhausted :
  outcome Sim.exec
    (Installer.installTool TOOL_CONFIGS Sim.zsh_on_linux "nodejs" None) Sim.apt_offline =
  Returned {| Installer.success := false;
              Installer.message := "Failed to install Node.js";
              Installer.details :=
                Some "Command failed: sudo apt-get install -y nodejs npm";
              Installer.needsRestart := None |}.
Proof. reflexivity. Qed.

(** C2 as stated does not hold: a succeeding alternate does not make the
    returned result a success.  On an apt machine where the nodejs package
    fails, the first alternate fails and the second alternate succeeds
    without putting [node] on the path, [installTool] returns the
    verification failure, whose details are not the alternate's output. *)
Lemma alternate_success_is_no_guarantee :
  ~ (forall (toolName : string) (w : World Sim.Machine) (toolConfig : ToolConfig)
       (packageManager : PackageManagerInfo) (installMethod : InstallMethod)
       (pre : list string) (alt : string) (post : list string),
       reaches_install Sim.exec TOOL_CONFIGS Sim.zsh_on_linux toolName w
         toolConfig packageManager installMethod ->
       let w0 := before_install Sim.exec Sim.zsh_on_linux toolConfig w in
       let primary := packageCmd packageManager installMethod in
       let w1 := exec_world Sim.exec primary (Some 600000%N) w0 in
       success (exec_result Sim.exec primary (Some 600000%N) w0) = false ->
       alternativeCommands installMethod = Some (pre ++ alt :: post) ->
       alternates_fail Sim.exec pre w1 ->
       let altResult :=
         exec_result Sim.exec alt (Some 600000%N)
           (after_commands Sim.exec pre (Some 600000%N) w1) in
       success altResult = true ->
       exists r,
         outcome Sim.exec
           (Installer.installTool TOOL_CONFIGS Sim.zsh_on_linux toolName None) w
           = Returned r /\
         Installer.success r = true /\
         Installer.details r = Some (stdout altResult)).
Proof.
  intros H.
  edestruct (fun tc pm im =>
               H "nodejs" Sim.apt_with_nodesource_off_path tc pm im
                 ["curl -fsSL https://deb.nodesource.com/setup_lts.x | sudo -E bash -"]
                 "sudo apt-get install -y nodejs" [])
    as (r & Hr & Hs & _).
  - repeat split; reflexivity.
  - reflexivity.
  - reflexivity.
  - repeat split; reflexivity.
  - reflexivity.
  - vm_compute in Hr. injection Hr as <-. discriminate Hs.
Qed.

End InstallExamples.

(** ** Batches *)

Section Batch.

Context {Sys : Type}.
Variable os_exec : string -> N -> World Sys -> ExecOutcome * World Sys.
Variable catalog : ToolCfg.Catalog.
Variable proc : Process.

Local Abbreviation installTool := (Installer.installTool catalog proc).
Local Abbreviation install_loop := (Installer.install_loop catalog proc).
Local Abbreviation installMultipleTools := (Installer.installMultipleTools catalog proc).

Lemma set_property_plain (key : string) (value : Installer.InstallResult)
    (results : gmap string Installer.InstallResult) :
  key <> "__proto__" -> Installer.set_property key value results = <[key := value]> results.
Proof.
  intros H. unfold Installer.set_property.
  destruct (String.eqb_spec key "__proto__"); [contradiction | reflexivity].
Qed.

Lemma install_loop_cons (toolName : string) (rest : list string)
    (results : gmap string Installer.InstallResult) :
  install_loop (toolName :: rest) results =
  bind (installTool toolName None)
    (fun r => install_loop rest (Installer.set_property toolName r results)).
Proof. reflexivity. Qed.

Lemma installTool_returns (toolName : string) (w : World Sys) :
  ToolCfg.finds_inherited catalog toolName = false ->
  exists r, outcome os_exec (installTool toolName None) w = Returned r.
Proof. intros H. apply never_throws_returns, never_throws_installTool, H. Qed.

(** Over plain names the loop returns the results it started from, with an
    entry for every name of the list; the results it started from have no
    influence on what it does. *)
Lemma install_loop_results (toolNames : list string)
    (results : gmap string Installer.InstallResult) (w : World Sys) :
  plain_names catalog toolNames ->
  exists final,
    outcome os_exec (install_loop toolNames results) w = Returned final /\
    (forall k, k ∉ toolNames -> final !! k = results !! k) /\
    (forall k, k ∈ toolNames -> is_Some (final !! k)) /\
    world_after os_exec (install_loop toolNames results) w =
      world_after os_exec (install_loop toolNames ∅) w /\
    trace os_exec (install_loop toolNames results) w =
      trace os_exec (install_loop toolNames ∅) w.
Proof.
  intros Hplain. revert results w.
  induction Hplain as [| n rest [Hn Hproto] _ IH]; intros results w.
  - exists results. repeat split; auto. intros k Hk. apply elem_of_nil in Hk as [].
  - destruct (installTool_returns n w Hn) as [r Hr].
    rewrite !install_loop_cons, !outcome_bind, !world_after_bind, !trace_bind, Hr.
    rewrite !(set_property_plain n r _ Hproto).
    destruct (IH (<[n := r]> results) (world_after os_exec (installTool n None) w))
      as (final & Ho & Hout & Hin & Hw & Ht).
    destruct (IH (<[n := r]> ∅) (world_after os_exec (installTool n None) w))
      as (_ & _ & _ & _ & Hw' & Ht').
    exists final. split; [exact Ho |]. repeat split.
    + intros k Hk. apply not_elem_of_cons in Hk as [Hne Hk].
      rewrite (Hout k Hk). apply lookup_insert_ne. congruence.
    + intros k Hk. destruct (decide (k ∈ rest)) as [Hrest | Hrest]; [auto |].
      apply elem_of_cons in Hk as [-> | Hk]; [| contradiction].
      rewrite (Hout n Hrest), lookup_insert_eq. eauto.
    + rewrite Hw, Hw'. reflexivity.
    + rewrite Ht, Ht'. reflexivity.
Qed.

(** A list of names that starts with plain names is processed as that
    first part, then the rest from the world and the results the first
    part left. *)
Lemma install_loop_app (pre post : list string)
    (results : gmap string Installer.InstallResult) (w : World Sys) :
  plain_names catalog pre ->
  exists mid,
    outcome os_exec (install_loop pre results) w = Returned mid /\
    outcome os_exec (install_loop (pre ++ post) results) w =
      outcome os_exec (install_loop post mid)
        (world_after os_exec (install_loop pre results) w) /\
    trace os_exec (install_loop (pre ++ post) results) w =
      trace os_exec (install_loop pre results) w ++
      trace os_exec (install_loop post mid)
        (world_after os_exec (install_loop pre results) w).
Proof.
  intros Hplain. revert results w.
  induction Hplain as [| n pre [Hn Hproto] _ IH]; intros results w.
  - exists results. repeat split.
  - destruct (installTool_returns n w Hn) as [r Hr]. simpl app.
    rewrite !install_loop_cons, !outcome_bind, !world_after_bind, !trace_bind, Hr.
    destruct (IH (Installer.set_property n r results)
                (world_after os_exec (installTool n None) w))
      as (mid & Hmid & Ho & Ht).
    exists mid. split; [exact Hmid |]. split; [exact Ho |].
    rewrite Ht, app_assoc. reflexivity.
Qed.

(** The loop never gives its results a property [__proto__]. *)
Lemma install_loop_no_proto (toolNames : list string)
    (results final : gmap string Installer.InstallResult) (w : World Sys) :
  outcome os_exec (install_loop toolNames results) w = Returned final ->
  results !! "__proto__" = None -> final !! "__proto__" = None.
Proof.
  revert results w. induction toolNames as [| n rest IH]; intros results w.
  - intros [= <-]. auto.
  - rewrite install_loop_cons, outcome_bind.
    destruct (outcome os_exec (installTool n None) w) as [r | m]; [| discriminate].
    intros Hfinal Hnone. apply (IH _ _ Hfinal). unfold Installer.set_property.
    destruct (String.eqb_spec n "__proto__") as [| Hne]; [exact Hnone |].
    rewrite lookup_insert_ne by congruence. exact Hnone.
Qed.

(** X26.  Over names none of which is found through the prototype only or
    is [__proto__], [installMultipleTools] never throws and returns a
    mapping that has a key for exactly the input names.  For every position
    of the input, the effects of the batch are the effects of the batch of
    the names before it, then those of one [installTool] call for the name
    at that position, run in the world the names before it left (whatever
    their results were), then those of the batch of the names after it.
    Under each name the mapping holds what the last call for that name
    returned. *)
Theorem installMultipleTools_isolates (toolNames : list string) (w : World Sys) :
  plain_names catalog toolNames ->
  exists results,
    outcome os_exec (installMultipleTools toolNames) w = Returned results /\
    (forall n, n ∈ toolNames <-> is_Some (results !! n)) /\
    (forall (pre : list string) (n : string) (post : list string),
       toolNames = pre ++ n :: post ->
       let w1 := world_after os_exec (installMultipleTools pre) w in
       let w2 := world_after os_exec (installTool n None) w1 in
       trace os_exec (installMultipleTools toolNames) w =
         trace os_exec (installMultipleTools pre) w ++
         trace os_exec (installTool n None) w1 ++
         trace os_exec (installMultipleTools post) w2 /\
       exists r,
         outcome os_exec (installTool n None) w1 = Returned r /\
         (n ∉ post -> results !! n = Some r)).
Proof.
  intros Hplain. unfold Installer.installMultipleTools.
  destruct (install_loop_results toolNames ∅ w Hplain) as (results & Ho & Hout & Hin & _).
  exists results. split; [exact Ho |]. split.
  - intros n. split; [apply Hin |].
    intros Hn. destruct (decide (n ∈ toolNames)) as [| Hno]; [assumption |].
    rewrite (Hout n Hno), lookup_empty in Hn. destruct Hn as [? [=]].
  - intros pre n post Heq. subst toolNames.
    unfold plain_names in Hplain. apply Forall_app in Hplain as [Hpre Hrest].
    apply Forall_cons in Hrest as [[Hn Hproto] Hpost].
    set (w1 := world_after os_exec (install_loop pre ∅) w).
    set (w2 := world_after os_exec (installTool n None) w1).
    destruct (install_loop_app pre (n :: post) ∅ w Hpre) as (mid & Hmid & Hsplit & Ht).
    destruct (installTool_returns n w1 Hn) as [r Hr].
    fold w1 in Hsplit, Ht.
    rewrite install_loop_cons, outcome_bind, Hr in Hsplit. fold w2 in Hsplit.
    rewrite install_loop_cons, trace_bind, Hr in Ht. fold w2 in Ht.
    rewrite (set_property_plain n r mid Hproto) in Hsplit, Ht.
    destruct (install_loop_results post (<[n := r]> mid) w2 Hpost)
      as (final & Hfinal & Hkeep & _ & _ & Htrace).
    split.
    + rewrite Ht, Htrace. reflexivity.
    + exists r. split; [exact Hr |]. intros Hn'.
      rewrite Hsplit, Hfinal in Ho. injection Ho as <-.
      rewrite (Hkeep n Hn'). apply lookup_insert_eq.
Qed.

(** C6 fails on a name that the catalog does not hold but every object
    inherits.  When the names before it are plain, the first probe does not
    find the word [undefined] and a package manager is detected, the call
    of [installTool] for that name throws, outside its [try], and with it
    the whole batch: the effects of the batch end with the probes of the
    detection, no name after it is attempted, and no mapping is returned.
    And whatever the names, a mapping that is returned has no key
    [__proto__]. *)
Theorem installMultipleTools_rejects_on_inherited_name (pre : list string) (n : string)
    (post : list string) (fname : option string)
    (packageManager : PackageMgr.PackageManagerInfo) (w : World Sys) :
  let w1 := world_after os_exec (installMultipleTools pre) w in
  let w2 := probe_world os_exec undefined w1 in
  plain_names catalog pre ->
  ToolCfg.getToolConfig catalog n = Some (ToolCfg.Inherited fname) ->
  probe os_exec undefined w1 = false ->
  outcome os_exec (PackageMgr.detectPackageManager proc) w2
    = Returned (Some packageManager) ->
  outcome os_exec (installMultipleTools (pre ++ n :: post)) w =
    Thrown ("Cannot read properties of undefined (reading '"
            +:+ PackageMgr.PackageManager_value (PackageMgr.name packageManager)
            +:+ "')") /\
  trace os_exec (installMultipleTools (pre ++ n :: post)) w =
    trace os_exec (installMultipleTools pre) w ++
    probe_event os_exec undefined w1 ::
    trace os_exec (PackageMgr.detectPackageManager proc) w2 /\
  (forall toolNames w' results,
     outcome os_exec (installMultipleTools toolNames) w' = Returned results ->
     results !! "__proto__" = None).
Proof.
  intros w1 w2 Hpre Hn Hprobe Hdetect. unfold Installer.installMultipleTools in *.
  assert (run os_exec (installTool n None) w1 =
            (Thrown ("Cannot read properties of undefined (reading '"
                     +:+ PackageMgr.PackageManager_value (PackageMgr.name packageManager)
                     +:+ "')"),
             world_after os_exec (PackageMgr.detectPackageManager proc) w2,
             probe_event os_exec undefined w1 ::
             trace os_exec (PackageMgr.detectPackageManager proc) w2)) as Hrun.
  { unfold Installer.installTool. rewrite Hn, run_bind, run_commandExists, Hprobe.
    cbv beta iota. fold w2. rewrite run_bind. unfold outcome, world_after, trace in *.
    destruct (run os_exec (PackageMgr.detectPackageManager proc) w2) as [[o w3] t].
    simpl in Hdetect |- *. subst o. simpl. rewrite app_nil_r. reflexivity. }
  destruct (install_loop_app pre (n :: post) ∅ w Hpre) as (mid & Hmid & Hsplit & Ht).
  fold w1 in Hsplit, Ht.
  pose proof (f_equal (fun x => x.1.1) Hrun) as Houtcome.
  pose proof (f_equal snd Hrun) as Htrace.
  change (outcome os_exec (installTool n None) w1 = Thrown
            ("Cannot read properties of undefined (reading '"
             +:+ PackageMgr.PackageManager_value (PackageMgr.name packageManager)
             +:+ "')")) in Houtcome.
  change (trace os_exec (installTool n None) w1 =
            probe_event os_exec undefined w1 ::
            trace os_exec (PackageMgr.detectPackageManager proc) w2) in Htrace.
  split; [| split].
  - rewrite Hsplit, install_loop_cons, outcome_bind, Houtcome. reflexivity.
  - rewrite Ht, install_loop_cons, trace_bind, Houtcome, Htrace. reflexivity.
  - intros toolNames w' results Hresults.
    apply (install_loop_no_proto toolNames ∅ results w' Hresults), lookup_empty.
Qed.

End Batch.

Lemma installMultipleTools_isolates_witness :
  exists results,
    outcome Sim.exec
      (Installer.installMultipleTools ToolCfg.TOOL_CONFIGS Sim.zsh_on_linux
         ["cobol"; "git"])
      Sim.apt_with_git_package = Returned results /\
    (Installer.success <$> results !! "cobol") = Some false /\
    (Installer.success <$> results !! "git") = Some true.
Proof.
  destruct (installMultipleTools_isolates Sim.exec ToolCfg.TOOL_CONFIGS Sim.zsh_on_linux
              ["cobol"; "git"] Sim.apt_with_git_package)
    as (results & Ho & _ & Hsplit).
  { repeat constructor; discriminate. }
  exists results. split; [exact Ho |]. split.
  - destruct (Hsplit [] "cobol" ["git"] eq_refl) as (_ & r & Hr & Hlast).
    rewrite Hlast.
    + vm_compute in Hr. injection Hr as <-. reflexivity.
    + apply unknown_name_not_listed. reflexivity.
  - destruct (Hsplit ["cobol"] "git" [] eq_refl) as (_ & r & Hr & Hlast).
    rewrite Hlast.
    + vm_compute in Hr. injection Hr as <-. reflexivity.
    + apply not_elem_of_nil.
Defined.

(** The batch [hasOwnProperty], [git] on an apt machine on which git can be
    installed: the batch rejects after two probes and git is never
    attempted, though on its own it installs.  The batch [__proto__], [git]
    on a machine without package manager: both calls return a failure, and
    the mapping has a key for git only. *)
Lemma installMultipleTools_rejects_on_inherited_name_witness :
  let batch := Installer.installMultipleTools ToolCfg.TOOL_CONFIGS Sim.zsh_on_linux in
  outcome Sim.exec (batch ["hasOwnProperty"; "git"]) Sim.apt_with_git_package =
    Thrown "Cannot read properties of undefined (reading 'apt')" /\
  exec_commands (trace Sim.exec (batch ["hasOwnProperty"; "git"]) Sim.apt_with_git_package) =
    [("which undefined", 60000%N); ("which apt-get", 60000%N)] /\
  (Installer.success <$>
     (outcome_value (outcome Sim.exec (batch ["git"]) Sim.apt_with_git_package)
        ≫= (.!! "git"))) = Some true /\
  (outcome_value (outcome Sim.exec (batch ["__proto__"; "git"]) Sim.bare)
     ≫= (.!! "__proto__")) = None /\
  (Installer.success <$>
     (outcome_value (outcome Sim.exec (batch ["__proto__"; "git"]) Sim.bare)
        ≫= (.!! "git"))) = Some false.
Proof.
  cbv zeta.
  edestruct (fun pm =>
               installMultipleTools_rejects_on_inherited_name Sim.exec
                 ToolCfg.TOOL_CONFIGS Sim.zsh_on_linux [] "hasOwnProperty" ["git"]
                 (Some "hasOwnProperty") pm Sim.apt_with_git_package)
    as (Ho & Ht & _);
    [constructor | reflexivity | reflexivity | reflexivity |].
  split; [exact Ho |]. split; [| repeat split; vm_compute; reflexivity].
  etransitivity; [exact (f_equal exec_commands Ht) | reflexivity].
Defined.

(** ** Promises settled in any order *)

Section PromiseFacts.

Context {Sys : Type} {A : Type}.
Variable os_exec : string -> N -> World Sys -> ExecOutcome * World Sys.

(** What is known of the value at each position. *)
Variable P : nat -> A -> Prop.

Import Promise.

Lemma yields_not_thrown (Q : A -> Prop) (n : nat) (t : Prog A) :
  yields Q n t -> thrown t = None.
Proof. destruct t; simpl; [reflexivity | intros [] | reflexivity]. Qed.

Lemma first_thrown_none (ts : list (Prog A)) :
  (forall i t, ts !! i = Some t -> exists n, yields (P i) n t) ->
  first_thrown ts = None.
Proof.
  clear os_exec. revert P. induction ts as [| t ts IH]; intros Q H; simpl; [reflexivity |].
  destruct (H 0 t eq_refl) as [n Hn]. rewrite (yields_not_thrown _ _ _ Hn).
  apply (IH (fun i => Q (S i))). intros i t' Hi. exact (H (S i) t' Hi).
Qed.

(** One completion uses up one unit of the budget of the call it resumes
    and leaves the other calls alone. *)
Lemma settle_keeps (pool : Pool) (j : nat) (budget : nat -> nat) :
  (forall i t, tasks pool !! i = Some t -> yields (P i) (budget i) t) ->
  rejection pool = None ->
  (forall i t, tasks (settle os_exec pool j) !! i = Some t ->
     yields (P i) (budget i - (if Nat.eqb i j then 1 else 0)) t) /\
  rejection (settle os_exec pool j) = None /\
  length (tasks (settle os_exec pool j)) = length (tasks pool).
Proof.
  intros Hinv Hrej. unfold settle.
  destruct (tasks pool !! j) as [[a | m | X e k] |] eqn:Hj.
  - repeat split; auto. intros i t Hi.
    destruct (Nat.eqb_spec i j) as [-> | _].
    + rewrite Hj in Hi. injection Hi as <-. exact (Hinv j _ Hj).
    + rewrite Nat.sub_0_r. auto.
  - destruct (Hinv j _ Hj).
  - pose proof (Hinv j _ Hj) as Hk. simpl in Hk.
    destruct (handle os_exec e (world pool)) as [x w1]. simpl.
    destruct (budget j) as [| n] eqn:Hb; [destruct Hk |].
    repeat split.
    + intros i t Hi. destruct (Nat.eqb_spec i j) as [-> | Hne].
      * rewrite list_lookup_insert_eq in Hi by (apply lookup_lt_is_Some; eauto).
        injection Hi as <-. rewrite Hb. simpl. rewrite Nat.sub_0_r. apply Hk.
      * rewrite list_lookup_insert_ne in Hi by congruence.
        rewrite Nat.sub_0_r. auto.
    + rewrite Hrej. exact (yields_not_thrown _ _ _ (Hk x)).
    + apply length_insert.
  - repeat split; auto. intros i t Hi.
    destruct (Nat.eqb_spec i j) as [-> | _]; [congruence |].
    rewrite Nat.sub_0_r. auto.
Qed.

Lemma settle_all_keeps (schedule : list nat) (pool : Pool) (budget : nat -> nat) :
  (forall i t, tasks pool !! i = Some t -> yields (P i) (budget i) t) ->
  rejection pool = None ->
  (forall i t, tasks (fold_left (settle os_exec) schedule pool) !! i = Some t ->
     yields (P i) (budget i - turns i schedule) t) /\
  rejection (fold_left (settle os_exec) schedule pool) = None /\
  length (tasks (fold_left (settle os_exec) schedule pool)) = length (tasks pool).
Proof.
  revert pool budget. induction schedule as [| j rest IH]; intros pool budget Hinv Hrej.
  - simpl. repeat split; auto. intros i t Hi. rewrite Nat.sub_0_r. auto.
  - destruct (settle_keeps pool j budget Hinv Hrej) as (Hinv1 & Hrej1 & Hlen1).
    destruct (IH _ _ Hinv1 Hrej1) as (Hinv2 & Hrej2 & Hlen2).
    simpl fold_left. repeat split; [| assumption | congruence].
    intros i t Hi. specialize (Hinv2 i t Hi). simpl turns.
    rewrite Nat.sub_add_distr. exact Hinv2.
Qed.

Lemma fulfilled_positional (ts : list (Prog A)) (vs : list A) :
  (forall i t, ts !! i = Some t -> exists n, yields (P i) n t) ->
  fulfilled ts = Some vs ->
  length vs = length ts /\ forall i v, vs !! i = Some v -> P i v.
Proof.
  clear os_exec. revert P vs. induction ts as [| t ts IH]; intros Q vs H; simpl.
  - intros [= <-]. split; [reflexivity |]. intros i v Hi. destruct i; discriminate.
  - destruct t as [a | m | X e k]; try discriminate.
    destruct (fulfilled ts) as [vs' |] eqn:Hvs; [| discriminate]. intros [= <-].
    destruct (IH (fun i => Q (S i)) vs') as [Hlen Hpos]; [| reflexivity |].
    { intros i t Hi. exact (H (S i) t Hi). }
    split; [simpl; congruence |]. intros [| i] v Hi.
    + injection Hi as <-. destruct (H 0 _ eq_refl) as [n Hn]. exact Hn.
    + apply Hpos. exact Hi.
Qed.

Lemma fulfilled_when_done (ts : list (Prog A)) :
  (forall i t, ts !! i = Some t -> yields (P i) 0 t) -> is_Some (fulfilled ts).
Proof.
  clear os_exec. revert P. induction ts as [| t ts IH]; intros Q H; simpl; [eauto |].
  pose proof (H 0 t eq_refl) as Ht. destruct t as [a | m | X e k]; try destruct Ht.
  destruct (IH (fun i => Q (S i))) as [vs Hvs].
  { intros i t Hi. exact (H (S i) t Hi). }
  rewrite Hvs. eauto.
Qed.

(** [Promise.all] over calls that return within [n] effects and do not
    throw: it never rejects; whenever it is fulfilled the values are in the
    positions of their calls; and it is fulfilled once every call has had
    [n] turns, whatever the order of the turns. *)
Lemma all_positional (ts : list (Prog A)) (n : nat) (schedule : list nat)
    (w : World Sys) :
  (forall i t, ts !! i = Some t -> yields (P i) n t) ->
  (forall m, (all os_exec ts schedule w).1.1 <> Some (Thrown m)) /\
  (forall vs, (all os_exec ts schedule w).1.1 = Some (Returned vs) ->
     length vs = length ts /\ forall i v, vs !! i = Some v -> P i v) /\
  ((forall i, i < length ts -> n <= turns i schedule) ->
   exists vs, (all os_exec ts schedule w).1.1 = Some (Returned vs)).
Proof.
  intros H. unfold all. simpl.
  assert (rejection (start ts w) = None) as Hrej0.
  { simpl. apply first_thrown_none. eauto. }
  destruct (settle_all_keeps schedule (start ts w) (fun _ => n) H Hrej0)
    as (Hinv & Hrej & Hlen).
  unfold settled. rewrite Hrej. simpl in Hlen. split; [| split].
  - intros m. destruct (fulfilled _); discriminate.
  - intros vs Hvs.
    destruct (fulfilled _) as [vs' |] eqn:Hvs'; [| discriminate]. injection Hvs as <-.
    destruct (fulfilled_positional
                (tasks (fold_left (settle os_exec) schedule (start ts w))) vs')
      as [Hl Hp]; [eauto | exact Hvs' |].
    split; [congruence | exact Hp].
  - intros Hfair.
    destruct (fulfilled_when_done (tasks (fold_left (settle os_exec) schedule (start ts w))))
      as [vs Hvs].
    + intros i t Hi. pose proof (Hinv i t Hi) as Hy.
      assert (i < length ts) as Hlt
        by (rewrite <- Hlen; apply lookup_lt_is_Some; eauto).
      replace (n - turns i schedule) with 0 in Hy by (specialize (Hfair i Hlt); lia).
      exact Hy.
    + exists vs. rewrite Hvs. reflexivity.
Qed.

End PromiseFacts.

(** ** All tools at once *)

Section Aggregate.

Context {Sys : Type}.
Variable os_exec : string -> N -> World Sys -> ExecOutcome * World Sys.
Variable catalog : ToolCfg.Catalog.

Import Shell ToolCfg.

Lemma getToolConfig_lookup (entries : Catalog) (i : nat) (key : string)
    (config : ToolConfig) :
  NoDup (getAllToolNames entries) ->
  entries !! i = Some (key, config) ->
  getToolConfig entries key = Some (Own config).
Proof.
  rewrite getToolConfig_Own. unfold getAllToolNames. revert i.
  induction entries as [| [k c] rest IH]; intros i Hnd Hi; [destruct i; discriminate |].
  apply NoDup_cons in Hnd as [Hk Hnd]. simpl.
  destruct i as [| i].
  - injection Hi as -> ->. rewrite String.eqb_refl. reflexivity.
  - simpl in Hi. destruct (String.eqb_spec k key) as [-> | _]; [| eauto].
    exfalso. apply Hk. apply list_elem_of_fmap. exists (key, config).
    split; [reflexivity |]. apply list_elem_of_lookup. eauto.
Qed.

(** A status check takes at most two commands, never throws, and names the
    tool as its catalog entry does. *)
Lemma checkToolInstalled_yields (key : string) (config : ToolConfig) :
  getToolConfig catalog key = Some (Own config) ->
  yields (fun st => Validator.name st = Some (name config) /\
                    Validator.displayName st = Some (displayName config))
    2 (Validator.checkToolInstalled catalog key).
Proof.
  intros H. unfold Validator.checkToolInstalled. rewrite H.
  simpl. intros [out err | out err m]; simpl; [| auto].
  destruct (Nat.ltb 0 (String.length (trim out))); simpl; [| auto].
  intros [out' err' | out' err' m']; simpl; auto.
Qed.

(** C8.  Over a catalog of N entries (no key twice), for every order in
    which the probes complete and whatever they answer: [checkAllTools]
    never rejects; whenever it is fulfilled the result has exactly N
    statuses and the status at each position carries the name and display
    name of the catalog entry at that position; and it is fulfilled once
    every check has had its two completions. *)
Theorem checkAllTools_in_catalog_order (schedule : list nat) (w : World Sys) :
  NoDup (getAllToolNames catalog) ->
  (forall m, (Validator.checkAllTools catalog os_exec schedule w).1.1 <> Some (Thrown m)) /\
  (forall statuses,
     (Validator.checkAllTools catalog os_exec schedule w).1.1 = Some (Returned statuses) ->
     length statuses = length catalog /\
     forall i key config st,
       catalog !! i = Some (key, config) -> statuses !! i = Some st ->
       Validator.name st = Some (name config) /\
       Validator.displayName st = Some (displayName config)) /\
  ((forall i, i < length catalog -> 2 <= turns i schedule) ->
   exists statuses,
     (Validator.checkAllTools catalog os_exec schedule w).1.1 = Some (Returned statuses)).
Proof.
  intros Hnd. unfold Validator.checkAllTools, Validator.checkMultipleTools.
  set (ts := Validator.checkToolInstalled catalog <$> getAllToolNames catalog).
  assert (length ts = length catalog) as Hlen
    by (unfold ts, getAllToolNames; rewrite !length_fmap; reflexivity).
  pose (Q := fun (i : nat) (st : Validator.ToolStatus) =>
               forall key config, catalog !! i = Some (key, config) ->
                 Validator.name st = Some (name config) /\
                 Validator.displayName st = Some (displayName config)).
  assert (forall i t, ts !! i = Some t -> yields (Q i) 2 t) as Hts.
  { intros i t Hi. unfold ts, getAllToolNames in Hi.
    rewrite !list_lookup_fmap in Hi.
    destruct (catalog !! i) as [[key config] |] eqn:Hc; simpl in Hi; [| discriminate].
    injection Hi as <-.
    pose proof (checkToolInstalled_yields key config
                  (getToolConfig_lookup catalog i key config Hnd Hc)) as Hy.
    revert Hy. generalize (Validator.checkToolInstalled catalog key).
    intros p. generalize 2. clear -Hc. intros n. revert n.
    induction p as [a | m | X e k IH]; intros n; simpl.
    - intros Ha key' config' Hc'. rewrite Hc in Hc'. injection Hc' as <- <-. exact Ha.
    - auto.
    - destruct n; [auto |]. intros Hk x. apply IH, Hk. }
  destruct (all_positional os_exec Q ts 2 schedule w Hts) as (Hno & Hpos & Hdone).
  split; [exact Hno |]. split.
  - intros statuses Hs. destruct (Hpos statuses Hs) as [Hl Hq].
    split; [congruence |]. intros i key config st Hc Hst. exact (Hq i st Hst key config Hc).
  - rewrite <- Hlen. exact Hdone.
Qed.

End Aggregate.

Lemma TOOL_CONFIGS_NoDup : NoDup (ToolCfg.getAllToolNames ToolCfg.TOOL_CONFIGS).
Proof. apply (bool_decide_unpack _). vm_compute. exact I. Qed.

Lemma checkAllTools_in_catalog_order_witness :
  exists statuses,
    (Validator.checkAllTools ToolCfg.TOOL_CONFIGS Sim.exec
       [7; 6; 5; 4; 3; 2; 1; 0; 0; 1; 2; 3; 4; 5; 6; 7]
       (Sim.machine ["git"; "node"] [])).1.1 = Some (Returned statuses) /\
    Validator.name <$> statuses =
      Some <$> ["python"; "nodejs"; "git"; "docker"; "java"; "go"; "rust"; "flutter"] /\
    Validator.installed <$> statuses =
      [false; true; true; false; false; false; false; false].
Proof.
  destruct (checkAllTools_in_catalog_order Sim.exec ToolCfg.TOOL_CONFIGS
              [7; 6; 5; 4; 3; 2; 1; 0; 0; 1; 2; 3; 4; 5; 6; 7]
              (Sim.machine ["git"; "node"] []) TOOL_CONFIGS_NoDup)
    as (_ & _ & Hdone).
  destruct Hdone as [statuses Hs].
  - intros i Hi. repeat (destruct i as [| i]; [vm_compute; lia |]). simpl in Hi. lia.
  - exists statuses. split; [exact Hs |].
    vm_compute in Hs. injection Hs as <-. split; reflexivity.
Defined.

(** ** The nvm bootstrap *)

Section Nvm.

Context {Sys : Type}.
Variable os_exec : string -> N -> World Sys -> ExecOutcome * World Sys.
Variable catalog : ToolCfg.Catalog.
Variable proc : Process.

Import Shell.

Lemma installNvm_steps :
  Installer.installNvm proc =
  bind (commandExists "nvm")
    (fun nvmExists =>
       if nvmExists then
         Ret {| Installer.success := true;
                Installer.message := "nvm is already installed";
                Installer.details := None;
                Installer.needsRestart := None |}
       else
         bind (executeCommand nvm_bootstrap (Some 120000%N))
           (fun result =>
              bind (nvm_profile_step proc)
                (fun _ =>
                   Ret {| Installer.success := true;
                          Installer.message := "nvm installed successfully";
                          Installer.details := Some (stdout result);
                          Installer.needsRestart := Some true |}))).
Proof. reflexivity. Qed.

Lemma run_installNvm_success (w w1 : World Sys) (r : Installer.InstallResult)
    (t : list Event) :
  run os_exec (Installer.installNvm proc) w = (Returned r, w1, t) ->
  Installer.success r = true.
Proof.
  rewrite installNvm_steps, run_bind, run_commandExists.
  destruct (probe os_exec "nvm" w); cbv beta iota.
  - simpl. intros [= <- _ _]. reflexivity.
  - rewrite run_bind, run_executeCommand. cbv beta iota. rewrite run_bind.
    destruct (run os_exec (nvm_profile_step proc) _) as [[[[] | m] w2] t2]; simpl.
    + intros [= <- _ _]. reflexivity.
    + discriminate.
Qed.

(** The profile step returns when the profile can be written. *)
Lemma nvm_profile_step_writable (w : World Sys) :
  getShellConfigPath proc ∉ write_protected w ->
  outcome os_exec (nvm_profile_step proc) w = Returned tt.
Proof.
  intros Hw. unfold outcome, nvm_profile_step. simpl.
  destruct (files w !! getShellConfigPath proc) as [content |]; simpl.
  - destruct (decide (getShellConfigPath proc ∈ read_protected w)); simpl.
    + destruct (decide (getShellConfigPath proc ∈ write_protected w)); [contradiction |].
      reflexivity.
    + destruct (negb (includes content "NVM_DIR")); simpl; [| reflexivity].
      destruct (decide (getShellConfigPath proc ∈ write_protected w)); [contradiction |].
      reflexivity.
  - destruct (decide (getShellConfigPath proc ∈ write_protected w)); [contradiction |].
    reflexivity.
Qed.

(** C10.  Whatever the bootstrap command settles to, a result returned by
    [installNvm] is a success; when nvm was not found it carries the
    restart flag and the bootstrap command's output, and [installNvm] does
    return whenever the shell profile can be written (it can only throw,
    from its last [writeFile] or [appendFile]).  So the branch of
    [installNodeViaTarget] taken when the nvm result is not a success is
    dead: replacing the program of that branch by any other changes
    nothing of what [installNodeViaTarget] does. *)
Theorem installNvm_never_reports_failure (w : World Sys) :
  let w1 := probe_world os_exec "nvm" w in
  let bootstrap := exec_result os_exec nvm_bootstrap (Some 120000%N) w1 in
  let w2 := exec_world os_exec nvm_bootstrap (Some 120000%N) w1 in
  (forall r, outcome os_exec (Installer.installNvm proc) w = Returned r ->
     Installer.success r = true /\
     (probe os_exec "nvm" w = false ->
        Installer.needsRestart r = Some true /\
        Installer.details r = Some (stdout bootstrap))) /\
  (probe os_exec "nvm" w = false ->
   getShellConfigPath proc ∉ write_protected w2 ->
   exists r, outcome os_exec (Installer.installNvm proc) w = Returned r) /\
  (forall (fallback : Prog Installer.InstallResult) (version : option string)
          (w' : World Sys),
     run os_exec (Installer.installNodeViaTarget_with proc fallback version) w' =
     run os_exec (Installer.installNodeViaTarget catalog proc version) w').
Proof.
  intros w1 bootstrap w2. split; [| split].
  - intros r. rewrite installNvm_steps, outcome_bind, outcome_commandExists.
    rewrite world_after_commandExists. fold w1.
    destruct (probe os_exec "nvm" w).
    + intros [= <-]. split; [reflexivity | discriminate].
    + rewrite outcome_bind, outcome_executeCommand, world_after_executeCommand.
      fold bootstrap w2. rewrite outcome_bind.
      destruct (outcome os_exec (nvm_profile_step proc) w2) as [[] | m]; [| discriminate].
      intros [= <-]. repeat split.
  - intros Hnvm Hw.
    rewrite installNvm_steps, outcome_bind, outcome_commandExists, Hnvm.
    rewrite world_after_commandExists. fold w1.
    rewrite outcome_bind, outcome_executeCommand, world_after_executeCommand.
    fold w2. rewrite outcome_bind, (nvm_profile_step_writable w2 Hw). eauto.
  - intros fallback version w'.
    unfold Installer.installNodeViaTarget, Installer.installNodeViaTarget_with.
    rewrite !(run_bind os_exec (commandExists "node")), run_commandExists.
    destruct (probe os_exec "node" w'); [reflexivity |]. cbv beta iota.
    rewrite !(run_bind os_exec (commandExists "nvm")), run_commandExists.
    destruct (probe os_exec "nvm" _); [reflexivity |]. cbv beta iota.
    change (negb false) with true. cbv iota.
    rewrite !(run_bind os_exec (Installer.installNvm proc)).
    destruct (run os_exec (Installer.installNvm proc) _) as [[[r | m] w3] t3] eqn:Hrun;
      [| reflexivity].
    rewrite (run_installNvm_success _ _ _ _ Hrun). reflexivity.
Qed.

End Nvm.

Lemma installNvm_never_reports_failure_witness :
  exists r,
    outcome Sim.exec (Installer.installNvm Sim.zsh_on_linux) Sim.apt_offline = Returned r /\
    Installer.success r = true /\ Installer.needsRestart r = Some true.
Proof.
  destruct (installNvm_never_reports_failure Sim.exec ToolCfg.TOOL_CONFIGS
              Sim.zsh_on_linux Sim.apt_offline) as (Hsucc & Hret & _).
  destruct Hret as [r Hr].
  - reflexivity.
  - apply not_elem_of_empty.
  - exists r. split; [exact Hr |]. destruct (Hsucc r Hr) as [Hs Hrest].
    split; [exact Hs |]. apply Hrest. reflexivity.
Defined.

(** ** Marked blocks *)

Section MarkedBlocks.

Context {Sys : Type}.
Variable os_exec : string -> N -> World Sys -> ExecOutcome * World Sys.
Variable proc : Process.

Import Shell ToolCfg.

Lemma append_assoc (a b c : string) : (a +:+ b) +:+ c = a +:+ b +:+ c.
Proof.
  induction a as [| x a IH]; [reflexivity |].
  rewrite !append_cons, IH. reflexivity.
Qed.

Lemma export_lines_extend (vars : list (string * string)) (init : string) :
  exists rest,
    fold_left
      (fun acc '(key, value) =>
         acc +:+ "export " +:+ key +:+ "=" +:+ dquote +:+ value +:+ dquote +:+ nl)
      vars init = init +:+ rest.
Proof.
  revert init. induction vars as [| [key value] vars IH]; intros init; simpl.
  - exists EmptyString. induction init as [| x init IHi]; [reflexivity |].
    rewrite append_cons, <- IHi. reflexivity.
  - destruct (IH (init +:+ "export " +:+ key +:+ "=" +:+ dquote +:+ value +:+ dquote +:+ nl))
      as [rest Hrest].
    rewrite Hrest, append_assoc. eauto.
Qed.

(** With environment variables the block opens with the marker line. *)
Lemma profile_block_marked (toolConfig : ToolConfig) :
  defined (envVars toolConfig) = true ->
  exists rest, profile_block toolConfig = nl +:+ marker toolConfig +:+ rest.
Proof.
  unfold profile_block, marker. destruct (envVars toolConfig) as [vars |]; [| discriminate].
  intros _.
  destruct (export_lines_extend vars
              (EmptyString +:+ nl +:+ "# " +:+ displayName toolConfig
                 +:+ " Configuration" +:+ nl)) as [rest ->].
  rewrite append_nil_l.
  destruct (truthy (shellConfig toolConfig)); eexists;
    rewrite !append_assoc; reflexivity.
Qed.

Lemma configureShellEnvironment_steps (toolConfig : ToolConfig) :
  Installer.configureShellEnvironment proc toolConfig =
  if String.eqb (profile_block toolConfig) EmptyString then Ret false
  else
    try_catch
      (bind (try_catch (readFile (getShellConfigPath proc)) (fun _ => Ret EmptyString))
         (fun existingContent =>
            if includes existingContent (marker toolConfig) then Ret false
            else bind (appendFile (getShellConfigPath proc) (profile_block toolConfig))
                   (fun _ => Ret true)))
      (fun _ => Ret false).
Proof. reflexivity. Qed.

(** What one call does, for a block that is not empty: nothing when the
    profile is seen to hold the marker or cannot be written, one append to
    what the profile really holds otherwise. *)
Lemma configureShellEnvironment_run (toolConfig : ToolConfig) (w : World Sys) :
  profile_block toolConfig <> EmptyString ->
  let path := getShellConfigPath proc in
  let existing := default EmptyString (files w !! path) in
  let writes :=
    negb (includes (seen_content path w) (marker toolConfig)) &&
    (if decide (path ∈ write_protected w) then false else true) in
  outcome os_exec (Installer.configureShellEnvironment proc toolConfig) w
    = Returned writes /\
  world_after os_exec (Installer.configureShellEnvironment proc toolConfig) w
    = if writes then set_file path (existing +:+ profile_block toolConfig) w else w.
Proof.
  intros Hblock. cbv zeta.
  rewrite configureShellEnvironment_steps.
  destruct (String.eqb_spec (profile_block toolConfig) EmptyString) as [| _];
    [contradiction |].
  unfold outcome, world_after, seen_content, file_content. simpl.
  destruct (files w !! getShellConfigPath proc) as [content |] eqn:Hfile; simpl.
  - destruct (decide (getShellConfigPath proc ∈ read_protected w)); simpl.
    + destruct (decide (getShellConfigPath proc ∈ write_protected w));
        simpl; rewrite ?Hfile; split; reflexivity.
    + destruct (includes content (marker toolConfig)); simpl; [split; reflexivity |].
      destruct (decide (getShellConfigPath proc ∈ write_protected w));
        simpl; rewrite ?Hfile; split; reflexivity.
  - destruct (decide (getShellConfigPath proc ∈ read_protected w));
      destruct (decide (getShellConfigPath proc ∈ write_protected w));
      simpl; rewrite ?Hfile; split; reflexivity.
Qed.

(** For a tool with environment variables the second of two calls in
    succession never writes: it returns false and leaves the files as the
    first call left them. *)
Lemma configureShellEnvironment_marked_idempotent (toolConfig : ToolConfig)
    (w : World Sys) :
  defined (envVars toolConfig) = true ->
  getShellConfigPath proc ∉ read_protected w ->
  let configure := Installer.configureShellEnvironment proc toolConfig in
  let w1 := world_after os_exec configure w in
  outcome os_exec configure w1 = Returned false /\
  world_after os_exec configure w1 = w1.
Proof.
  intros Henv Hreadable configure w1.
  destruct (profile_block_marked toolConfig Henv) as [rest Hblock].
  assert (profile_block toolConfig <> EmptyString) as Hne
    by (rewrite Hblock; discriminate).
  destruct (configureShellEnvironment_run toolConfig w Hne) as [_ Hw].
  destruct (configureShellEnvironment_run toolConfig w1 Hne) as [Ho1 Hw1].
  fold configure in Hw, Ho1, Hw1. fold w1 in Hw.
  assert (negb (includes (seen_content (getShellConfigPath proc) w1)
                  (marker toolConfig)) &&
          (if decide (getShellConfigPath proc ∈ write_protected w1) then false else true)
          = false) as Hno.
  { destruct (negb (includes (seen_content (getShellConfigPath proc) w)
                      (marker toolConfig)) &&
              (if decide (getShellConfigPath proc ∈ write_protected w)
               then false else true)) eqn:Hfirst.
    - rewrite Hw. unfold seen_content, file_content. simpl.
      destruct (decide (getShellConfigPath proc ∈ read_protected w)); [contradiction |].
      rewrite lookup_insert_eq. simpl.
      replace (includes _ (marker toolConfig)) with true; [reflexivity |].
      symmetry. apply includes_spec. rewrite Hblock.
      exists (default EmptyString (files w !! getShellConfigPath proc) +:+ nl), rest.
      rewrite !append_assoc. reflexivity.
    - rewrite Hw. exact Hfirst. }
  rewrite Hno in Ho1, Hw1. split; assumption.
Qed.

End MarkedBlocks.

(** ** The shell profile *)

Section Profile.

Import Shell ToolCfg.

(** C1 fails on the catalog's own [rust] entry, which carries a shell
    snippet and no environment variables: its block has no marker line, so
    the marker test never finds it.  From an empty profile both calls of
    [configureShellEnvironment] write and return true, and the profile ends
    with the snippet twice and the marker nowhere. *)
Theorem configureShellEnvironment_repeats_unmarked_block :
  exists rust,
    getToolConfig TOOL_CONFIGS "rust" = Some (Own rust) /\
    envVars rust = None /\
    shellConfig rust = Some "source $HOME/.cargo/env" /\
    let configure := Installer.configureShellEnvironment Sim.zsh_on_linux rust in
    let block := "source $HOME/.cargo/env" +:+ nl in
    let w1 := world_after Sim.exec configure Sim.bare in
    let w2 := world_after Sim.exec configure w1 in
    getShellConfigPath Sim.zsh_on_linux = "/home/dev/.zshrc" /\
    outcome Sim.exec configure Sim.bare = Returned true /\
    files w1 !! "/home/dev/.zshrc" = Some block /\
    outcome Sim.exec configure w1 = Returned true /\
    files w2 !! "/home/dev/.zshrc" = Some (block +:+ block) /\
    occurrences block (block +:+ block) = 2 /\
    occurrences "# Rust Configuration" (block +:+ block) = 0.
Proof.
  eexists. split; [reflexivity |]. repeat split; vm_compute; reflexivity.
Qed.

(** The same through the public entry point: installing rust twice on a
    machine where the compiler is not yet on the path writes the snippet
    twice. *)
Example installTool_rust_twice :
  let install := Installer.installTool TOOL_CONFIGS Sim.bash_on_mac "rust" None in
  let w1 := world_after Sim.exec install Sim.mac_with_rust_formula in
  let w2 := world_after Sim.exec install w1 in
  (Installer.needsRestart <$> outcome_value (outcome Sim.exec install Sim.mac_with_rust_formula))
    = Some (Some true) /\
  (Installer.needsRestart <$> outcome_value (outcome Sim.exec install w1))
    = Some (Some true) /\
  files w2 !! "/Users/dev/.bash_profile" =
    Some ("source $HOME/.cargo/env" +:+ nl +:+ "source $HOME/.cargo/env" +:+ nl).
Proof. repeat split; vm_compute; reflexivity. Qed.

End Profile.

(** * Further properties *)

(** ** The shell primitive *)

Section ShellFacts.

Context {Sys : Type}.
Variable os_exec : string -> N -> World Sys -> ExecOutcome * World Sys.

Import Shell.

Lemma white_space_not_empty (t : string) : t ∈ white_space -> t <> EmptyString.
Proof.
  intros Ht ->. unfold white_space in Ht.
  repeat (apply elem_of_cons in Ht as [Ht | Ht]; [discriminate Ht |]).
  inversion Ht.
Qed.

Lemma space_width_found (s : string) (k : nat) :
  space_width s = S k ->
  exists t post, t ∈ white_space /\ String.length t = S k /\ s = t +:+ post.
Proof.
  unfold space_width.
  destruct (List.find (fun t => String.prefix t s) white_space) as [t |] eqn:Hfind;
    [| discriminate].
  apply find_some in Hfind as [Hin Hpre]. apply prefix_spec in Hpre as [post ->].
  intros Hlen. exists t, post. split; [apply list_elem_of_In, Hin | auto].
Qed.

Lemma space_width_none (s : string) :
  space_width s = 0 -> ~ starts_with_space s.
Proof.
  unfold space_width. intros Hw (t & post & Hin & ->).
  destruct (List.find (fun t0 => String.prefix t0 (t +:+ post)) white_space) as [t' |]
    eqn:Hfind.
  - apply find_some in Hfind as [Hin' _].
    apply (white_space_not_empty t' (proj2 (list_elem_of_In _ _) Hin')).
    destruct t'; [reflexivity | discriminate].
  - pose proof (find_none _ _ Hfind t (proj1 (list_elem_of_In _ _) Hin)) as Hpre.
    simpl in Hpre. rewrite (proj2 (prefix_spec t (t +:+ post))) in Hpre by eauto.
    discriminate.
Qed.

Lemma strip_skips (a rest : string) :
  strip (String.length a) (a +:+ rest) = strip 0 rest.
Proof.
  induction a as [| c a IH]; [reflexivity |]. rewrite append_cons. simpl. exact IH.
Qed.

(** One step of [trimStart]: a string that starts with a white-space
    character loses it, any other is left as it is. *)
Lemma trimStart_step (s : string) :
  (space_width s = 0 /\ trimStart s = s) \/
  (exists t post, t ∈ white_space /\ s = t +:+ post /\ trimStart s = trimStart post).
Proof.
  unfold trimStart. destruct s as [| c s]; [left; split; reflexivity |].
  simpl. destruct (space_width (String c s)) as [| k] eqn:Hw; [left; auto |].
  right. destruct (space_width_found _ _ Hw) as (t & post & Hin & Hlen & Hs).
  exists t, post. split; [exact Hin |]. split; [exact Hs |].
  destruct t as [| d t]; [discriminate |]. rewrite append_cons in Hs.
  injection Hs as -> ->. simpl in Hlen. injection Hlen as <-. apply strip_skips.
Qed.

(** What [trimStart] drops is white space, and what it leaves does not
    start with any. *)
Lemma trimStart_split (s : string) :
  exists b, blank b /\ s = b +:+ trimStart s /\ space_width (trimStart s) = 0.
Proof.
  remember (String.length s) as n eqn:Hn. revert s Hn.
  induction n as [n IH] using lt_wf_ind. intros s Hn.
  destruct (trimStart_step s) as [[Hw Hs] | (t & post & Hin & Hs & Hstep)].
  - exists EmptyString. rewrite Hs. split; [constructor | auto].
  - destruct (IH (String.length post)) with (s := post) as (b & Hb & Hpost & Hw);
      [| reflexivity |].
    { subst n s. rewrite string_length_append.
      pose proof (white_space_not_empty t Hin). destruct t; [congruence | simpl; lia]. }
    exists (t +:+ b). rewrite Hstep. split; [constructor; assumption |].
    split; [| exact Hw]. rewrite append_assoc, <- Hpost. exact Hs.
Qed.

Lemma trimStart_blank (s : string) : blank s -> trimStart s = EmptyString.
Proof.
  induction 1 as [| t s Hin _ IH]; [reflexivity |].
  destruct (trimStart_step (t +:+ s)) as [[Hw _] | (t' & post & Hin' & Hs & Hstep)].
  - exfalso. apply (space_width_none _ Hw). exists t, s. auto.
  - rewrite <- IH, Hstep. f_equal.
    clear -Hin Hin' Hs. unfold white_space in Hin, Hin'.
    repeat (apply elem_of_cons in Hin as [-> | Hin]);
      try (inversion Hin; fail);
      repeat (apply elem_of_cons in Hin' as [-> | Hin']);
      try (inversion Hin'; fail);
      vm_compute in Hs; congruence.
Qed.

Lemma trimStart_empty (s : string) : trimStart s = EmptyString <-> blank s.
Proof.
  split; [| apply trimStart_blank]. intros H.
  destruct (trimStart_split s) as (b & Hb & Hs & _). rewrite H in Hs.
  replace s with b; [exact Hb |]. rewrite Hs. clear. induction b as [| c b IH]; [reflexivity |].
  rewrite append_cons, <- IH. reflexivity.
Qed.

Lemma trimStart_no_leading_space (s : string) : ~ starts_with_space (trimStart s).
Proof.
  destruct (trimStart_split s) as (_ & _ & _ & Hw). apply space_width_none, Hw.
Qed.

Lemma all_space_blank (s : string) : all_space s = true <-> blank s.
Proof. unfold all_space. rewrite String.eqb_eq. apply trimStart_empty. Qed.

(** What [trimEnd] drops is white space. *)
Lemma trimEnd_split (s : string) : exists b, blank b /\ s = trimEnd s +:+ b.
Proof.
  induction s as [| c s (b & Hb & Hs)]; [exists EmptyString; split; [constructor | reflexivity] |].
  simpl trimEnd. destruct (all_space (String c s)) eqn:Hall.
  - exists (String c s). split; [apply all_space_blank, Hall | reflexivity].
  - exists b. split; [exact Hb |]. rewrite append_cons, <- Hs. reflexivity.
Qed.

Lemma trimEnd_no_trailing_space (s : string) : ~ ends_with_space (trimEnd s).
Proof.
  induction s as [| c s IH]; intros (pre & t & Hin & Hs).
  - simpl in Hs. apply (white_space_not_empty t Hin).
    destruct pre; [rewrite append_nil_l in Hs; auto | discriminate].
  - simpl trimEnd in Hs. destruct (all_space (String c s)) eqn:Hall.
    + apply (white_space_not_empty t Hin).
      destruct pre; [rewrite append_nil_l in Hs; auto | discriminate].
    + destruct pre as [| d pre].
      * rewrite append_nil_l in Hs. destruct (trimEnd_split s) as (b & Hb & Hsplit).
        assert (blank (String c s)) as Hblank.
        { rewrite Hsplit, <- append_cons, Hs. constructor; assumption. }
        apply all_space_blank in Hblank. congruence.
      * rewrite append_cons in Hs. injection Hs as <- Hs. apply IH. exists pre, t. auto.
Qed.

Lemma trimEnd_keeps_start (s : string) :
  ~ starts_with_space s -> ~ starts_with_space (trimEnd s).
Proof.
  intros Hs (t & post & Hin & Ht). apply Hs.
  destruct (trimEnd_split s) as (b & _ & Hsplit).
  exists t, (post +:+ b). split; [exact Hin |]. rewrite <- append_assoc, <- Ht. exact Hsplit.
Qed.

Lemma trim_no_outer_space (s : string) :
  ~ starts_with_space (trim s) /\ ~ ends_with_space (trim s).
Proof.
  unfold trim. split.
  - apply trimEnd_keeps_start, trimStart_no_leading_space.
  - apply trimEnd_no_trailing_space.
Qed.

(** [trim] leaves nothing exactly of the strings that are white space from
    end to end. *)
Lemma trim_empty (s : string) : trim s = EmptyString <-> blank s.
Proof.
  rewrite <- trimStart_empty. unfold trim. split.
  - intros H. destruct (trimStart_split s) as (_ & _ & _ & Hw).
    destruct (trimStart s) as [| c x] eqn:Hx; [reflexivity |].
    simpl trimEnd in H. destruct (all_space (String c x)) eqn:Hall; [| discriminate].
    unfold all_space in Hall. apply String.eqb_eq in Hall.
    destruct (trimStart_step (String c x)) as [[_ Hsame] | (t & post & Hin & Hs & _)].
    + congruence.
    + exfalso. apply (space_width_none _ Hw). exists t, post. auto.
  - intros ->. reflexivity.
Qed.

Lemma not_space_empty : ~ starts_with_space EmptyString /\ ~ ends_with_space EmptyString.
Proof.
  split.
  - intros (t & post & Hin & H). apply (white_space_not_empty t Hin).
    destruct t; [reflexivity | discriminate].
  - intros (pre & t & Hin & H). apply (white_space_not_empty t Hin).
    destruct pre; [rewrite append_nil_l in H; auto | discriminate].
Qed.

Lemma or_else_trim_no_outer_space (o : option string) :
  ~ starts_with_space (or_else (trim <$> o) EmptyString) /\
  ~ ends_with_space (or_else (trim <$> o) EmptyString).
Proof.
  destruct o as [s |]; simpl; [| apply not_space_empty].
  destruct (String.eqb (trim s) EmptyString); [apply not_space_empty |].
  apply trim_no_outer_space.
Qed.

(** X1.  [executeCommand] never throws and runs exactly one command, with a
    timeout that is never zero: a missing or zero timeout becomes 60000.
    Neither captured stream of its result starts or ends with a white-space
    character of [String.prototype.trim], in the ASCII range or outside it,
    and the result carries an error message exactly when the command did
    not succeed. *)
Theorem executeCommand_result_shape (command : string) (timeout : option N)
    (w : World Sys) :
  let r := exec_result os_exec command timeout w in
  run os_exec (executeCommand command timeout) w =
    (Returned r, exec_world os_exec command timeout w,
     [EvExec command (timeout_or_default timeout)
        (exec_outcome os_exec command timeout w)]) /\
  timeout_or_default timeout <> 0%N /\
  (timeout = None \/ timeout = Some 0%N -> timeout_or_default timeout = 60000%N) /\
  ~ starts_with_space (stdout r) /\ ~ ends_with_space (stdout r) /\
  ~ starts_with_space (stderr r) /\ ~ ends_with_space (stderr r) /\
  (success r = true <-> error r = None).
Proof.
  intros r. split; [apply run_executeCommand |]. split; [| split].
  - destruct timeout as [t |]; simpl; [| discriminate].
    destruct (N.eqb_spec t 0); [discriminate | assumption].
  - intros [-> | ->]; reflexivity.
  - unfold r, exec_result.
    destruct (exec_outcome os_exec command timeout w) as [out err | out err m]; simpl.
    + destruct (trim_no_outer_space out), (trim_no_outer_space err).
      repeat split; auto.
    + destruct (or_else_trim_no_outer_space out), (or_else_trim_no_outer_space err).
      repeat split; auto; discriminate.
Qed.

(** White space outside the ASCII range is trimmed like a blank: a
    no-break space before the version, a line separator after it. *)
Example trim_beyond_ascii :
  trim (utf8 [194; 160] +:+ "v1.2" +:+ utf8 [226; 128; 168] +:+ nl) = "v1.2" /\
  trim (utf8 [194; 160] +:+ nl) = EmptyString /\
  trim (utf8 [195; 160]) = utf8 [195; 160].
Proof. repeat split; vm_compute; reflexivity. Qed.

(** X2.  [commandExists] never throws and runs the single command
    [which <command>] with the default timeout.  It answers true exactly
    when that command resolved with output that is not white space from
    end to end, for the white space of [String.prototype.trim]: a rejected
    command gives false whatever it printed. *)
Theorem commandExists_needs_output (command : string) (w : World Sys) :
  run os_exec (commandExists command) w =
    (Returned (probe os_exec command w), probe_world os_exec command w,
     [EvExec ("which " +:+ command) 60000%N
        (exec_outcome os_exec ("which " +:+ command) None w)]) /\
  (probe os_exec command w = true <->
   exists out err,
     exec_outcome os_exec ("which " +:+ command) None w = ExecResolved out err /\
     ~ blank out).
Proof.
  split; [apply run_commandExists |].
  unfold probe, found.
  destruct (exec_outcome os_exec ("which " +:+ command) None w) as [out err | out err m];
    simpl.
  - pose proof (trim_empty out) as Hblank.
    destruct (trim out) as [| c t] eqn:Ht; simpl.
    + split; [discriminate |]. intros (o & e & [= <- <-] & H).
      exfalso. apply H, Hblank. reflexivity.
    + split; [intros _ | reflexivity]. exists out, err. split; [reflexivity |].
      intros H. apply Hblank in H. discriminate.
  - split; [discriminate | intros (o & e & H & _); discriminate].
Qed.

End ShellFacts.

(** ** The shell profile, continued *)

Section ProfileFacts.

Context {Sys : Type}.
Variable os_exec : string -> N -> World Sys -> ExecOutcome * World Sys.
Variable proc : Process.

Import Shell ToolCfg.

(** X3.  For a tool that carries environment variables and a profile that
    may be read: the second of two calls of [configureShellEnvironment] in
    succession returns false and changes nothing; and from a writable
    profile that does not yet hold the tool's marker line the first call
    returns true and leaves the old content followed by the block, once.
    A profile that may not be read but may be written is taken for an empty
    one on every call: each call returns true and appends the block again,
    whatever the profile holds. *)
Theorem marked_block_is_written_once (toolConfig : ToolConfig) (w : World Sys) :
  defined (envVars toolConfig) = true ->
  let configure := Installer.configureShellEnvironment proc toolConfig in
  let path := getShellConfigPath proc in
  let existing := default EmptyString (files w !! path) in
  let w1 := world_after os_exec configure w in
  let w2 := world_after os_exec configure w1 in
  (path ∉ read_protected w ->
   (outcome os_exec configure w1 = Returned false /\ w2 = w1) /\
   (includes existing (marker toolConfig) = false ->
    path ∉ write_protected w ->
    outcome os_exec configure w = Returned true /\
    files w2 !! path = Some (existing +:+ profile_block toolConfig))) /\
  (path ∈ read_protected w ->
   path ∉ write_protected w ->
   outcome os_exec configure w = Returned true /\
   outcome os_exec configure w1 = Returned true /\
   files w2 !! path =
     Some ((existing +:+ profile_block toolConfig) +:+ profile_block toolConfig)).
Proof.
  intros Henv configure path existing w1 w2.
  destruct (profile_block_marked toolConfig Henv) as [rest Hblock].
  assert (profile_block toolConfig <> EmptyString) as Hne
    by (rewrite Hblock; discriminate).
  destruct (configureShellEnvironment_run os_exec proc toolConfig w Hne) as [Ho Hw].
  fold configure path existing in Ho, Hw. fold w1 in Hw.
  split.
  - intros Hreadable.
    destruct (configureShellEnvironment_marked_idempotent os_exec proc toolConfig w
                Henv Hreadable) as [Hsecond Hsame].
    fold configure w1 in Hsecond, Hsame. fold w2 in Hsame.
    split; [split; assumption |].
    intros Hmarker Hwritable. rewrite Hsame.
    unfold seen_content, file_content in Ho, Hw. fold path existing in Ho, Hw.
    destruct (decide (path ∈ read_protected w)); [contradiction |].
    rewrite Hmarker in Ho, Hw.
    destruct (decide (path ∈ write_protected w)) as [| _]; [contradiction |].
    simpl in Ho, Hw. split; [exact Ho |].
    rewrite Hw. simpl. apply lookup_insert_eq.
  - intros Hunreadable Hwritable.
    unfold seen_content in Ho, Hw.
    destruct (decide (path ∈ read_protected w)); [| contradiction].
    destruct (decide (path ∈ write_protected w)) as [| _]; [contradiction |].
    simpl in Ho, Hw.
    destruct (configureShellEnvironment_run os_exec proc toolConfig w1 Hne) as [Ho1 Hw1].
    fold configure path in Ho1, Hw1. fold w2 in Hw1.
    unfold seen_content in Ho1, Hw1. rewrite Hw in Ho1, Hw1. simpl in Ho1, Hw1.
    destruct (decide (path ∈ read_protected w)); [| contradiction].
    destruct (decide (path ∈ write_protected w)) as [| _]; [contradiction |].
    simpl in Ho1, Hw1. split; [exact Ho |]. split; [rewrite Hw; exact Ho1 |].
    rewrite Hw1. simpl. rewrite lookup_insert_eq, lookup_insert_eq. reflexivity.
Qed.

(** X4.  [configureShellEnvironment] never throws and runs no shell
    command.  It writes to no file but the shell profile, and there it only
    ever appends: after the call the profile is as before, or is the old
    content followed by the tool's block.  The permissions and the rest of
    the machine are left alone. *)
Theorem configureShellEnvironment_only_appends (toolConfig : ToolConfig)
    (w : World Sys) :
  let configure := Installer.configureShellEnvironment proc toolConfig in
  let path := getShellConfigPath proc in
  let w1 := world_after os_exec configure w in
  (exists b, outcome os_exec configure w = Returned b) /\
  exec_commands (trace os_exec configure w) = [] /\
  (forall p, In p (written_paths (trace os_exec configure w)) -> p = path) /\
  (forall p, p <> path -> files w1 !! p = files w !! p) /\
  (files w1 !! path = files w !! path \/
   files w1 !! path =
     Some (default EmptyString (files w !! path) +:+ profile_block toolConfig)) /\
  write_protected w1 = write_protected w /\
  read_protected w1 = read_protected w /\
  sys w1 = sys w.
Proof.
  cbv zeta. rewrite configureShellEnvironment_steps.
  destruct (String.eqb (profile_block toolConfig) EmptyString).
  { unfold outcome, trace, world_after. simpl.
    repeat split; eauto; intros p []. }
  unfold outcome, trace, world_after. simpl.
  destruct (files w !! getShellConfigPath proc) as [content |] eqn:Hfile; simpl;
    [destruct (decide (getShellConfigPath proc ∈ read_protected w)); simpl |].
  - destruct (decide (getShellConfigPath proc ∈ write_protected w)); simpl;
      rewrite ?Hfile.
    + repeat split; eauto. intros p [<- | []]. reflexivity.
    + repeat split; eauto.
      * intros p [<- | []]. reflexivity.
      * intros p Hp. apply lookup_insert_ne. congruence.
      * right. simpl. apply lookup_insert_eq.
  - destruct (includes content (marker toolConfig)); simpl.
    { rewrite Hfile. repeat split; eauto; intros p []. }
    destruct (decide (getShellConfigPath proc ∈ write_protected w)); simpl;
      rewrite ?Hfile.
    + repeat split; eauto. intros p [<- | []]. reflexivity.
    + repeat split; eauto.
      * intros p [<- | []]. reflexivity.
      * intros p Hp. apply lookup_insert_ne. congruence.
      * right. simpl. apply lookup_insert_eq.
  - destruct (decide (getShellConfigPath proc ∈ write_protected w)); simpl;
      rewrite ?Hfile.
    + repeat split; eauto. intros p [<- | []]. reflexivity.
    + repeat split; eauto.
      * intros p [<- | []]. reflexivity.
      * intros p Hp. apply lookup_insert_ne. congruence.
      * right. simpl. apply lookup_insert_eq.
Qed.

End ProfileFacts.

Lemma marked_block_is_written_once_witness :
  exists java,
    ToolCfg.getToolConfig ToolCfg.TOOL_CONFIGS "java" = Some (ToolCfg.Own java) /\
    let configure := Installer.configureShellEnvironment Sim.zsh_on_linux java in
    let w1 := world_after Sim.exec configure Sim.bare in
    outcome Sim.exec configure Sim.bare = Returned true /\
    outcome Sim.exec configure w1 = Returned false /\
    occurrences "# Java Configuration"
      (default EmptyString (files (world_after Sim.exec configure w1) !! "/home/dev/.zshrc"))
      = 1.
Proof.
  eexists. split; [reflexivity |]. cbv zeta.
  match goal with
  | |- context [Installer.configureShellEnvironment _ ?java] =>
      destruct (marked_block_is_written_once Sim.exec Sim.zsh_on_linux java Sim.bare eq_refl)
        as [Hreadable _]
  end.
  destruct (Hreadable (not_elem_of_empty _)) as [[Hsecond _] Hfirst].
  destruct Hfirst as [Ho Hfile]; [reflexivity | apply not_elem_of_empty |].
  split; [exact Ho |]. split; [exact Hsecond |]. reflexivity.
Defined.

(** ** Detection and the early exits of [installTool] *)

Section EarlyExits.

Context {Sys : Type}.
Variable os_exec : string -> N -> World Sys -> ExecOutcome * World Sys.
Variable catalog : ToolCfg.Catalog.
Variable proc : Process.

Import Shell PackageMgr ToolCfg.

Lemma trace_executeCommand (command : string) (timeout : option N) (w : World Sys) :
  trace os_exec (executeCommand command timeout) w =
  [exec_event os_exec command timeout w].
Proof. unfold trace. rewrite run_executeCommand. reflexivity. Qed.

Lemma trace_commandExists (command : string) (w : World Sys) :
  trace os_exec (commandExists command) w = [probe_event os_exec command w].
Proof. unfold trace. rewrite run_commandExists. reflexivity. Qed.

Lemma detect_loop_cons (n : string) (order : list string) :
  detect_loop (n :: order) =
  match managers !! n with
  | None => Throw "Cannot read properties of undefined (reading 'name')"
  | Some manager =>
      bind (checkPackageManager (PackageMgr.name manager) (PackageMgr.command manager))
        (fun available =>
           if available then Ret (Some (set_available true manager))
           else detect_loop order)
  end.
Proof. reflexivity. Qed.

Lemma detect_loop_probes_only (order : list string) (w : World Sys) :
  probes_only (trace os_exec (detect_loop order) w).
Proof.
  unfold probes_only. revert w. induction order as [| n order IH]; intros w.
  - constructor.
  - rewrite detect_loop_cons. destruct (managers !! n) as [m |]; [| constructor].
    unfold checkPackageManager.
    rewrite trace_bind, outcome_commandExists, trace_commandExists,
      world_after_commandExists.
    constructor; [unfold probe_event, exec_event; simpl; eauto |].
    destruct (probe os_exec (PackageMgr.command m) w); [constructor | apply IH].
Qed.

Lemma detectPackageManager_probes_only (w : World Sys) :
  probes_only (trace os_exec (detectPackageManager proc) w).
Proof. apply detect_loop_probes_only. Qed.

(** What the loop returns is an entry of the table, under one of the names
    it was given, with [available] set. *)
Lemma detect_loop_from_table (order : list string) (w : World Sys)
    (m : PackageManagerInfo) :
  outcome os_exec (detect_loop order) w = Returned (Some m) ->
  exists n c, n ∈ order /\ managers !! n = Some c /\ m = set_available true c.
Proof.
  revert w. induction order as [| n order IH]; intros w.
  - discriminate.
  - rewrite detect_loop_cons. destruct (managers !! n) as [c |] eqn:Hn; [| discriminate].
    unfold checkPackageManager.
    rewrite outcome_bind, outcome_commandExists, world_after_commandExists.
    destruct (probe os_exec (PackageMgr.command c) w).
    + intros [= <-]. exists n, c. split; [apply elem_of_cons; auto | auto].
    + intros H. destruct (IH _ H) as (n' & c' & Hin & Hc & ->).
      exists n', c'. split; [apply elem_of_cons; auto | auto].
Qed.

Lemma detect_unsupported :
  platform proc <> "darwin" -> platform proc <> "linux" ->
  detectPackageManager proc = Ret None.
Proof.
  intros Hd Hl. unfold detectPackageManager, detectOS.
  destruct (String.eqb_spec (platform proc) "darwin"); [contradiction |].
  destruct (String.eqb_spec (platform proc) "linux"); [contradiction |].
  destruct (String.eqb (platform proc) "win32"); reflexivity.
Qed.

(** X5.  On a platform that is neither macOS nor Linux nothing is ever
    installed.  [detectPackageManager] returns none without a single
    probe.  [installTool], for a tool of the catalog that the first probe
    does not find, returns the failure that asks for a package manager, and
    that probe is its only effect.  [installPackageManager] and
    [installAndroidStudio] fail without any effect at all. *)
Theorem unsupported_platform_installs_nothing (toolName : string)
    (toolConfig : ToolConfig) (options : option (option string)) (w : World Sys) :
  platform proc <> "darwin" ->
  platform proc <> "linux" ->
  getToolConfig catalog toolName = Some (Own toolConfig) ->
  probe os_exec (commandToCheck toolConfig) w = false ->
  run os_exec (detectPackageManager proc) w = (Returned None, w, []) /\
  run os_exec (Installer.installTool catalog proc toolName options) w =
    (Returned {| Installer.success := false;
                 Installer.message :=
                   "No package manager available. Please install a package manager first.";
                 Installer.details := None;
                 Installer.needsRestart := None |},
     probe_world os_exec (commandToCheck toolConfig) w,
     [EvExec ("which " +:+ commandToCheck toolConfig) 60000%N
        (exec_outcome os_exec ("which " +:+ commandToCheck toolConfig) None w)]) /\
  run os_exec (Installer.installPackageManager proc) w =
    (Returned {| Installer.success := false;
                 Installer.message :=
                   "No package manager detected and none can be auto-installed for this OS";
                 Installer.details := None;
                 Installer.needsRestart := None |}, w, []) /\
  run os_exec (Installer.installAndroidStudio catalog proc) w =
    (Returned {| Installer.success := false;
                 Installer.message := "No package manager available";
                 Installer.details := None;
                 Installer.needsRestart := None |}, w, []).
Proof.
  intros Hd Hl Hcfg Hprobe.
  pose proof (detect_unsupported Hd Hl) as Hdetect.
  split; [rewrite Hdetect; reflexivity |]. split; [| split].
  - unfold Installer.installTool. rewrite Hcfg, run_bind, run_commandExists, Hprobe.
    rewrite Hdetect. reflexivity.
  - unfold Installer.installPackageManager. rewrite Hdetect.
    assert (needsPackageManagerInstall (detectOS proc) = false) as ->.
    { unfold detectOS.
      destruct (String.eqb_spec (platform proc) "darwin"); [contradiction |].
      destruct (String.eqb (platform proc) "linux"),
               (String.eqb (platform proc) "win32"); reflexivity. }
    reflexivity.
  - unfold Installer.installAndroidStudio. rewrite Hdetect. reflexivity.
Qed.

(** X6.  When the tool has no install method for the detected package
    manager, [installTool] returns a failure whose message names the tool
    and the manager and whose details, when the tool has a manual install
    page, point to it.  Its effects are the first probe and the probes of
    the detection: no install command is run. *)
Theorem missing_install_method_is_reported (toolName : string)
    (toolConfig : ToolConfig) (packageManager : PackageManagerInfo)
    (options : option (option string)) (w : World Sys) :
  getToolConfig catalog toolName = Some (Own toolConfig) ->
  probe os_exec (commandToCheck toolConfig) w = false ->
  outcome os_exec (detectPackageManager proc)
    (probe_world os_exec (commandToCheck toolConfig) w) = Returned (Some packageManager) ->
  installMethods toolConfig !! PackageManager_value (PackageMgr.name packageManager) = None ->
  outcome os_exec (Installer.installTool catalog proc toolName options) w =
    Returned {| Installer.success := false;
                Installer.message :=
                  displayName toolConfig +:+ " installation not supported on "
                  +:+ PackageManager_value (PackageMgr.name packageManager);
                Installer.details :=
                  match manualInstallUrl toolConfig with
                  | Some url =>
                      if String.eqb url EmptyString then None
                      else Some ("Please install manually: " +:+ url)
                  | None => None
                  end;
                Installer.needsRestart := None |} /\
  trace os_exec (Installer.installTool catalog proc toolName options) w =
    probe_event os_exec (commandToCheck toolConfig) w ::
    trace os_exec (detectPackageManager proc)
      (probe_world os_exec (commandToCheck toolConfig) w) /\
  probes_only (trace os_exec (Installer.installTool catalog proc toolName options) w).
Proof.
  intros Hcfg Hprobe Hdetect Hmethod.
  assert (trace os_exec (Installer.installTool catalog proc toolName options) w =
          probe_event os_exec (commandToCheck toolConfig) w ::
          trace os_exec (detectPackageManager proc)
            (probe_world os_exec (commandToCheck toolConfig) w)) as Htrace.
  { unfold Installer.installTool. rewrite Hcfg.
    rewrite trace_bind, outcome_commandExists, trace_commandExists, Hprobe,
      world_after_commandExists.
    rewrite trace_bind, Hdetect, Hmethod. unfold trace at 2. simpl.
    rewrite app_nil_r. reflexivity. }
  split; [| split; [exact Htrace |]].
  - unfold Installer.installTool. rewrite Hcfg.
    rewrite outcome_bind, outcome_commandExists, Hprobe, world_after_commandExists.
    rewrite outcome_bind, Hdetect, Hmethod. unfold outcome. simpl.
    destruct (manualInstallUrl toolConfig) as [url |]; simpl; [| reflexivity].
    destruct (String.eqb url EmptyString); reflexivity.
  - rewrite Htrace. constructor.
    + unfold probe_event, exec_event. simpl. eauto.
    + apply detectPackageManager_probes_only.
Qed.

End EarlyExits.

Lemma unsupported_platform_installs_nothing_witness :
  run Sim.exec (Installer.installPackageManager Sim.sh_on_solaris) Sim.apt_offline =
    (Returned {| Installer.success := false;
                 Installer.message :=
                   "No package manager detected and none can be auto-installed for this OS";
                 Installer.details := None;
                 Installer.needsRestart := None |}, Sim.apt_offline, []).
Proof.
  edestruct (fun tc => unsupported_platform_installs_nothing Sim.exec
                          ToolCfg.TOOL_CONFIGS Sim.sh_on_solaris "git" tc None
                          Sim.apt_offline)
    as (_ & _ & Hpm & _); [discriminate | discriminate | reflexivity | reflexivity |].
  exact Hpm.
Defined.

Lemma missing_install_method_is_reported_witness :
  outcome Sim.exec
    (Installer.installTool brew_only_catalog Sim.zsh_on_linux "xcodes" None)
    Sim.apt_offline =
  Returned {| Installer.success := false;
              Installer.message := "Xcodes installation not supported on apt";
              Installer.details :=
                Some "Please install manually: https://github.com/XcodesOrg/xcodes";
              Installer.needsRestart := None |}.
Proof.
  edestruct (fun tc pm => missing_install_method_is_reported Sim.exec brew_only_catalog
                             Sim.zsh_on_linux "xcodes" tc pm None Sim.apt_offline)
    as (Ho & _); [reflexivity | reflexivity | reflexivity | reflexivity |].
  exact Ho.
Defined.

(** ** The shipped tables *)

Section ShippedTables.

Context {Sys : Type}.
Variable os_exec : string -> N -> World Sys -> ExecOutcome * World Sys.

Import Shell PackageMgr ToolCfg.


End ShippedTables.


(** ** What never throws, and the loops of [installTool] *)

Section Loops.

Context {Sys : Type}.
Variable os_exec : string -> N -> World Sys -> ExecOutcome * World Sys.
Variable catalog : ToolCfg.Catalog.
Variable proc : Process.

Import Shell.

#[local] Hint Resolve never_throws_executeCommand never_throws_commandExists
  never_throws_detectPackageManager : total.

Lemma never_throws_installPackageManager :
  never_throws (Installer.installPackageManager proc).
Proof. unfold Installer.installPackageManager. never_throws_auto. Qed.

Lemma never_throws_installPackage (packageName : string)
    (packageManager : option PackageMgr.PackageManagerInfo) :
  never_throws (PackageMgr.installPackage proc packageName packageManager).
Proof. unfold PackageMgr.installPackage. never_throws_auto. Qed.

(** X8.  Whatever the operating system answers and whatever state the files
    are in, [installPackageManager], [installPackage] and
    [checkToolInstalled] return a value, and so does [installTool] for every
    name that is not found through the prototype only: every failure comes
    back as a result, none as an exception.  The one exception that
    [installTool] can throw is the [TypeError] of reading an install method
    of a member of [Object.prototype], after a package manager has been
    detected. *)
Theorem public_operations_never_throw (toolName : string)
    (options : option (option string))
    (packageManager : option PackageMgr.PackageManagerInfo) (w : World Sys) :
  (ToolCfg.finds_inherited catalog toolName = false ->
   exists r, outcome os_exec (Installer.installTool catalog proc toolName options) w
             = Returned r) /\
  (exists r, outcome os_exec (Installer.installPackageManager proc) w = Returned r) /\
  (exists r, outcome os_exec (PackageMgr.installPackage proc toolName packageManager) w
             = Returned r) /\
  (exists s, outcome os_exec (Validator.checkToolInstalled catalog toolName) w
             = Returned s) /\
  (forall m,
     outcome os_exec (Installer.installTool catalog proc toolName options) w = Thrown m ->
     ToolCfg.finds_inherited catalog toolName = true /\
     exists pm,
       outcome os_exec (PackageMgr.detectPackageManager proc)
         (probe_world os_exec undefined w) = Returned (Some pm) /\
       m = "Cannot read properties of undefined (reading '"
           +:+ PackageMgr.PackageManager_value (PackageMgr.name pm) +:+ "')").
Proof.
  split; [| split; [| split; [| split]]].
  - intros H. apply never_throws_returns, never_throws_installTool, H.
  - apply never_throws_returns, never_throws_installPackageManager.
  - apply never_throws_returns, never_throws_installPackage.
  - apply never_throws_returns, never_throws_checkToolInstalled.
  - intros m Hm. destruct (ToolCfg.finds_inherited catalog toolName) eqn:Hfound.
    + split; [reflexivity |]. revert Hm. unfold ToolCfg.finds_inherited in Hfound.
      unfold Installer.installTool.
      destruct (ToolCfg.getToolConfig catalog toolName) as [[toolConfig | fname] |];
        try discriminate.
      rewrite outcome_bind, outcome_commandExists, world_after_commandExists.
      destruct (probe os_exec undefined w); [discriminate |].
      rewrite outcome_bind.
      destruct (outcome os_exec (PackageMgr.detectPackageManager proc) _)
        as [[pm |] | m'] eqn:Hdetect.
      * intros [= <-]. eauto.
      * discriminate.
      * destruct (never_throws_returns os_exec _ (never_throws_detectPackageManager proc)
                    (probe_world os_exec undefined w)) as [found Hreturns].
        congruence.
    + destruct (never_throws_returns os_exec _
                  (never_throws_installTool catalog proc toolName options Hfound) w)
        as [r Hr].
      congruence.
Qed.

(** [installNvm] is not of that kind: it throws when the profile can be
    neither read nor written. *)
Example installNvm_can_throw :
  outcome Sim.exec (Installer.installNvm Sim.zsh_on_linux) Sim.locked_profile =
  Thrown "EACCES: permission denied, open '/home/dev/.zshrc'".
Proof. reflexivity. Qed.

(** X9.  The post-install steps are all run, in order, each with a timeout
    of 120000 ms, whatever any of them answers; the loop never throws. *)
Theorem post_install_steps_all_run (steps : list string) (w : World Sys) :
  outcome os_exec (Installer.run_steps steps) w = Returned tt /\
  exec_commands (trace os_exec (Installer.run_steps steps) w) =
    (fun step => (step, 120000%N)) <$> steps /\
  length (trace os_exec (Installer.run_steps steps) w) = length steps.
Proof.
  revert w. induction steps as [| step rest IH]; intros w.
  - repeat split.
  - rewrite run_steps_cons, outcome_bind, trace_bind, outcome_executeCommand,
      world_after_executeCommand, trace_executeCommand.
    destruct (IH (exec_world os_exec step (Some 120000%N) w)) as (Ho & Hc & Hl).
    split; [exact Ho |]. split.
    + simpl. rewrite Hc. reflexivity.
    + simpl. rewrite Hl. reflexivity.
Qed.

(** X10.  The alternates are tried in order with a timeout of 600000 ms and
    the loop stops at the first that succeeds: when the alternates of [pre]
    fail and [alt] succeeds, the commands run are exactly [pre] and [alt],
    none of [post], and the loop returns the flag with [alt]'s output. *)
Theorem alternates_stop_at_first_success (pre : list string) (alt : string)
    (post : list string) (w : World Sys) :
  alternates_fail os_exec pre w ->
  success (exec_result os_exec alt (Some 600000%N)
             (after_commands os_exec pre (Some 600000%N) w)) = true ->
  outcome os_exec (Installer.try_alternatives (pre ++ alt :: post)) w =
    Returned (true, stdout (exec_result os_exec alt (Some 600000%N)
                              (after_commands os_exec pre (Some 600000%N) w))) /\
  exec_commands (trace os_exec (Installer.try_alternatives (pre ++ alt :: post)) w) =
    (fun c => (c, 600000%N)) <$> (pre ++ [alt]).
Proof.
  intros Hpre Halt.
  split; [apply (try_alternatives_first_success os_exec pre alt post w Hpre Halt) |].
  revert w Hpre Halt. induction pre as [| c pre IH]; intros w Hpre Halt; simpl app.
  - rewrite try_alternatives_cons, trace_bind, outcome_executeCommand,
      trace_executeCommand.
    simpl in Halt. rewrite Halt. reflexivity.
  - destruct Hpre as [Hfail Hrest].
    rewrite try_alternatives_cons, trace_bind, outcome_executeCommand,
      trace_executeCommand, world_after_executeCommand, Hfail.
    simpl. rewrite (IH _ Hrest Halt). reflexivity.
Qed.

End Loops.

Lemma alternates_stop_at_first_success_witness :
  exec_commands
    (trace Sim.exec
       (Installer.try_alternatives
          (["curl -fsSL https://deb.nodesource.com/setup_lts.x | sudo -E bash -"] ++
           "sudo apt-get install -y nodejs" :: ["echo never"]))
       Sim.apt_with_nodesource) =
  [("curl -fsSL https://deb.nodesource.com/setup_lts.x | sudo -E bash -", 600000%N);
   ("sudo apt-get install -y nodejs", 600000%N)].
Proof.
  refine (proj2 (alternates_stop_at_first_success Sim.exec
                   ["curl -fsSL https://deb.nodesource.com/setup_lts.x | sudo -E bash -"]
                   "sudo apt-get install -y nodejs" ["echo never"]
                   Sim.apt_with_nodesource _ _)).
  - split; [reflexivity | exact I].
  - reflexivity.
Defined.

(** ** Installing the package manager *)

Section Bootstrap.

Context {Sys : Type}.
Variable os_exec : string -> N -> World Sys -> ExecOutcome * World Sys.
Variable proc : Process.

Import Shell PackageMgr.

Lemma detectOS_darwin : platform proc = "darwin" -> detectOS proc = MACOS.
Proof. intros H. unfold detectOS. rewrite H. reflexivity. Qed.

Lemma detectOS_not_darwin : platform proc <> "darwin" -> detectOS proc <> MACOS.
Proof.
  intros H. unfold detectOS.
  destruct (String.eqb_spec (platform proc) "darwin"); [contradiction |].
  destruct (String.eqb (platform proc) "linux"), (String.eqb (platform proc) "win32");
    discriminate.
Qed.

(** On macOS detection is the single probe of [brew]. *)
Lemma detect_on_mac (w : World Sys) :
  platform proc = "darwin" ->
  outcome os_exec (detectPackageManager proc) w =
    Returned (if probe os_exec "brew" w
              then Some {| name := HOMEBREW; command := "brew";
                           installCmd := "brew install";
                           updateCmd := "brew update && brew upgrade";
                           searchCmd := "brew search"; available := true |}
              else None) /\
  world_after os_exec (detectPackageManager proc) w = probe_world os_exec "brew" w /\
  trace os_exec (detectPackageManager proc) w = [probe_event os_exec "brew" w].
Proof.
  intros H. unfold detectPackageManager. rewrite (detectOS_darwin H).
  change (detect_loop (checkOrder MACOS)) with
    (bind (commandExists "brew")
       (fun available =>
          if available
          then Ret (Some {| name := HOMEBREW; command := "brew";
                            installCmd := "brew install";
                            updateCmd := "brew update && brew upgrade";
                            searchCmd := "brew search"; available := true |})
          else Ret None)).
  rewrite outcome_bind, world_after_bind, trace_bind, outcome_commandExists,
    world_after_commandExists, trace_commandExists.
  destruct (probe os_exec "brew" w); repeat split.
Qed.

(** X11.  [installPackageManager] on macOS.  When [brew] is found, it
    returns success after that one probe.  Otherwise it runs the homebrew
    install script with a timeout of 600000 ms and probes [brew] again, and
    that second probe alone decides the result, not the exit status of the
    script: found gives success with the script's output and the restart
    flag, not found gives failure with the script's error text.  The result
    "Cannot determine package manager installation command" never occurs. *)
Theorem installPackageManager_on_mac (w : World Sys) :
  platform proc = "darwin" ->
  let w1 := probe_world os_exec "brew" w in
  let script := exec_result os_exec brew_bootstrap (Some 600000%N) w1 in
  let w2 := exec_world os_exec brew_bootstrap (Some 600000%N) w1 in
  (probe os_exec "brew" w = true ->
   outcome os_exec (Installer.installPackageManager proc) w =
     Returned {| Installer.success := true;
                 Installer.message := "homebrew is already installed";
                 Installer.details := None; Installer.needsRestart := None |} /\
   exec_commands (trace os_exec (Installer.installPackageManager proc) w) =
     [("which brew", 60000%N)]) /\
  (probe os_exec "brew" w = false ->
   exec_commands (trace os_exec (Installer.installPackageManager proc) w) =
     [("which brew", 60000%N); (brew_bootstrap, 600000%N); ("which brew", 60000%N)] /\
   outcome os_exec (Installer.installPackageManager proc) w =
     Returned (if probe os_exec "brew" w2
               then {| Installer.success := true;
                       Installer.message := "homebrew installed successfully";
                       Installer.details := Some (stdout script);
                       Installer.needsRestart := Some true |}
               else {| Installer.success := false;
                       Installer.message := "Failed to install package manager";
                       Installer.details := Some (or_else (error script) (stderr script));
                       Installer.needsRestart := None |})).
Proof.
  intros Hmac w1 script w2.
  unfold Installer.installPackageManager. rewrite (detectOS_darwin Hmac).
  change (negb (needsPackageManagerInstall MACOS)) with false. cbv iota.
  destruct (detect_on_mac w Hmac) as (Ho & Hw & Ht).
  split; intros Hbrew; rewrite Hbrew in Ho.
  - rewrite outcome_bind, trace_bind, Ho, Ht. split; reflexivity.
  - change (negb (truthy (getPackageManagerInstallCommand MACOS))) with false.
    change (or_else (getPackageManagerInstallCommand MACOS) EmptyString)
      with brew_bootstrap.
    cbv iota. fold w1 in Hw.
    destruct (detect_on_mac w2 Hmac) as (Ho2 & Hw2 & Ht2).
    split.
    + rewrite trace_bind, Ho, Ht, Hw.
      rewrite trace_bind, outcome_executeCommand, trace_executeCommand,
        world_after_executeCommand. fold w2.
      rewrite trace_bind, Ho2, Ht2.
      destruct (probe os_exec "brew" w2); reflexivity.
    + rewrite outcome_bind, Ho, Hw.
      rewrite outcome_bind, outcome_executeCommand, world_after_executeCommand.
      fold w2 script. rewrite outcome_bind, Ho2.
      destruct (probe os_exec "brew" w2); reflexivity.
Qed.

(** X12.  [installPackageManager] anywhere but on macOS installs nothing:
    it does what [detectPackageManager] does, existence probes only, and
    succeeds exactly when a package manager is detected. *)
Theorem installPackageManager_off_mac (w : World Sys) :
  platform proc <> "darwin" ->
  trace os_exec (Installer.installPackageManager proc) w =
    trace os_exec (detectPackageManager proc) w /\
  world_after os_exec (Installer.installPackageManager proc) w =
    world_after os_exec (detectPackageManager proc) w /\
  probes_only (trace os_exec (Installer.installPackageManager proc) w) /\
  exists r,
    outcome os_exec (Installer.installPackageManager proc) w = Returned r /\
    Installer.details r = None /\
    (Installer.success r = true <->
     exists pm, outcome os_exec (detectPackageManager proc) w = Returned (Some pm)).
Proof.
  intros Hmac. unfold Installer.installPackageManager.
  assert (negb (needsPackageManagerInstall (detectOS proc)) = true) as ->.
  { pose proof (detectOS_not_darwin Hmac). destruct (detectOS proc); try reflexivity.
    congruence. }
  destruct (never_throws_returns os_exec _ (never_throws_detectPackageManager proc) w)
    as [pm Hpm].
  rewrite trace_bind, world_after_bind, outcome_bind, Hpm.
  assert (forall p : Prog Installer.InstallResult,
            (exists r, p = Ret r) ->
            trace os_exec (detectPackageManager proc) w ++
              trace os_exec p (world_after os_exec (detectPackageManager proc) w) =
            trace os_exec (detectPackageManager proc) w) as Hret.
  { intros p [r ->]. apply app_nil_r. }
  destruct pm as [pm |]; (rewrite Hret by eauto);
    (split; [reflexivity |]); (split; [reflexivity |]);
    (split; [apply detectPackageManager_probes_only |]);
    eexists; (split; [reflexivity |]); (split; [reflexivity |]); simpl.
  - split; eauto.
  - split; [discriminate | intros [pm' [=]]].
Qed.

End Bootstrap.

Lemma installPackageManager_on_mac_witness :
  outcome Sim.exec (Installer.installPackageManager Sim.bash_on_mac)
    Sim.mac_bootstrap_complains =
  Returned {| Installer.success := true;
              Installer.message := "homebrew installed successfully";
              Installer.details := Some EmptyString;
              Installer.needsRestart := Some true |}.
Proof.
  destruct (installPackageManager_on_mac Sim.exec Sim.bash_on_mac
              Sim.mac_bootstrap_complains eq_refl) as [_ Habsent].
  destruct Habsent as [_ Ho]; [reflexivity |]. exact Ho.
Defined.

Lemma installPackageManager_off_mac_witness :
  exists r,
    outcome Sim.exec (Installer.installPackageManager Sim.zsh_on_linux) Sim.apt_offline
      = Returned r /\
    Installer.success r = true /\
    exec_commands (trace Sim.exec (Installer.installPackageManager Sim.zsh_on_linux)
                     Sim.apt_offline) = [("which apt-get", 60000%N)].
Proof.
  assert (platform Sim.zsh_on_linux <> "darwin") as Hmac by discriminate.
  destruct (installPackageManager_off_mac Sim.exec Sim.zsh_on_linux Sim.apt_offline Hmac)
    as (Ht & _ & _ & r & Hr & _ & Hs).
  exists r. split; [exact Hr |]. split.
  - apply Hs. eexists. reflexivity.
  - rewrite Ht. reflexivity.
Defined.

(** ** The special-case installers and the shell profile *)

Section SpecialCases.

Context {Sys : Type}.
Variable os_exec : string -> N -> World Sys -> ExecOutcome * World Sys.
Variable catalog : ToolCfg.Catalog.
Variable proc : Process.

Import Shell.

Lemma ensures_bind {A B : Type} (p : Prog A) (f : A -> Prog B)
    (Q : B -> World Sys -> Prop) :
  (forall a, ensures os_exec (f a) Q) -> ensures os_exec (bind p f) Q.
Proof.
  intros Hf w b. rewrite outcome_bind, world_after_bind.
  destruct (outcome os_exec p w) as [a | m]; [| discriminate]. apply Hf.
Qed.

Lemma ensures_ret {A : Type} (a : A) (Q : A -> World Sys -> Prop) :
  (forall w, Q a w) -> ensures os_exec (Ret a) Q.
Proof. intros H w b [= <-]. apply H. Qed.

Lemma includes_append_r (a b sub : string) :
  includes b sub = true -> includes (a +:+ b) sub = true.
Proof.
  rewrite !includes_spec. intros (pre & post & ->).
  exists (a +:+ pre), post. rewrite append_assoc. reflexivity.
Qed.

(** When the step returns, the file holds the token.  A file that may be
    read and held the token already is left as it was; a file that may not
    be read is replaced by the block alone. *)
Lemma ensure_block_holds (path token block : string) (w : World Sys) :
  includes block token = true ->
  outcome os_exec (ensure_block path token block) w = Returned tt ->
  let w1 := world_after os_exec (ensure_block path token block) w in
  includes (file_content path w1) token = true /\
  (forall p, p <> path -> files w1 !! p = files w !! p) /\
  (forall content, files w !! path = Some content ->
     path ∉ read_protected w ->
     includes content token = true -> w1 = w) /\
  (path ∈ read_protected w -> files w1 !! path = Some block).
Proof.
  intros Hblock. unfold outcome, world_after, ensure_block, file_content. simpl.
  destruct (files w !! path) as [content |] eqn:Hfile; simpl;
    [destruct (decide (path ∈ read_protected w)) as [Hhidden | Hreadable]; simpl;
     [| destruct (includes content token) eqn:Htoken; simpl] |];
    try (destruct (decide (path ∈ write_protected w)) as [Hin | Hout]; simpl);
    rewrite ?Hfile; simpl;
    try (destruct (decide (path ∈ write_protected w)); [| contradiction]; simpl);
    intros Hreturned; try discriminate Hreturned;
    rewrite ?lookup_insert_eq; change (default _ (Some ?s)) with s.
  - split; [exact Hblock |]. split; [| split].
    + intros p Hp. apply lookup_insert_ne. congruence.
    + intros c _ Hc. contradiction.
    + reflexivity.
  - split; [exact Htoken |]. split; [reflexivity |]. split; [reflexivity | contradiction].
  - split; [exact Htoken |]. split; [reflexivity |]. split; [reflexivity | contradiction].
  - split; [apply includes_append_r, Hblock |]. split; [| split].
    + intros p Hp. apply lookup_insert_ne. congruence.
    + intros c [= <-] _ Hc. congruence.
    + contradiction.
  - split; [exact Hblock |]. split; [| split].
    + intros p Hp. apply lookup_insert_ne. congruence.
    + intros c [=].
    + reflexivity.
Qed.

(** X13.  When [installNvm] has run the bootstrap and returns, the shell
    profile mentions [NVM_DIR] and no other file has been written since the
    bootstrap command.  A profile that may be read and mentioned [NVM_DIR]
    already is left exactly as the bootstrap command left it: the block is
    not added a second time.  A profile that may not be read is replaced by
    the block alone, whatever it held. *)
Theorem installNvm_configures_profile_once (w : World Sys) (r : Installer.InstallResult) :
  probe os_exec "nvm" w = false ->
  outcome os_exec (Installer.installNvm proc) w = Returned r ->
  let path := getShellConfigPath proc in
  let w2 := exec_world os_exec nvm_bootstrap (Some 120000%N) (probe_world os_exec "nvm" w) in
  let w3 := world_after os_exec (Installer.installNvm proc) w in
  includes (file_content path w3) "NVM_DIR" = true /\
  (forall p, p <> path -> files w3 !! p = files w2 !! p) /\
  (forall content, files w2 !! path = Some content ->
     path ∉ read_protected w2 ->
     includes content "NVM_DIR" = true -> w3 = w2) /\
  (path ∈ read_protected w2 -> files w3 !! path = Some Installer.nvmConfig).
Proof.
  intros Hnvm Hr path w2 w3. unfold w3.
  rewrite installNvm_steps in Hr |- *.
  rewrite outcome_bind, outcome_commandExists, Hnvm, world_after_commandExists in Hr.
  rewrite outcome_bind, outcome_executeCommand, world_after_executeCommand in Hr.
  fold w2 in Hr. rewrite outcome_bind in Hr.
  rewrite world_after_bind, outcome_commandExists, Hnvm, world_after_commandExists.
  rewrite world_after_bind, outcome_executeCommand, world_after_executeCommand.
  fold w2. rewrite world_after_bind.
  change (nvm_profile_step proc) with (ensure_block path "NVM_DIR" Installer.nvmConfig) in *.
  destruct (outcome os_exec (ensure_block path "NVM_DIR" Installer.nvmConfig) w2)
    as [[] | m] eqn:Hstep; [| discriminate].
  apply (ensure_block_holds path "NVM_DIR" Installer.nvmConfig w2 eq_refl Hstep).
Qed.

Lemma install_android_package_ensures (installCmd : string) :
  ensures os_exec (Installer.install_android_package proc installCmd)
    (fun r w1 =>
       Installer.success r = true ->
       Installer.needsRestart r = Some true /\
       includes (file_content (getShellConfigPath proc) w1) "ANDROID_HOME" = true).
Proof.
  intros w r. unfold Installer.install_android_package.
  rewrite outcome_bind, world_after_bind, outcome_executeCommand,
    world_after_executeCommand.
  destruct (success (exec_result os_exec installCmd (Some 600000%N) w)); simpl negb;
    cbv iota.
  2: { intros [= <-]. discriminate. }
  change (try_catch _ _) with
    (ensure_block (getShellConfigPath proc) "ANDROID_HOME" Installer.androidConfig).
  rewrite outcome_bind, world_after_bind.
  destruct (outcome os_exec (ensure_block _ _ _) _) as [[] | m] eqn:Hstep;
    [| discriminate].
  intros [= <-] _. split; [reflexivity |].
  apply (ensure_block_holds _ "ANDROID_HOME" Installer.androidConfig _ eq_refl Hstep).
Qed.

(** X14.  Whenever [installAndroidStudio] returns a success, the result
    carries the restart flag and the shell profile mentions
    [ANDROID_HOME]. *)
Theorem installAndroidStudio_success_configures_profile (w : World Sys)
    (r : Installer.InstallResult) :
  outcome os_exec (Installer.installAndroidStudio catalog proc) w = Returned r ->
  Installer.success r = true ->
  Installer.needsRestart r = Some true /\
  includes (file_content (getShellConfigPath proc)
              (world_after os_exec (Installer.installAndroidStudio catalog proc) w))
    "ANDROID_HOME" = true.
Proof.
  revert w r.
  change (ensures os_exec (Installer.installAndroidStudio catalog proc)
            (fun r w1 =>
               Installer.success r = true ->
               Installer.needsRestart r = Some true /\
               includes (file_content (getShellConfigPath proc) w1) "ANDROID_HOME" = true)).
  assert (forall pm,
            ensures os_exec (Installer.choose_android_command proc pm)
              (fun r w1 =>
                 Installer.success r = true ->
                 Installer.needsRestart r = Some true /\
                 includes (file_content (getShellConfigPath proc) w1) "ANDROID_HOME" = true))
    as Hchoose.
  { intros pm. unfold Installer.choose_android_command.
    destruct (PackageMgr.detectOS proc); try apply install_android_package_ensures.
    apply ensures_bind. intros [|]; [apply install_android_package_ensures |].
    apply ensures_ret. discriminate. }
  unfold Installer.installAndroidStudio.
  apply ensures_bind. intros [pm |]; [| apply ensures_ret; discriminate].
  apply ensures_bind. intros [|]; simpl negb; cbv iota; [apply Hchoose |].
  apply ensures_bind. intros javaResult.
  destruct (Installer.success javaResult); simpl negb; cbv iota; [apply Hchoose |].
  apply ensures_ret. discriminate.
Qed.

(** X15.  Java comes first: when a package manager is detected, [java] is
    not found and installing it through [installTool] fails, then
    [installAndroidStudio] fails with the details of that failure, and its
    effects end with those of the Java install: no command to install
    Android Studio is run. *)
Theorem installAndroidStudio_requires_java (w : World Sys)
    (packageManager : PackageMgr.PackageManagerInfo) (javaResult : Installer.InstallResult) :
  let w1 := world_after os_exec (PackageMgr.detectPackageManager proc) w in
  let w2 := probe_world os_exec "java" w1 in
  outcome os_exec (PackageMgr.detectPackageManager proc) w = Returned (Some packageManager) ->
  probe os_exec "java" w1 = false ->
  outcome os_exec (Installer.installTool catalog proc "java" None) w2 = Returned javaResult ->
  Installer.success javaResult = false ->
  outcome os_exec (Installer.installAndroidStudio catalog proc) w =
    Returned {| Installer.success := false;
                Installer.message :=
                  "Failed to install Java (required for Android development)";
                Installer.details := Installer.details javaResult;
                Installer.needsRestart := None |} /\
  trace os_exec (Installer.installAndroidStudio catalog proc) w =
    trace os_exec (PackageMgr.detectPackageManager proc) w ++
    probe_event os_exec "java" w1 ::
    trace os_exec (Installer.installTool catalog proc "java" None) w2.
Proof.
  intros w1 w2 Hdetect Hjava Hinstall Hfail.
  unfold Installer.installAndroidStudio.
  rewrite outcome_bind, trace_bind, Hdetect. fold w1.
  rewrite outcome_bind, trace_bind, outcome_commandExists, trace_commandExists, Hjava,
    world_after_commandExists.
  fold w2. simpl negb. cbv iota.
  rewrite outcome_bind, trace_bind, Hinstall, Hfail. simpl negb. cbv iota.
  split; [reflexivity |].
  unfold trace at 5. simpl. rewrite app_nil_r. reflexivity.
Qed.

End SpecialCases.

(** On a machine without a profile the block is written; a profile that may
    not be read is overwritten, and what it held is lost. *)
Lemma installNvm_configures_profile_once_witness :
  includes
    (file_content "/home/dev/.zshrc"
       (world_after Sim.exec (Installer.installNvm Sim.zsh_on_linux) Sim.bare))
    "NVM_DIR" = true /\
  files (world_after Sim.exec (Installer.installNvm Sim.zsh_on_linux) Sim.hidden_profile)
    !! "/home/dev/.zshrc" = Some Installer.nvmConfig.
Proof.
  split.
  - edestruct (installNvm_configures_profile_once Sim.exec Sim.zsh_on_linux Sim.bare)
      as [H _]; [reflexivity | reflexivity | exact H].
  - edestruct (installNvm_configures_profile_once Sim.exec Sim.zsh_on_linux
                 Sim.hidden_profile) as (_ & _ & _ & H); [reflexivity | reflexivity |].
    apply H. vm_compute. reflexivity.
Defined.

Lemma installAndroidStudio_success_configures_profile_witness :
  includes
    (file_content "/home/dev/.zshrc"
       (world_after Sim.exec
          (Installer.installAndroidStudio ToolCfg.TOOL_CONFIGS Sim.zsh_on_linux)
          Sim.apt_with_snap))
    "ANDROID_HOME" = true.
Proof.
  edestruct (installAndroidStudio_success_configures_profile Sim.exec
               ToolCfg.TOOL_CONFIGS Sim.zsh_on_linux Sim.apt_with_snap)
    as [_ H]; [reflexivity | reflexivity | exact H].
Defined.

Lemma installAndroidStudio_requires_java_witness :
  Installer.success <$>
    outcome_value
      (outcome Sim.exec
         (Installer.installAndroidStudio ToolCfg.TOOL_CONFIGS Sim.zsh_on_linux)
         Sim.apt_offline) = Some false.
Proof.
  edestruct (fun pm r =>
               installAndroidStudio_requires_java Sim.exec ToolCfg.TOOL_CONFIGS
                 Sim.zsh_on_linux Sim.apt_offline pm r)
    as [H _]; [reflexivity | reflexivity | reflexivity | reflexivity |].
  rewrite H. reflexivity.
Defined.

(** ** Status checks *)

Section Status.

Context {Sys : Type}.
Variable os_exec : string -> N -> World Sys -> ExecOutcome * World Sys.
Variable catalog : ToolCfg.Catalog.
Variable proc : Process.

Import Shell ToolCfg.




Lemma sort_statuses_filters (toolStatuses : list Validator.ToolStatus)
    (installed_names missing_names : list (option string)) :
  Validator.sort_statuses toolStatuses installed_names missing_names =
  (installed_names ++
     (Validator.name <$> List.filter Validator.installed toolStatuses),
   missing_names ++
     (Validator.name <$>
        List.filter (fun st => negb (Validator.installed st)) toolStatuses)).
Proof.
  revert installed_names missing_names.
  induction toolStatuses as [| st rest IH]; intros a b; simpl.
  - rewrite !app_nil_r. reflexivity.
  - destruct (Validator.installed st); simpl; rewrite IH, <- app_assoc; reflexivity.
Qed.

Lemma filter_split_length {A : Type} (f : A -> bool) (l : list A) :
  length (List.filter f l) + length (List.filter (fun a => negb (f a)) l) = length l.
Proof. induction l as [| a l IH]; simpl; [reflexivity |]. destruct (f a); simpl; lia. Qed.

(** A status check takes at most two commands and never throws; it reports
    the name that goes with what the lookup found, and not installed when
    it found nothing. *)
Lemma checkToolInstalled_yields_name (toolName : string) :
  yields (fun st => Validator.name st = reported_name catalog toolName /\
                    (getToolConfig catalog toolName = None ->
                     Validator.installed st = false))
    2 (Validator.checkToolInstalled catalog toolName).
Proof.
  unfold Validator.checkToolInstalled, reported_name.
  destruct (getToolConfig catalog toolName) as [[toolConfig | fname] |];
    [| | simpl; auto];
    (simpl; intros [out err | out err m]; simpl; [| split; [reflexivity | discriminate]];
     destruct (Nat.ltb 0 (String.length (trim out))); simpl;
       [| split; [reflexivity | discriminate]];
     intros [out' err' | out' err' m']; simpl; split; (reflexivity || discriminate)).
Qed.

(** X17.  [isSystemReady] never rejects, whatever the order in which the
    probes complete, and is fulfilled once every check has had its two
    completions.  Its two lists split the required tools: together they
    have one name for each required tool, the name that the status check
    reports for it.  The system is ready exactly when nothing is missing,
    and then every required tool is reported installed.  A required name
    for which the lookup finds nothing, neither in the catalog nor in the
    prototype, is always missing, so it alone makes the system not
    ready. *)
Theorem isSystemReady_splits_required_tools (requiredTools : list string)
    (schedule : list nat) (w : World Sys) :
  let answer := (Validator.isSystemReady os_exec catalog requiredTools schedule w).1.1 in
  (forall m, answer <> Some (Thrown m)) /\
  (forall r, answer = Some (Returned r) ->
     length (Validator.SystemReady.installed r) + length (Validator.SystemReady.missing r)
       = length requiredTools /\
     (Validator.SystemReady.ready r = true <-> Validator.SystemReady.missing r = []) /\
     (Validator.SystemReady.ready r = true ->
      length (Validator.SystemReady.installed r) = length requiredTools) /\
     (forall toolName, toolName ∈ requiredTools ->
        reported_name catalog toolName ∈
          Validator.SystemReady.installed r ++ Validator.SystemReady.missing r) /\
     (forall toolName, toolName ∈ requiredTools ->
        getToolConfig catalog toolName = None ->
        Some toolName ∈ Validator.SystemReady.missing r /\
        Validator.SystemReady.ready r = false)) /\
  ((forall i, i < length requiredTools -> 2 <= turns i schedule) ->
   exists r, answer = Some (Returned r)).
Proof.
  intros answer. unfold answer, Validator.isSystemReady, Validator.checkMultipleTools.
  set (ts := Validator.checkToolInstalled catalog <$> requiredTools).
  assert (length ts = length requiredTools) as Hlen by (unfold ts; apply length_fmap).
  pose (Q := fun (i : nat) (st : Validator.ToolStatus) =>
               forall toolName, requiredTools !! i = Some toolName ->
                 Validator.name st = reported_name catalog toolName /\
                 (getToolConfig catalog toolName = None ->
                  Validator.installed st = false)).
  assert (forall i t, ts !! i = Some t -> yields (Q i) 2 t) as Hts.
  { intros i t Hi. unfold ts in Hi. rewrite list_lookup_fmap in Hi.
    destruct (requiredTools !! i) as [toolName |] eqn:Hn; simpl in Hi; [| discriminate].
    injection Hi as <-.
    pose proof (checkToolInstalled_yields_name toolName) as Hy.
    revert Hy. generalize (Validator.checkToolInstalled catalog toolName).
    intros p. generalize 2. clear -Hn. intros n. revert n.
    induction p as [a | m | X e k IH]; intros n; simpl.
    - intros Ha toolName' Hn'. rewrite Hn in Hn'. injection Hn' as <-. exact Ha.
    - auto.
    - destruct n; [auto |]. intros Hk x. apply IH, Hk. }
  destruct (all_positional os_exec Q ts 2 schedule w Hts) as (Hno & Hpos & Hdone).
  destruct (Promise.all os_exec ts schedule w) as [[[[statuses | m] |] w1] t];
    simpl in Hno, Hpos, Hdone |- *.
  - split; [discriminate |]. split; [| eauto].
    intros r [= <-]. destruct (Hpos statuses eq_refl) as [Hl Hq].
    unfold Validator.readiness. rewrite sort_statuses_filters. simpl.
    rewrite !length_fmap.
    set (missing := List.filter (fun st => negb (Validator.installed st)) statuses).
    pose proof (filter_split_length Validator.installed statuses) as Hsplit.
    fold missing in Hsplit.
    assert (Nat.eqb (length missing) 0 = true <-> Validator.name <$> missing = [])
      as Hready.
    { destruct missing; simpl; split; congruence. }
    assert (forall toolName, toolName ∈ requiredTools ->
              exists st, st ∈ statuses /\
                Validator.name st = reported_name catalog toolName /\
                (getToolConfig catalog toolName = None ->
                 Validator.installed st = false)) as Hstatus.
    { intros toolName Hin. apply list_elem_of_lookup in Hin as [i Hi].
      destruct (lookup_lt_is_Some_2 statuses i) as [st Hst].
      { rewrite Hl, Hlen. apply lookup_lt_is_Some. eauto. }
      exists st. split; [apply list_elem_of_lookup; eauto |].
      exact (Hq i st Hst toolName Hi). }
    split; [lia |]. split; [exact Hready |]. split; [| split].
    + intros Hr. apply Hready in Hr. destruct missing; [simpl in Hsplit; lia | discriminate].
    + intros toolName Hin. destruct (Hstatus toolName Hin) as (st & Hst & <- & _).
      rewrite <- fmap_app. apply list_elem_of_fmap. exists st. split; [reflexivity |].
      apply elem_of_app. unfold missing.
      destruct (Validator.installed st) eqn:Hinst; [left | right];
        apply list_elem_of_In, filter_In;
        (split; [apply list_elem_of_In, Hst | rewrite Hinst; reflexivity]).
    + intros toolName Hin Hunknown.
      destruct (Hstatus toolName Hin) as (st & Hst & Hname & Hinst).
      specialize (Hinst Hunknown).
      unfold reported_name in Hname. rewrite Hunknown in Hname.
      assert (st ∈ missing) as Hmiss.
      { apply list_elem_of_In, filter_In. split.
        - apply list_elem_of_In, Hst.
        - rewrite Hinst. reflexivity. }
      split.
      * rewrite <- Hname. apply list_elem_of_fmap. eauto.
      * destruct missing; [inversion Hmiss | reflexivity].
  - exfalso. exact (Hno m eq_refl).
  - split; [discriminate |]. split; [discriminate |].
    intros Hfair. rewrite <- Hlen in Hfair.
    destruct (Hdone Hfair) as [vs Hvs]. discriminate.
Qed.

End Status.

(** ** The system status and its recommendations *)

Section Recommendations.

Context {Sys : Type}.
Variable os_exec : string -> N -> World Sys -> ExecOutcome * World Sys.
Variable catalog : ToolCfg.Catalog.
Variable proc : Process.

Import Shell ToolCfg.

Lemma yields_impl {A : Type} (P Q : A -> Prop) (n : nat) (p : Prog A) :
  (forall a, P a -> Q a) -> yields P n p -> yields Q n p.
Proof.
  intros HPQ. revert n. induction p as [a | m | X e k IH]; intros n; simpl.
  - apply HPQ.
  - auto.
  - destruct n; [auto |]. intros Hk x. apply IH, Hk.
Qed.

Lemma some_named_filter (toolName : string) (tools : list Validator.ToolStatus) :
  Validator.some_named toolName
    (List.filter (fun tool => negb (Validator.installed tool)) tools) = true <->
  exists t, t ∈ tools /\ Validator.installed t = false /\
            Validator.name t = Some toolName.
Proof.
  unfold Validator.some_named. rewrite existsb_exists. split.
  - intros (t & Hin & Heq). apply filter_In in Hin as [Hin Hinst].
    exists t. split; [apply list_elem_of_In, Hin |]. split.
    + destruct (Validator.installed t); [discriminate | reflexivity].
    + destruct (Validator.name t) as [n |]; [| discriminate].
      apply String.eqb_eq in Heq. congruence.
  - intros (t & Hin & Hinst & Hname). exists t. split.
    + apply filter_In. split; [apply list_elem_of_In, Hin |]. rewrite Hinst. reflexivity.
    + rewrite Hname. apply String.eqb_refl.
Qed.

(** X18.  The recommendations are always taken, in this order and each at
    most once, from six fixed sentences, whatever the order of the tools in
    the status.  There is none exactly when the status has a package
    manager and no tool named git, python, nodejs, docker or java is
    reported as not installed: other tools never cause a recommendation. *)
Theorem getRecommendations_fixed_order (status : Validator.SystemStatus.t) :
  sublist (Validator.getRecommendations status)
    ["Install a package manager to easily manage development tools";
     "Install Git for version control";
     "Install Python for Python development";
     "Install Node.js for JavaScript/TypeScript development";
     "Install Docker for containerized development";
     "Install Java for Java/Android development"] /\
  (Validator.getRecommendations status = [] <->
   Validator.SystemStatus.packageManager status <> None /\
   forall t, t ∈ Validator.SystemStatus.tools status ->
     Validator.installed t = false ->
     Validator.name t ∉ Some <$> ["git"; "python"; "nodejs"; "docker"; "java"]).
Proof.
  unfold Validator.getRecommendations. cbv zeta.
  set (notInstalled := List.filter _ _).
  assert (forall n, n ∈ ["git"; "python"; "nodejs"; "docker"; "java"] ->
            Validator.some_named n notInstalled = true ->
            ~ (forall t, t ∈ Validator.SystemStatus.tools status ->
                 Validator.installed t = false ->
                 Validator.name t ∉ Some <$> ["git"; "python"; "nodejs"; "docker"; "java"]))
    as Hlacks.
  { intros n Hn Hsome Hall. apply some_named_filter in Hsome as (t & Hin & Hinst & Hname).
    apply (Hall t Hin Hinst). rewrite Hname. apply list_elem_of_fmap. eauto. }
  split.
  - destruct (Validator.SystemStatus.packageManager status);
      destruct (Validator.some_named "git" notInstalled);
      destruct (Validator.some_named "python" notInstalled);
      destruct (Validator.some_named "nodejs" notInstalled);
      destruct (Validator.some_named "docker" notInstalled);
      destruct (Validator.some_named "java" notInstalled); simpl;
      repeat first [apply sublist_nil | apply sublist_skip | apply sublist_cons].
  - destruct (Validator.SystemStatus.packageManager status) as [pm |]; simpl defined;
      cbv iota.
    2: { split; [| intros [H _]; congruence].
         repeat (match goal with
                 | |- context [if ?b then _ else _] => destruct b
                 end); discriminate. }
    destruct (Validator.some_named "git" notInstalled) eqn:Egit.
    { split; [repeat (match goal with
                      | |- context [if ?b then _ else _] => destruct b
                      end); discriminate |].
      intros [_ H]. exfalso. apply (Hlacks "git"); [repeat constructor | assumption | exact H]. }
    destruct (Validator.some_named "python" notInstalled) eqn:Epython.
    { split; [repeat (match goal with
                      | |- context [if ?b then _ else _] => destruct b
                      end); discriminate |].
      intros [_ H]. exfalso. apply (Hlacks "python"); [repeat constructor | assumption | exact H]. }
    destruct (Validator.some_named "nodejs" notInstalled) eqn:Enodejs.
    { split; [repeat (match goal with
                      | |- context [if ?b then _ else _] => destruct b
                      end); discriminate |].
      intros [_ H]. exfalso. apply (Hlacks "nodejs"); [repeat constructor | assumption | exact H]. }
    destruct (Validator.some_named "docker" notInstalled) eqn:Edocker.
    { split; [repeat (match goal with
                      | |- context [if ?b then _ else _] => destruct b
                      end); discriminate |].
      intros [_ H]. exfalso. apply (Hlacks "docker"); [repeat constructor | assumption | exact H]. }
    destruct (Validator.some_named "java" notInstalled) eqn:Ejava.
    { split; [discriminate |].
      intros [_ H]. exfalso. apply (Hlacks "java"); [repeat constructor | assumption | exact H]. }
    split; [| reflexivity]. intros _. split; [discriminate |].
    intros t Hin Hinst Hname.
    assert (forall n, Validator.name t = Some n ->
                      Validator.some_named n notInstalled = true)
      as Hsome.
    { intros n Hn. apply some_named_filter. eauto. }
    simpl in Hname.
    repeat (apply elem_of_cons in Hname as [Hname | Hname];
            [apply Hsome in Hname; congruence |]).
    inversion Hname.
Qed.

Lemma getRecommendations_without_manager (status : Validator.SystemStatus.t) :
  Validator.SystemStatus.packageManager status = None ->
  head (Validator.getRecommendations status) =
    Some "Install a package manager to easily manage development tools".
Proof.
  intros H. unfold Validator.getRecommendations. rewrite H. cbv zeta. simpl defined.
  cbv iota.
  repeat (match goal with
          | |- context [if ?b then _ else _] => destruct b
          end); reflexivity.
Qed.

(** X19.  [getSystemStatus] never rejects and is fulfilled once every
    status check has had its two completions.  Its status has one entry
    for each tool of the catalog and the operating system and platform of
    the process.  It names a package manager exactly when
    [detectPackageManager], run first and on its own, found one, and that
    one is then flagged available.  The probes of the detection come before
    every effect of the status checks.  On a platform that is neither macOS
    nor Linux the status has no package manager and the first
    recommendation drawn from it is to install one. *)
Theorem getSystemStatus_reports_detection (arch : string) (schedule : list nat)
    (w : World Sys) :
  let result := Validator.getSystemStatus os_exec catalog proc arch schedule w in
  let detected := outcome os_exec (PackageMgr.detectPackageManager proc) w in
  (forall m, result.1.1 <> Some (Thrown m)) /\
  (exists later, result.2 = trace os_exec (PackageMgr.detectPackageManager proc) w ++ later) /\
  (forall status, result.1.1 = Some (Returned status) ->
     Validator.SystemStatus.os status = PackageMgr.detectOS proc /\
     Validator.SystemStatus.platform status = platform proc /\
     Validator.SystemStatus.arch status = arch /\
     length (Validator.SystemStatus.tools status) = length catalog /\
     (Validator.SystemStatus.packageManager status = None <-> detected = Returned None) /\
     (forall pm, Validator.SystemStatus.packageManager status = Some pm ->
        Validator.PackageManagerSummary.available pm = true /\
        exists info, detected = Returned (Some info) /\
                     PackageMgr.name info = Validator.PackageManagerSummary.name pm) /\
     (platform proc <> "darwin" -> platform proc <> "linux" ->
      Validator.SystemStatus.packageManager status = None /\
      head (Validator.getRecommendations status) =
        Some "Install a package manager to easily manage development tools")) /\
  ((forall i, i < length catalog -> 2 <= turns i schedule) ->
   exists status, result.1.1 = Some (Returned status)).
Proof.
  intros result detected. unfold result, detected, Validator.getSystemStatus.
  destruct (never_throws_returns os_exec _ (never_throws_detectPackageManager proc) w)
    as [found Hfound].
  pose proof (fun m => detect_loop_from_table os_exec
                         (PackageMgr.checkOrder (PackageMgr.detectOS proc)) w m) as Htable.
  fold (PackageMgr.detectPackageManager proc) in Htable.
  assert (platform proc <> "darwin" -> platform proc <> "linux" -> found = None)
    as Hunsupported.
  { intros Hd Hl. rewrite (detect_unsupported proc Hd Hl) in Hfound.
    injection Hfound as <-. reflexivity. }
  unfold outcome, trace in *.
  destruct (run os_exec (PackageMgr.detectPackageManager proc) w) as [[o w1] t1].
  simpl in Hfound, Htable. subst o. cbv beta iota.
  unfold Validator.checkAllTools, Validator.checkMultipleTools.
  set (ts := Validator.checkToolInstalled catalog <$> getAllToolNames catalog).
  assert (length ts = length catalog) as Hlen
    by (unfold ts, getAllToolNames; rewrite !length_fmap; reflexivity).
  assert (forall i t, ts !! i = Some t -> yields (fun _ => True) 2 t) as Hts.
  { intros i t Hi. unfold ts in Hi. rewrite list_lookup_fmap in Hi.
    destruct (getAllToolNames catalog !! i) as [toolName |]; simpl in Hi; [| discriminate].
    injection Hi as <-.
    apply (yields_impl _ _ _ _ (fun _ _ => I) (checkToolInstalled_yields_name catalog toolName)). }
  destruct (all_positional os_exec (fun _ _ => True) ts 2 schedule w1 Hts)
    as (Hno & Hpos & Hdone).
  destruct (Promise.all os_exec ts schedule w1) as [[[[statuses | m] |] w2] t2];
    simpl in Hno, Hpos, Hdone |- *.
  - split; [discriminate |]. split; [eauto |]. split; [| eauto].
    intros status [= <-]. simpl.
    destruct (Hpos statuses eq_refl) as [Hl _].
    split; [reflexivity |]. split; [reflexivity |]. split; [reflexivity |].
    split; [congruence |]. split; [| split].
    + destruct found; split; congruence.
    + intros pm Hpm. destruct found as [info |]; [| discriminate].
      injection Hpm as <-. simpl.
      destruct (Htable info eq_refl) as (n & c & _ & _ & ->). eauto.
    + intros Hd Hl'. rewrite (Hunsupported Hd Hl').
      split; [reflexivity | apply getRecommendations_without_manager; reflexivity].
  - exfalso. exact (Hno m eq_refl).
  - split; [discriminate |]. split; [eauto |]. split; [discriminate |].
    intros Hfair. rewrite <- Hlen in Hfair. destruct (Hdone Hfair) as [vs Hvs].
    discriminate.
Qed.

End Recommendations.

(** ** Packages, paths and catalog queries *)

Section Queries.

Context {Sys : Type}.
Variable os_exec : string -> N -> World Sys -> ExecOutcome * World Sys.
Variable proc : Process.

Import Shell ToolCfg.

(** X20.  [installPackage] runs one install command, the manager's install
    command followed by the package name, with a timeout of 600000 ms, and
    its result mirrors that command.  A manager that is passed in is used
    as it is, without any probe.  Without one, the call does what
    [detectPackageManager] does and then what it would do with the manager
    found; when none is found it fails after existence probes only. *)
Theorem installPackage_uses_given_or_detected_manager (packageName : string)
    (w : World Sys) :
  let install := PackageMgr.installPackage proc packageName in
  let command := fun pm => PackageMgr.installCmd pm +:+ " " +:+ packageName in
  let detect := PackageMgr.detectPackageManager proc in
  let w1 := world_after os_exec detect w in
  (forall pm,
     let result := exec_result os_exec (command pm) (Some 600000%N) w in
     exec_commands (trace os_exec (install (Some pm)) w) = [(command pm, 600000%N)] /\
     exists r,
       outcome os_exec (install (Some pm)) w = Returned r /\
       PackageMgr.PackageResult.success r = success result /\
       PackageMgr.PackageResult.details r =
         Some (if success result then stdout result
               else or_else (error result) (stderr result))) /\
  (forall pm,
     outcome os_exec detect w = Returned (Some pm) ->
     outcome os_exec (install None) w = outcome os_exec (install (Some pm)) w1 /\
     trace os_exec (install None) w =
       trace os_exec detect w ++ trace os_exec (install (Some pm)) w1) /\
  (outcome os_exec detect w = Returned None ->
   outcome os_exec (install None) w =
     Returned {| PackageMgr.PackageResult.success := false;
                 PackageMgr.PackageResult.message :=
                   "No package manager detected on this system";
                 PackageMgr.PackageResult.details := None |} /\
   probes_only (trace os_exec (install None) w)).
Proof.
  intros install command detect w1. unfold install, PackageMgr.installPackage.
  fold detect. split; [| split].
  - intros pm. fold (command pm).
    set (result := exec_result os_exec (command pm) (Some 600000%N) w).
    match goal with
    | |- context [trace os_exec ?p w] =>
        assert (exists r,
                  run os_exec p w =
                    (Returned r, exec_world os_exec (command pm) (Some 600000%N) w,
                     [exec_event os_exec (command pm) (Some 600000%N) w]) /\
                  PackageMgr.PackageResult.success r = success result /\
                  PackageMgr.PackageResult.details r =
                    Some (if success result then stdout result
                          else or_else (error result) (stderr result)))
          as (r & Hrun & Hsuccess & Hdetails)
    end.
    { unfold bind at 1. rewrite run_bind, run_executeCommand. fold result.
      eexists. split; [reflexivity |]. simpl. unfold result, command.
      destruct (success _); split; reflexivity. }
    unfold outcome, trace. rewrite Hrun. split; [reflexivity |]. eauto.
  - intros pm Hdetect. rewrite outcome_bind, trace_bind, Hdetect. fold w1.
    split; reflexivity.
  - intros Hdetect. rewrite outcome_bind, trace_bind, Hdetect.
    split; [reflexivity |]. unfold trace at 2. simpl. rewrite app_nil_r.
    apply detectPackageManager_probes_only.
Qed.

(** X21.  The home directory is [HOME] when that is set and not empty,
    else [USERPROFILE] when that is set and not empty, else ["~"]: an empty
    value is passed over like a missing one, so the directory is never the
    empty string.  The shell profile is always one of four files directly
    in that directory, and [.bash_profile] only on macOS. *)
Theorem getShellConfigPath_in_home :
  getHomeDirectory proc =
    match env_HOME proc, env_USERPROFILE proc with
    | Some (String c home), _ => String c home
    | _, Some (String c profile) => String c profile
    | _, _ => "~"
    end /\
  getHomeDirectory proc <> EmptyString /\
  (forall home, env_HOME proc = Some home -> home <> EmptyString ->
     getHomeDirectory proc = home) /\
  (forall profile,
     env_HOME proc = None \/ env_HOME proc = Some EmptyString ->
     env_USERPROFILE proc = Some profile -> profile <> EmptyString ->
     getHomeDirectory proc = profile) /\
  (env_HOME proc = None \/ env_HOME proc = Some EmptyString ->
   env_USERPROFILE proc = None \/ env_USERPROFILE proc = Some EmptyString ->
   getHomeDirectory proc = "~") /\
  exists file,
    file ∈ [".zshrc"; ".bash_profile"; ".bashrc"; ".profile"] /\
    getShellConfigPath proc = getHomeDirectory proc +:+ "/" +:+ file /\
    (file = ".bash_profile" -> platform proc = "darwin").
Proof.
  assert (getHomeDirectory proc =
            match env_HOME proc, env_USERPROFILE proc with
            | Some (String c home), _ => String c home
            | _, Some (String c profile) => String c profile
            | _, _ => "~"
            end) as Hhome.
  { unfold getHomeDirectory, or_else.
    destruct (env_HOME proc) as [[| c h] |], (env_USERPROFILE proc) as [[| d u] |];
      reflexivity. }
  split; [exact Hhome |]. split; [| split; [| split; [| split]]].
  - rewrite Hhome.
    destruct (env_HOME proc) as [[| c h] |], (env_USERPROFILE proc) as [[| d u] |];
      discriminate.
  - intros home Hset Hne. rewrite Hhome, Hset.
    destruct home; [contradiction | reflexivity].
  - intros profile Hunset Hset Hne. rewrite Hhome, Hset.
    destruct profile; [contradiction |]. destruct Hunset as [-> | ->]; reflexivity.
  - intros Hunset Hunset'. rewrite Hhome.
    destruct Hunset as [-> | ->], Hunset' as [-> | ->]; reflexivity.
  - unfold getShellConfigPath. cbv zeta.
    destruct (includes _ "zsh").
    { exists ".zshrc". split; [repeat constructor |]. split; [reflexivity | discriminate]. }
    destruct (includes _ "bash").
    + unfold isMacOS. destruct (String.eqb_spec (platform proc) "darwin") as [Hmac | _].
      * exists ".bash_profile". split; [repeat constructor |]. split; [reflexivity | auto].
      * exists ".bashrc". split; [repeat constructor |].
        split; [reflexivity | discriminate].
    + exists ".profile". split; [repeat constructor |]. split; [reflexivity | discriminate].
Qed.

Lemma shipped_keys_are_names (toolName : string) (toolConfig : ToolConfig) :
  getToolConfig TOOL_CONFIGS toolName = Some (Own toolConfig) ->
  name toolConfig = toolName.
Proof.
  intros H. apply getToolConfig_Some in H. unfold TOOL_CONFIGS in H.
  repeat (apply elem_of_cons in H as [H | H]; [injection H as -> ->; reflexivity |]).
  inversion H.
Qed.

Lemma filter_split_Permutation {A : Type} (f : A -> bool) (l : list A) :
  List.filter f l ++ List.filter (fun a => negb (f a)) l ≡ₚ l.
Proof.
  induction l as [| a l IH]; simpl; [reflexivity |].
  destruct (f a); simpl.
  - constructor. exact IH.
  - rewrite <- Permutation_middle. constructor. exact IH.
Qed.

(** In a catalog whose entries are filed under their own names, a name
    that is not found through the prototype only is reported under
    itself. *)
Lemma plain_reported_name (catalog : Catalog) (toolName : string) :
  (forall key config, getToolConfig catalog key = Some (Own config) -> name config = key) ->
  finds_inherited catalog toolName = false ->
  reported_name catalog toolName = Some toolName.
Proof.
  intros Hkeys. unfold finds_inherited, reported_name.
  destruct (getToolConfig catalog toolName) as [[toolConfig | fname] |] eqn:H;
    [intros _ | discriminate | reflexivity].
  rewrite (Hkeys toolName toolConfig H). reflexivity.
Qed.

(** X22.  An answer of [isSystemReady] holds, installed names first and
    missing ones after, the names that the status checks report for the
    required names, in another order and each as often as it was asked
    for.  With a catalog whose entries are filed under their own names, as
    those of the shipped catalog are, these are the required names
    themselves as long as none of them is found through the prototype
    only. *)
Theorem isSystemReady_sorts_the_required_names (catalog : Catalog)
    (requiredTools : list string) (schedule : list nat) (w : World Sys)
    (r : Validator.SystemReady.t) :
  (Validator.isSystemReady os_exec catalog requiredTools schedule w).1.1
    = Some (Returned r) ->
  Validator.SystemReady.installed r ++ Validator.SystemReady.missing r
    ≡ₚ reported_name catalog <$> requiredTools /\
  ((forall key config,
      getToolConfig catalog key = Some (Own config) -> name config = key) ->
   Forall (fun n => finds_inherited catalog n = false) requiredTools ->
   Validator.SystemReady.installed r ++ Validator.SystemReady.missing r
     ≡ₚ Some <$> requiredTools).
Proof.
  unfold Validator.isSystemReady, Validator.checkMultipleTools.
  set (ts := Validator.checkToolInstalled catalog <$> requiredTools).
  assert (length ts = length requiredTools) as Hlen by (unfold ts; apply length_fmap).
  pose (Q := fun (i : nat) (st : Validator.ToolStatus) =>
               forall toolName, requiredTools !! i = Some toolName ->
                 Validator.name st = reported_name catalog toolName).
  assert (forall i t, ts !! i = Some t -> yields (Q i) 2 t) as Hts.
  { intros i t Hi. unfold ts in Hi. rewrite list_lookup_fmap in Hi.
    destruct (requiredTools !! i) as [toolName |] eqn:Hn; simpl in Hi; [| discriminate].
    injection Hi as <-.
    apply (yields_impl
             (fun st => Validator.name st = reported_name catalog toolName /\
                        (getToolConfig catalog toolName = None ->
                         Validator.installed st = false)) (Q i));
      [| exact (checkToolInstalled_yields_name catalog toolName)].
    intros st [H _] toolName' Hn'. rewrite Hn in Hn'. injection Hn' as <-. exact H. }
  destruct (all_positional os_exec Q ts 2 schedule w Hts) as (_ & Hpos & _).
  destruct (Promise.all os_exec ts schedule w) as [[[[statuses | m] |] w1] t];
    simpl in Hpos |- *; try discriminate.
  intros [= <-]. destruct (Hpos statuses eq_refl) as [Hl Hq].
  unfold Validator.readiness. rewrite sort_statuses_filters. simpl.
  rewrite <- fmap_app, filter_split_Permutation.
  assert (Validator.name <$> statuses = reported_name catalog <$> requiredTools) as Hnames.
  { apply list_eq. intros i. rewrite !list_lookup_fmap.
    destruct (statuses !! i) as [st |] eqn:Hst; simpl.
    - destruct (lookup_lt_is_Some_2 requiredTools i) as [toolName Hn].
      { rewrite <- Hlen, <- Hl. apply lookup_lt_is_Some. eauto. }
      rewrite Hn, (Hq i st Hst toolName Hn). reflexivity.
    - replace (requiredTools !! i) with (@None string); [reflexivity |].
      symmetry. apply lookup_ge_None. apply lookup_ge_None in Hst. lia. }
  rewrite Hnames. split; [reflexivity |].
  intros Hkeys Hplain. replace (reported_name catalog <$> requiredTools)
    with (Some <$> requiredTools); [reflexivity |].
  clear -Hkeys Hplain. induction Hplain as [| n rest Hn _ IH]; [reflexivity |].
  rewrite !fmap_cons, IH, (plain_reported_name catalog n Hkeys Hn). reflexivity.
Qed.

End Queries.

Lemma isSystemReady_sorts_the_required_names_witness :
  [Some "git"] ++ [Some "nope"; Some "Object"]
    ≡ₚ [Some "nope"; Some "git"; Some "Object"] /\
  [Some "git"] ++ [Some "nope"; Some "docker"]
    ≡ₚ Some <$> ["nope"; "git"; "docker"].
Proof.
  split.
  - apply (isSystemReady_sorts_the_required_names Sim.exec ToolCfg.TOOL_CONFIGS
             ["nope"; "git"; "constructor"] [2; 1; 1; 2] (Sim.machine ["git"] [])
             {| Validator.SystemReady.ready := false;
                Validator.SystemReady.missing := [Some "nope"; Some "Object"];
                Validator.SystemReady.installed := [Some "git"] |}).
    vm_compute. reflexivity.
  - apply (isSystemReady_sorts_the_required_names Sim.exec ToolCfg.TOOL_CONFIGS
             ["nope"; "git"; "docker"] [2; 1; 1; 2] (Sim.machine ["git"] [])
             {| Validator.SystemReady.ready := false;
                Validator.SystemReady.missing := [Some "nope"; Some "docker"];
                Validator.SystemReady.installed := [Some "git"] |}).
    + vm_compute. reflexivity.
    + apply shipped_keys_are_names.
    + repeat constructor.
Defined.

(** ** Catalog queries and Node.js through nvm *)

Section CatalogQueries.

Import ToolCfg.

Lemma ToolCategory_eqb_eq (a b : ToolCategory) : ToolCategory_eqb a b = true <-> a = b.
Proof. destruct a, b; simpl; split; congruence. Qed.

Lemma by_category_lengths (tools : list ToolConfig) :
  let by_category := fun c =>
    length (filter (fun tool => ToolCategory_eqb (category tool) c = true) tools) in
  by_category LANGUAGE + by_category RUNTIME + by_category SDK
    + by_category PACKAGE_MANAGER + by_category VERSION_MANAGER = length tools.
Proof.
  cbv zeta. induction tools as [| tool tools IH]; [reflexivity |].
  rewrite !filter_cons. destruct (category tool); simpl; lia.
Qed.

(** X23.  The queries of a catalog agree on its own entries and differ on
    what every object inherits.  A name is listed by [getAllToolNames]
    exactly when [getToolConfig] finds an entry of the catalog under it;
    [getToolConfig] finds something exactly for the listed names and the
    names of the members of [Object.prototype], which are never listed
    unless the catalog has an entry of that name.  The tools that
    [getToolsByCategory] returns for a category are exactly the tools of
    that category that [getToolConfig] finds as entries under some name.
    Every entry is returned for one category only: the five answers
    together have as many tools as the catalog has entries. *)
Theorem catalog_queries_agree (catalog : Catalog) :
  NoDup (getAllToolNames catalog) ->
  (forall toolName,
     toolName ∈ getAllToolNames catalog <->
     exists config, getToolConfig catalog toolName = Some (Own config)) /\
  (forall toolName,
     is_Some (getToolConfig catalog toolName) <->
     toolName ∈ getAllToolNames catalog \/ toolName ∈ Object_prototype.*1) /\
  (forall c tool,
     tool ∈ getToolsByCategory catalog c <->
     category tool = c /\ exists key, getToolConfig catalog key = Some (Own tool)) /\
  length (getToolsByCategory catalog LANGUAGE)
    + length (getToolsByCategory catalog RUNTIME)
    + length (getToolsByCategory catalog SDK)
    + length (getToolsByCategory catalog PACKAGE_MANAGER)
    + length (getToolsByCategory catalog VERSION_MANAGER) = length catalog.
Proof.
  intros Hnd.
  assert (forall toolName,
            toolName ∈ getAllToolNames catalog <->
            exists config, getToolConfig catalog toolName = Some (Own config)) as Hown.
  { intros toolName. split.
    - intros Hin. apply list_elem_of_fmap in Hin as ([key config] & -> & Hin).
      apply list_elem_of_lookup in Hin as [i Hi]. exists config.
      exact (getToolConfig_lookup catalog i key config Hnd Hi).
    - intros [config H]. apply getToolConfig_Some in H.
      apply list_elem_of_fmap. exists (toolName, config). split; [reflexivity | exact H]. }
  assert (forall toolName,
            is_Some (inherited toolName) <-> toolName ∈ Object_prototype.*1) as Hproto.
  { intros toolName. unfold inherited.
    destruct (List.find (fun member => String.eqb (fst member) toolName) Object_prototype)
      as [member |] eqn:Hfind.
    - apply find_some in Hfind as [Hin Heq]. apply String.eqb_eq in Heq. subst toolName.
      split; [intros _ | intros _; exists (snd member); reflexivity].
      apply list_elem_of_fmap. exists member.
      split; [reflexivity | apply list_elem_of_In, Hin].
    - split; [intros [? [=]] |]. intros Hin.
      apply list_elem_of_fmap in Hin as (member & -> & Hin).
      pose proof (find_none _ _ Hfind member (proj1 (list_elem_of_In _ _) Hin)) as Hne.
      simpl in Hne. rewrite String.eqb_refl in Hne. discriminate. }
  split; [exact Hown |]. split; [| split].
  - intros toolName. rewrite Hown, <- Hproto. unfold getToolConfig.
    destruct (own_property catalog toolName) as [config |].
    + split; [eauto |]. intros _. eauto.
    + destruct (inherited toolName) as [fname |]; simpl.
      * split; [intros _; right; eauto | eauto].
      * split; [intros [? [=]] |]. intros [[config [=]] | [? [=]]].
  - intros c tool. unfold getToolsByCategory.
    rewrite list_elem_of_filter, ToolCategory_eqb_eq, list_elem_of_fmap.
    split; intros [Hc H]; (split; [exact Hc |]).
    + destruct H as ([key config] & -> & Hin).
      apply list_elem_of_lookup in Hin as [i Hi]. exists key.
      exact (getToolConfig_lookup catalog i key config Hnd Hi).
    + destruct H as [key H]. apply getToolConfig_Some in H.
      exists (key, tool). split; [reflexivity | exact H].
  - unfold getToolsByCategory. rewrite (by_category_lengths (snd <$> catalog)).
    apply length_fmap.
Qed.

End CatalogQueries.

Lemma catalog_queries_agree_witness :
  length (ToolCfg.getToolsByCategory ToolCfg.TOOL_CONFIGS ToolCfg.LANGUAGE)
    + length (ToolCfg.getToolsByCategory ToolCfg.TOOL_CONFIGS ToolCfg.RUNTIME)
    + length (ToolCfg.getToolsByCategory ToolCfg.TOOL_CONFIGS ToolCfg.SDK)
    + length (ToolCfg.getToolsByCategory ToolCfg.TOOL_CONFIGS ToolCfg.PACKAGE_MANAGER)
    + length (ToolCfg.getToolsByCategory ToolCfg.TOOL_CONFIGS ToolCfg.VERSION_MANAGER)
  = length ToolCfg.TOOL_CONFIGS.
Proof.
  exact (proj2 (proj2 (proj2
           (catalog_queries_agree ToolCfg.TOOL_CONFIGS TOOL_CONFIGS_NoDup)))).
Defined.

Section NodeViaNvm.

Context {Sys : Type}.
Variable os_exec : string -> N -> World Sys -> ExecOutcome * World Sys.
Variable catalog : ToolCfg.Catalog.
Variable proc : Process.

Import Shell.

(** X24.  When node is not found and nvm is, [installNodeViaTarget] runs
    one install command through nvm, for the version asked for or [lts],
    with a timeout of 300000 ms, and probes node again only when that
    command failed.  It succeeds exactly when the command succeeded or that
    last probe found node; no package manager is probed or used. *)
Theorem installNodeViaTarget_via_nvm (version : option string) (w : World Sys) :
  probe os_exec "node" w = false ->
  probe os_exec "nvm" (probe_world os_exec "node" w) = true ->
  let install := Installer.installNodeViaTarget catalog proc version in
  let installCommand := nvm_install_command proc (default "lts" version) in
  let w2 := probe_world os_exec "nvm" (probe_world os_exec "node" w) in
  let result := exec_result os_exec installCommand (Some 300000%N) w2 in
  let w3 := exec_world os_exec installCommand (Some 300000%N) w2 in
  exec_commands (trace os_exec install w) =
    [("which node", 60000%N); ("which nvm", 60000%N); (installCommand, 300000%N)]
    ++ (if success result then [] else [("which node", 60000%N)]) /\
  exists r,
    outcome os_exec install w = Returned r /\
    (Installer.success r = true <->
     success result = true \/ probe os_exec "node" w3 = true) /\
    Installer.details r =
      Some (if Installer.success r then stdout result
            else or_else (error result) (stderr result)).
Proof.
  intros Hnode Hnvm install installCommand w2 result w3.
  unfold install, Installer.installNodeViaTarget, Installer.installNodeViaTarget_with.
  cbv zeta. fold (nvm_install_command proc (default "lts" version)). fold installCommand.
  unfold outcome, trace.
  rewrite run_bind, run_commandExists, Hnode. cbv beta iota.
  rewrite run_bind, run_commandExists, Hnvm. cbv beta iota. simpl negb. cbv iota.
  fold w2. rewrite run_bind, run_executeCommand. fold result w3. cbv beta iota.
  rewrite run_bind.
  destruct (success result) eqn:Hsuccess.
  - simpl. split; [reflexivity |]. eexists. split; [reflexivity |]. simpl.
    split; [tauto | reflexivity].
  - rewrite run_commandExists. cbv beta iota.
    destruct (probe os_exec "node" w3) eqn:Hagain; simpl.
    + split; [reflexivity |]. eexists. split; [reflexivity |]. simpl.
      split; [tauto |].
      reflexivity.
    + split; [reflexivity |]. eexists. split; [reflexivity |]. simpl.
      split; [| reflexivity]. split; [discriminate | intros [H | H]; discriminate].
Qed.

End NodeViaNvm.

Lemma installNodeViaTarget_via_nvm_witness :
  outcome Sim.exec
    (Installer.installNodeViaTarget ToolCfg.TOOL_CONFIGS Sim.zsh_on_linux None)
    Sim.with_nvm =
  Returned {| Installer.success := true;
              Installer.message := "Node.js lts installed successfully via nvm";
              Installer.details := Some "Now using node v20.11.0";
              Installer.needsRestart := None |}.
Proof.
  destruct (installNodeViaTarget_via_nvm Sim.exec ToolCfg.TOOL_CONFIGS Sim.zsh_on_linux
              None Sim.with_nvm eq_refl eq_refl) as (_ & r & Hr & _).
  rewrite Hr. vm_compute in Hr. injection Hr as <-. reflexivity.
Defined.
